(** * build_sorter_layout: a shallow embedding and its properties

    The program reads two JSON documents (category -> items and
    category -> bins), validates them, packs every category's items into its
    bins and writes one CSV row per chest slot.

    Modelling choices.
    - A Python [str] is modelled by its UTF-8 encoding, a Rocq [string] of
      bytes (the input files are read as UTF-8).  Comparing two such texts
      byte by byte is comparing them code point by code point, which is how
      Python orders [str].  [str.casefold] is the full case folding of the
      Unicode character database, one code point at a time.  [repr] escapes
      the ASCII control characters and copies every other character.
    - A [dict] that the program iterates ([layout.items()], the JSON
      documents, the diagnostic tables) is an association list in insertion
      order; a [dict] that is only subscripted ([bin_to_category], [out],
      [sorter]) is a [gmap]; a [set] that is only tested for membership is a
      [gset].
    - An exception is a value of [exn]; a function that may raise returns
      [exn + A].  [print] appends one entry to a list of printed texts and
      [sys.exit] ends the run with its code.
    - A file is absent or holds a content: bytes that are not UTF-8, a text
      the JSON parser rejects, or a JSON text.  Failures of the operating
      system while reading (permissions, a directory in place of the file)
      and the parser's nesting limit are outside the model. *)

From Stdlib Require Import Ascii NArith.
From stdpp Require Import base list strings gmap sorting pretty.

Local Open Scope string_scope.
Local Open Scope nat_scope.
Local Open Scope list_scope.
Local Open Scope stdpp_scope.
Set Warnings "-register-all,-clear-no-such-hyp".

(** ** Constants *)

Definition BIN_CAPACITY : nat := 9.

Definition ascii_uppercase : string := "ABCDEFGHIJKLMNOPQRSTUVWXYZ".

Definition CATEGORIES_JSON : string := "categories.json".
Definition LAYOUT_JSON : string := "category_layout.json".
Definition OUTPUT_CSV : string := "sorter_layout.csv".

(** ** Exceptions

    One constructor per [raise] site of the source, per subscript that can
    raise [KeyError] and per exception of [read_text] and [json.loads] on the
    content of a file; [python_class] gives the Python class that is raised
    and [message] the text of the exception.  The texts of the two decoding
    errors are the library's and are carried as they are. *)

Inductive exn : Type :=
| MissingFile (path : string)
| UnicodeDecodeError (msg : string)
| JSONDecodeError (msg : string)
| DuplicateKey (file : string) (uniq : list string)
| ShapeTopLevel (file : string)
| ShapeValue (of_bins : bool) (file key : string)
| InvalidBin (bin_id : string)
| SubstringNotFound
| OutOfRangeError (b : string)
| CapacityError (n_items capacity : nat) (bins : list string)
| KeyError (key : string).

Inductive pyclass : Type :=
| FileNotFoundError_class | UnicodeDecodeError_class | JSONDecodeError_class
| ValueError_class | TypeError_class | KeyError_class.

Definition python_class (e : exn) : pyclass :=
  match e with
  | MissingFile _ => FileNotFoundError_class
  | UnicodeDecodeError _ => UnicodeDecodeError_class
  | JSONDecodeError _ => JSONDecodeError_class
  | DuplicateKey _ _ | InvalidBin _ | SubstringNotFound
  | OutOfRangeError _ | CapacityError _ _ _ => ValueError_class
  | ShapeTopLevel _ | ShapeValue _ _ _ => TypeError_class
  | KeyError _ => KeyError_class
  end.

#[global] Instance exn_bind : MBind (sum exn) :=
  λ A B f m, match m with inl e => inl e | inr a => f a end.
#[global] Instance exn_ret : MRet (sum exn) := λ A a, inr a.

(** ** Text: [str.casefold], [repr], [str.join] *)

(** The byte at offset [i], 0 past the end (0 is no continuation byte). *)
Definition byte_at (i : nat) (s : string) : N :=
  match String.get i s with Some c => N_of_ascii c | None => 0%N end.

(** A continuation byte of a UTF-8 sequence, [10xxxxxx]. *)
Definition continuation (n : N) : bool := (128 <=? n)%N && (n <? 192)%N.

(** The code point encoded at the head of [s] and the number of bytes of its
    encoding; [None] when the head is not the start of a UTF-8 sequence. *)
Definition decode_point (s : string) : option (N * nat) :=
  let b0 := byte_at 0 s in
  let b1 := byte_at 1 s in
  let b2 := byte_at 2 s in
  let b3 := byte_at 3 s in
  if (b0 <? 128)%N then Some (b0, 1)
  else if (192 <=? b0)%N && (b0 <? 224)%N && continuation b1
  then Some (((b0 - 192) * 64 + (b1 - 128))%N, 2)
  else if (224 <=? b0)%N && (b0 <? 240)%N && continuation b1 && continuation b2
  then Some (((b0 - 224) * 4096 + (b1 - 128) * 64 + (b2 - 128))%N, 3)
  else if (240 <=? b0)%N && (b0 <? 248)%N
          && continuation b1 && continuation b2 && continuation b3
  then Some (((b0 - 240) * 262144 + (b1 - 128) * 4096 + (b2 - 128) * 64
               + (b3 - 128))%N, 4)
  else None.

Definition byte (n : N) : string := String (ascii_of_N n) EmptyString.

(** The UTF-8 encoding of a code point. *)
Definition encode_point (c : N) : string :=
  if (c <? 128)%N then byte c
  else if (c <? 2048)%N then byte (192 + c / 64) +:+ byte (128 + c mod 64)
  else if (c <? 65536)%N
  then byte (224 + c / 4096) +:+ byte (128 + (c / 64) mod 64) +:+ byte (128 + c mod 64)
  else byte (240 + c / 262144) +:+ byte (128 + (c / 4096) mod 64)
         +:+ byte (128 + (c / 64) mod 64) +:+ byte (128 + c mod 64).

(** The case foldings of the code points above U+007F: every code point that
    [str.casefold] changes, with the code points it becomes (statuses C and F
    of the Unicode character database, version 14.0.0), in ascending order.
    Below U+0080 the letters A-Z fold to a-z and nothing else changes. *)
Local Open Scope N_scope.
Definition casefold_table : list (N * list N) :=
  [(0xB5, [0x3BC]); (0xC0, [0xE0]); (0xC1, [0xE1]); (0xC2, [0xE2]); (0xC3, [0xE3]);
   (0xC4, [0xE4]); (0xC5, [0xE5]); (0xC6, [0xE6]); (0xC7, [0xE7]); (0xC8, [0xE8]);
   (0xC9, [0xE9]); (0xCA, [0xEA]); (0xCB, [0xEB]); (0xCC, [0xEC]); (0xCD, [0xED]);
   (0xCE, [0xEE]); (0xCF, [0xEF]); (0xD0, [0xF0]); (0xD1, [0xF1]); (0xD2, [0xF2]);
   (0xD3, [0xF3]); (0xD4, [0xF4]); (0xD5, [0xF5]); (0xD6, [0xF6]); (0xD8, [0xF8]);
   (0xD9, [0xF9]); (0xDA, [0xFA]); (0xDB, [0xFB]); (0xDC, [0xFC]); (0xDD, [0xFD]);
   (0xDE, [0xFE]); (0xDF, [0x73; 0x73]); (0x100, [0x101]); (0x102, [0x103]);
   (0x104, [0x105]); (0x106, [0x107]); (0x108, [0x109]); (0x10A, [0x10B]); (0x10C, [0x10D]);
   (0x10E, [0x10F]); (0x110, [0x111]); (0x112, [0x113]); (0x114, [0x115]); (0x116, [0x117]);
   (0x118, [0x119]); (0x11A, [0x11B]); (0x11C, [0x11D]); (0x11E, [0x11F]); (0x120, [0x121]);
   (0x122, [0x123]); (0x124, [0x125]); (0x126, [0x127]); (0x128, [0x129]); (0x12A, [0x12B]);
   (0x12C, [0x12D]); (0x12E, [0x12F]); (0x130, [0x69; 0x307]); (0x132, [0x133]);
   (0x134, [0x135]); (0x136, [0x137]); (0x139, [0x13A]); (0x13B, [0x13C]); (0x13D, [0x13E]);
   (0x13F, [0x140]); (0x141, [0x142]); (0x143, [0x144]); (0x145, [0x146]); (0x147, [0x148]);
   (0x149, [0x2BC; 0x6E]); (0x14A, [0x14B]); (0x14C, [0x14D]); (0x14E, [0x14F]);
   (0x150, [0x151]); (0x152, [0x153]); (0x154, [0x155]); (0x156, [0x157]); (0x158, [0x159]);
   (0x15A, [0x15B]); (0x15C, [0x15D]); (0x15E, [0x15F]); (0x160, [0x161]); (0x162, [0x163]);
   (0x164, [0x165]); (0x166, [0x167]); (0x168, [0x169]); (0x16A, [0x16B]); (0x16C, [0x16D]);
   (0x16E, [0x16F]); (0x170, [0x171]); (0x172, [0x173]); (0x174, [0x175]); (0x176, [0x177]);
   (0x178, [0xFF]); (0x179, [0x17A]); (0x17B, [0x17C]); (0x17D, [0x17E]); (0x17F, [0x73]);
   (0x181, [0x253]); (0x182, [0x183]); (0x184, [0x185]); (0x186, [0x254]); (0x187, [0x188]);
   (0x189, [0x256]); (0x18A, [0x257]); (0x18B, [0x18C]); (0x18E, [0x1DD]); (0x18F, [0x259]);
   (0x190, [0x25B]); (0x191, [0x192]); (0x193, [0x260]); (0x194, [0x263]); (0x196, [0x269]);
   (0x197, [0x268]); (0x198, [0x199]); (0x19C, [0x26F]); (0x19D, [0x272]); (0x19F, [0x275]);
   (0x1A0, [0x1A1]); (0x1A2, [0x1A3]); (0x1A4, [0x1A5]); (0x1A6, [0x280]); (0x1A7, [0x1A8]);
   (0x1A9, [0x283]); (0x1AC, [0x1AD]); (0x1AE, [0x288]); (0x1AF, [0x1B0]); (0x1B1, [0x28A]);
   (0x1B2, [0x28B]); (0x1B3, [0x1B4]); (0x1B5, [0x1B6]); (0x1B7, [0x292]); (0x1B8, [0x1B9]);
   (0x1BC, [0x1BD]); (0x1C4, [0x1C6]); (0x1C5, [0x1C6]); (0x1C7, [0x1C9]); (0x1C8, [0x1C9]);
   (0x1CA, [0x1CC]); (0x1CB, [0x1CC]); (0x1CD, [0x1CE]); (0x1CF, [0x1D0]); (0x1D1, [0x1D2]);
   (0x1D3, [0x1D4]); (0x1D5, [0x1D6]); (0x1D7, [0x1D8]); (0x1D9, [0x1DA]); (0x1DB, [0x1DC]);
   (0x1DE, [0x1DF]); (0x1E0, [0x1E1]); (0x1E2, [0x1E3]); (0x1E4, [0x1E5]); (0x1E6, [0x1E7]);
   (0x1E8, [0x1E9]); (0x1EA, [0x1EB]); (0x1EC, [0x1ED]); (0x1EE, [0x1EF]);
   (0x1F0, [0x6A; 0x30C]); (0x1F1, [0x1F3]); (0x1F2, [0x1F3]); (0x1F4, [0x1F5]);
   (0x1F6, [0x195]); (0x1F7, [0x1BF]); (0x1F8, [0x1F9]); (0x1FA, [0x1FB]); (0x1FC, [0x1FD]);
   (0x1FE, [0x1FF]); (0x200, [0x201]); (0x202, [0x203]); (0x204, [0x205]); (0x206, [0x207]);
   (0x208, [0x209]); (0x20A, [0x20B]); (0x20C, [0x20D]); (0x20E, [0x20F]); (0x210, [0x211]);
   (0x212, [0x213]); (0x214, [0x215]); (0x216, [0x217]); (0x218, [0x219]); (0x21A, [0x21B]);
   (0x21C, [0x21D]); (0x21E, [0x21F]); (0x220, [0x19E]); (0x222, [0x223]); (0x224, [0x225]);
   (0x226, [0x227]); (0x228, [0x229]); (0x22A, [0x22B]); (0x22C, [0x22D]); (0x22E, [0x22F]);
   (0x230, [0x231]); (0x232, [0x233]); (0x23A, [0x2C65]); (0x23B, [0x23C]);
   (0x23D, [0x19A]); (0x23E, [0x2C66]); (0x241, [0x242]); (0x243, [0x180]);
   (0x244, [0x289]); (0x245, [0x28C]); (0x246, [0x247]); (0x248, [0x249]); (0x24A, [0x24B]);
   (0x24C, [0x24D]); (0x24E, [0x24F]); (0x345, [0x3B9]); (0x370, [0x371]); (0x372, [0x373]);
   (0x376, [0x377]); (0x37F, [0x3F3]); (0x386, [0x3AC]); (0x388, [0x3AD]); (0x389, [0x3AE]);
   (0x38A, [0x3AF]); (0x38C, [0x3CC]); (0x38E, [0x3CD]); (0x38F, [0x3CE]);
   (0x390, [0x3B9; 0x308; 0x301]); (0x391, [0x3B1]); (0x392, [0x3B2]); (0x393, [0x3B3]);
   (0x394, [0x3B4]); (0x395, [0x3B5]); (0x396, [0x3B6]); (0x397, [0x3B7]); (0x398, [0x3B8]);
   (0x399, [0x3B9]); (0x39A, [0x3BA]); (0x39B, [0x3BB]); (0x39C, [0x3BC]); (0x39D, [0x3BD]);
   (0x39E, [0x3BE]); (0x39F, [0x3BF]); (0x3A0, [0x3C0]); (0x3A1, [0x3C1]); (0x3A3, [0x3C3]);
   (0x3A4, [0x3C4]); (0x3A5, [0x3C5]); (0x3A6, [0x3C6]); (0x3A7, [0x3C7]); (0x3A8, [0x3C8]);
   (0x3A9, [0x3C9]); (0x3AA, [0x3CA]); (0x3AB, [0x3CB]); (0x3B0, [0x3C5; 0x308; 0x301]);
   (0x3C2, [0x3C3]); (0x3CF, [0x3D7]); (0x3D0, [0x3B2]); (0x3D1, [0x3B8]); (0x3D5, [0x3C6]);
   (0x3D6, [0x3C0]); (0x3D8, [0x3D9]); (0x3DA, [0x3DB]); (0x3DC, [0x3DD]); (0x3DE, [0x3DF]);
   (0x3E0, [0x3E1]); (0x3E2, [0x3E3]); (0x3E4, [0x3E5]); (0x3E6, [0x3E7]); (0x3E8, [0x3E9]);
   (0x3EA, [0x3EB]); (0x3EC, [0x3ED]); (0x3EE, [0x3EF]); (0x3F0, [0x3BA]); (0x3F1, [0x3C1]);
   (0x3F4, [0x3B8]); (0x3F5, [0x3B5]); (0x3F7, [0x3F8]); (0x3F9, [0x3F2]); (0x3FA, [0x3FB]);
   (0x3FD, [0x37B]); (0x3FE, [0x37C]); (0x3FF, [0x37D]); (0x400, [0x450]); (0x401, [0x451]);
   (0x402, [0x452]); (0x403, [0x453]); (0x404, [0x454]); (0x405, [0x455]); (0x406, [0x456]);
   (0x407, [0x457]); (0x408, [0x458]); (0x409, [0x459]); (0x40A, [0x45A]); (0x40B, [0x45B]);
   (0x40C, [0x45C]); (0x40D, [0x45D]); (0x40E, [0x45E]); (0x40F, [0x45F]); (0x410, [0x430]);
   (0x411, [0x431]); (0x412, [0x432]); (0x413, [0x433]); (0x414, [0x434]); (0x415, [0x435]);
   (0x416, [0x436]); (0x417, [0x437]); (0x418, [0x438]); (0x419, [0x439]); (0x41A, [0x43A]);
   (0x41B, [0x43B]); (0x41C, [0x43C]); (0x41D, [0x43D]); (0x41E, [0x43E]); (0x41F, [0x43F]);
   (0x420, [0x440]); (0x421, [0x441]); (0x422, [0x442]); (0x423, [0x443]); (0x424, [0x444]);
   (0x425, [0x445]); (0x426, [0x446]); (0x427, [0x447]); (0x428, [0x448]); (0x429, [0x449]);
   (0x42A, [0x44A]); (0x42B, [0x44B]); (0x42C, [0x44C]); (0x42D, [0x44D]); (0x42E, [0x44E]);
   (0x42F, [0x44F]); (0x460, [0x461]); (0x462, [0x463]); (0x464, [0x465]); (0x466, [0x467]);
   (0x468, [0x469]); (0x46A, [0x46B]); (0x46C, [0x46D]); (0x46E, [0x46F]); (0x470, [0x471]);
   (0x472, [0x473]); (0x474, [0x475]); (0x476, [0x477]); (0x478, [0x479]); (0x47A, [0x47B]);
   (0x47C, [0x47D]); (0x47E, [0x47F]); (0x480, [0x481]); (0x48A, [0x48B]); (0x48C, [0x48D]);
   (0x48E, [0x48F]); (0x490, [0x491]); (0x492, [0x493]); (0x494, [0x495]); (0x496, [0x497]);
   (0x498, [0x499]); (0x49A, [0x49B]); (0x49C, [0x49D]); (0x49E, [0x49F]); (0x4A0, [0x4A1]);
   (0x4A2, [0x4A3]); (0x4A4, [0x4A5]); (0x4A6, [0x4A7]); (0x4A8, [0x4A9]); (0x4AA, [0x4AB]);
   (0x4AC, [0x4AD]); (0x4AE, [0x4AF]); (0x4B0, [0x4B1]); (0x4B2, [0x4B3]); (0x4B4, [0x4B5]);
   (0x4B6, [0x4B7]); (0x4B8, [0x4B9]); (0x4BA, [0x4BB]); (0x4BC, [0x4BD]); (0x4BE, [0x4BF]);
   (0x4C0, [0x4CF]); (0x4C1, [0x4C2]); (0x4C3, [0x4C4]); (0x4C5, [0x4C6]); (0x4C7, [0x4C8]);
   (0x4C9, [0x4CA]); (0x4CB, [0x4CC]); (0x4CD, [0x4CE]); (0x4D0, [0x4D1]); (0x4D2, [0x4D3]);
   (0x4D4, [0x4D5]); (0x4D6, [0x4D7]); (0x4D8, [0x4D9]); (0x4DA, [0x4DB]); (0x4DC, [0x4DD]);
   (0x4DE, [0x4DF]); (0x4E0, [0x4E1]); (0x4E2, [0x4E3]); (0x4E4, [0x4E5]); (0x4E6, [0x4E7]);
   (0x4E8, [0x4E9]); (0x4EA, [0x4EB]); (0x4EC, [0x4ED]); (0x4EE, [0x4EF]); (0x4F0, [0x4F1]);
   (0x4F2, [0x4F3]); (0x4F4, [0x4F5]); (0x4F6, [0x4F7]); (0x4F8, [0x4F9]); (0x4FA, [0x4FB]);
   (0x4FC, [0x4FD]); (0x4FE, [0x4FF]); (0x500, [0x501]); (0x502, [0x503]); (0x504, [0x505]);
   (0x506, [0x507]); (0x508, [0x509]); (0x50A, [0x50B]); (0x50C, [0x50D]); (0x50E, [0x50F]);
   (0x510, [0x511]); (0x512, [0x513]); (0x514, [0x515]); (0x516, [0x517]); (0x518, [0x519]);
   (0x51A, [0x51B]); (0x51C, [0x51D]); (0x51E, [0x51F]); (0x520, [0x521]); (0x522, [0x523]);
   (0x524, [0x525]); (0x526, [0x527]); (0x528, [0x529]); (0x52A, [0x52B]); (0x52C, [0x52D]);
   (0x52E, [0x52F]); (0x531, [0x561]); (0x532, [0x562]); (0x533, [0x563]); (0x534, [0x564]);
   (0x535, [0x565]); (0x536, [0x566]); (0x537, [0x567]); (0x538, [0x568]); (0x539, [0x569]);
   (0x53A, [0x56A]); (0x53B, [0x56B]); (0x53C, [0x56C]); (0x53D, [0x56D]); (0x53E, [0x56E]);
   (0x53F, [0x56F]); (0x540, [0x570]); (0x541, [0x571]); (0x542, [0x572]); (0x543, [0x573]);
   (0x544, [0x574]); (0x545, [0x575]); (0x546, [0x576]); (0x547, [0x577]); (0x548, [0x578]);
   (0x549, [0x579]); (0x54A, [0x57A]); (0x54B, [0x57B]); (0x54C, [0x57C]); (0x54D, [0x57D]);
   (0x54E, [0x57E]); (0x54F, [0x57F]); (0x550, [0x580]); (0x551, [0x581]); (0x552, [0x582]);
   (0x553, [0x583]); (0x554, [0x584]); (0x555, [0x585]); (0x556, [0x586]);
   (0x587, [0x565; 0x582]); (0x10A0, [0x2D00]); (0x10A1, [0x2D01]); (0x10A2, [0x2D02]);
   (0x10A3, [0x2D03]); (0x10A4, [0x2D04]); (0x10A5, [0x2D05]); (0x10A6, [0x2D06]);
   (0x10A7, [0x2D07]); (0x10A8, [0x2D08]); (0x10A9, [0x2D09]); (0x10AA, [0x2D0A]);
   (0x10AB, [0x2D0B]); (0x10AC, [0x2D0C]); (0x10AD, [0x2D0D]); (0x10AE, [0x2D0E]);
   (0x10AF, [0x2D0F]); (0x10B0, [0x2D10]); (0x10B1, [0x2D11]); (0x10B2, [0x2D12]);
   (0x10B3, [0x2D13]); (0x10B4, [0x2D14]); (0x10B5, [0x2D15]); (0x10B6, [0x2D16]);
   (0x10B7, [0x2D17]); (0x10B8, [0x2D18]); (0x10B9, [0x2D19]); (0x10BA, [0x2D1A]);
   (0x10BB, [0x2D1B]); (0x10BC, [0x2D1C]); (0x10BD, [0x2D1D]); (0x10BE, [0x2D1E]);
   (0x10BF, [0x2D1F]); (0x10C0, [0x2D20]); (0x10C1, [0x2D21]); (0x10C2, [0x2D22]);
   (0x10C3, [0x2D23]); (0x10C4, [0x2D24]); (0x10C5, [0x2D25]); (0x10C7, [0x2D27]);
   (0x10CD, [0x2D2D]); (0x13F8, [0x13F0]); (0x13F9, [0x13F1]); (0x13FA, [0x13F2]);
   (0x13FB, [0x13F3]); (0x13FC, [0x13F4]); (0x13FD, [0x13F5]); (0x1C80, [0x432]);
   (0x1C81, [0x434]); (0x1C82, [0x43E]); (0x1C83, [0x441]); (0x1C84, [0x442]);
   (0x1C85, [0x442]); (0x1C86, [0x44A]); (0x1C87, [0x463]); (0x1C88, [0xA64B]);
   (0x1C90, [0x10D0]); (0x1C91, [0x10D1]); (0x1C92, [0x10D2]); (0x1C93, [0x10D3]);
   (0x1C94, [0x10D4]); (0x1C95, [0x10D5]); (0x1C96, [0x10D6]); (0x1C97, [0x10D7]);
   (0x1C98, [0x10D8]); (0x1C99, [0x10D9]); (0x1C9A, [0x10DA]); (0x1C9B, [0x10DB]);
   (0x1C9C, [0x10DC]); (0x1C9D, [0x10DD]); (0x1C9E, [0x10DE]); (0x1C9F, [0x10DF]);
   (0x1CA0, [0x10E0]); (0x1CA1, [0x10E1]); (0x1CA2, [0x10E2]); (0x1CA3, [0x10E3]);
   (0x1CA4, [0x10E4]); (0x1CA5, [0x10E5]); (0x1CA6, [0x10E6]); (0x1CA7, [0x10E7]);
   (0x1CA8, [0x10E8]); (0x1CA9, [0x10E9]); (0x1CAA, [0x10EA]); (0x1CAB, [0x10EB]);
   (0x1CAC, [0x10EC]); (0x1CAD, [0x10ED]); (0x1CAE, [0x10EE]); (0x1CAF, [0x10EF]);
   (0x1CB0, [0x10F0]); (0x1CB1, [0x10F1]); (0x1CB2, [0x10F2]); (0x1CB3, [0x10F3]);
   (0x1CB4, [0x10F4]); (0x1CB5, [0x10F5]); (0x1CB6, [0x10F6]); (0x1CB7, [0x10F7]);
   (0x1CB8, [0x10F8]); (0x1CB9, [0x10F9]); (0x1CBA, [0x10FA]); (0x1CBD, [0x10FD]);
   (0x1CBE, [0x10FE]); (0x1CBF, [0x10FF]); (0x1E00, [0x1E01]); (0x1E02, [0x1E03]);
   (0x1E04, [0x1E05]); (0x1E06, [0x1E07]); (0x1E08, [0x1E09]); (0x1E0A, [0x1E0B]);
   (0x1E0C, [0x1E0D]); (0x1E0E, [0x1E0F]); (0x1E10, [0x1E11]); (0x1E12, [0x1E13]);
   (0x1E14, [0x1E15]); (0x1E16, [0x1E17]); (0x1E18, [0x1E19]); (0x1E1A, [0x1E1B]);
   (0x1E1C, [0x1E1D]); (0x1E1E, [0x1E1F]); (0x1E20, [0x1E21]); (0x1E22, [0x1E23]);
   (0x1E24, [0x1E25]); (0x1E26, [0x1E27]); (0x1E28, [0x1E29]); (0x1E2A, [0x1E2B]);
   (0x1E2C, [0x1E2D]); (0x1E2E, [0x1E2F]); (0x1E30, [0x1E31]); (0x1E32, [0x1E33]);
   (0x1E34, [0x1E35]); (0x1E36, [0x1E37]); (0x1E38, [0x1E39]); (0x1E3A, [0x1E3B]);
   (0x1E3C, [0x1E3D]); (0x1E3E, [0x1E3F]); (0x1E40, [0x1E41]); (0x1E42, [0x1E43]);
   (0x1E44, [0x1E45]); (0x1E46, [0x1E47]); (0x1E48, [0x1E49]); (0x1E4A, [0x1E4B]);
   (0x1E4C, [0x1E4D]); (0x1E4E, [0x1E4F]); (0x1E50, [0x1E51]); (0x1E52, [0x1E53]);
   (0x1E54, [0x1E55]); (0x1E56, [0x1E57]); (0x1E58, [0x1E59]); (0x1E5A, [0x1E5B]);
   (0x1E5C, [0x1E5D]); (0x1E5E, [0x1E5F]); (0x1E60, [0x1E61]); (0x1E62, [0x1E63]);
   (0x1E64, [0x1E65]); (0x1E66, [0x1E67]); (0x1E68, [0x1E69]); (0x1E6A, [0x1E6B]);
   (0x1E6C, [0x1E6D]); (0x1E6E, [0x1E6F]); (0x1E70, [0x1E71]); (0x1E72, [0x1E73]);
   (0x1E74, [0x1E75]); (0x1E76, [0x1E77]); (0x1E78, [0x1E79]); (0x1E7A, [0x1E7B]);
   (0x1E7C, [0x1E7D]); (0x1E7E, [0x1E7F]); (0x1E80, [0x1E81]); (0x1E82, [0x1E83]);
   (0x1E84, [0x1E85]); (0x1E86, [0x1E87]); (0x1E88, [0x1E89]); (0x1E8A, [0x1E8B]);
   (0x1E8C, [0x1E8D]); (0x1E8E, [0x1E8F]); (0x1E90, [0x1E91]); (0x1E92, [0x1E93]);
   (0x1E94, [0x1E95]); (0x1E96, [0x68; 0x331]); (0x1E97, [0x74; 0x308]);
   (0x1E98, [0x77; 0x30A]); (0x1E99, [0x79; 0x30A]); (0x1E9A, [0x61; 0x2BE]);
   (0x1E9B, [0x1E61]); (0x1E9E, [0x73; 0x73]); (0x1EA0, [0x1EA1]); (0x1EA2, [0x1EA3]);
   (0x1EA4, [0x1EA5]); (0x1EA6, [0x1EA7]); (0x1EA8, [0x1EA9]); (0x1EAA, [0x1EAB]);
   (0x1EAC, [0x1EAD]); (0x1EAE, [0x1EAF]); (0x1EB0, [0x1EB1]); (0x1EB2, [0x1EB3]);
   (0x1EB4, [0x1EB5]); (0x1EB6, [0x1EB7]); (0x1EB8, [0x1EB9]); (0x1EBA, [0x1EBB]);
   (0x1EBC, [0x1EBD]); (0x1EBE, [0x1EBF]); (0x1EC0, [0x1EC1]); (0x1EC2, [0x1EC3]);
   (0x1EC4, [0x1EC5]); (0x1EC6, [0x1EC7]); (0x1EC8, [0x1EC9]); (0x1ECA, [0x1ECB]);
   (0x1ECC, [0x1ECD]); (0x1ECE, [0x1ECF]); (0x1ED0, [0x1ED1]); (0x1ED2, [0x1ED3]);
   (0x1ED4, [0x1ED5]); (0x1ED6, [0x1ED7]); (0x1ED8, [0x1ED9]); (0x1EDA, [0x1EDB]);
   (0x1EDC, [0x1EDD]); (0x1EDE, [0x1EDF]); (0x1EE0, [0x1EE1]); (0x1EE2, [0x1EE3]);
   (0x1EE4, [0x1EE5]); (0x1EE6, [0x1EE7]); (0x1EE8, [0x1EE9]); (0x1EEA, [0x1EEB]);
   (0x1EEC, [0x1EED]); (0x1EEE, [0x1EEF]); (0x1EF0, [0x1EF1]); (0x1EF2, [0x1EF3]);
   (0x1EF4, [0x1EF5]); (0x1EF6, [0x1EF7]); (0x1EF8, [0x1EF9]); (0x1EFA, [0x1EFB]);
   (0x1EFC, [0x1EFD]); (0x1EFE, [0x1EFF]); (0x1F08, [0x1F00]); (0x1F09, [0x1F01]);
   (0x1F0A, [0x1F02]); (0x1F0B, [0x1F03]); (0x1F0C, [0x1F04]); (0x1F0D, [0x1F05]);
   (0x1F0E, [0x1F06]); (0x1F0F, [0x1F07]); (0x1F18, [0x1F10]); (0x1F19, [0x1F11]);
   (0x1F1A, [0x1F12]); (0x1F1B, [0x1F13]); (0x1F1C, [0x1F14]); (0x1F1D, [0x1F15]);
   (0x1F28, [0x1F20]); (0x1F29, [0x1F21]); (0x1F2A, [0x1F22]); (0x1F2B, [0x1F23]);
   (0x1F2C, [0x1F24]); (0x1F2D, [0x1F25]); (0x1F2E, [0x1F26]); (0x1F2F, [0x1F27]);
   (0x1F38, [0x1F30]); (0x1F39, [0x1F31]); (0x1F3A, [0x1F32]); (0x1F3B, [0x1F33]);
   (0x1F3C, [0x1F34]); (0x1F3D, [0x1F35]); (0x1F3E, [0x1F36]); (0x1F3F, [0x1F37]);
   (0x1F48, [0x1F40]); (0x1F49, [0x1F41]); (0x1F4A, [0x1F42]); (0x1F4B, [0x1F43]);
   (0x1F4C, [0x1F44]); (0x1F4D, [0x1F45]); (0x1F50, [0x3C5; 0x313]);
   (0x1F52, [0x3C5; 0x313; 0x300]); (0x1F54, [0x3C5; 0x313; 0x301]);
   (0x1F56, [0x3C5; 0x313; 0x342]); (0x1F59, [0x1F51]); (0x1F5B, [0x1F53]);
   (0x1F5D, [0x1F55]); (0x1F5F, [0x1F57]); (0x1F68, [0x1F60]); (0x1F69, [0x1F61]);
   (0x1F6A, [0x1F62]); (0x1F6B, [0x1F63]); (0x1F6C, [0x1F64]); (0x1F6D, [0x1F65]);
   (0x1F6E, [0x1F66]); (0x1F6F, [0x1F67]); (0x1F80, [0x1F00; 0x3B9]);
   (0x1F81, [0x1F01; 0x3B9]); (0x1F82, [0x1F02; 0x3B9]); (0x1F83, [0x1F03; 0x3B9]);
   (0x1F84, [0x1F04; 0x3B9]); (0x1F85, [0x1F05; 0x3B9]); (0x1F86, [0x1F06; 0x3B9]);
   (0x1F87, [0x1F07; 0x3B9]); (0x1F88, [0x1F00; 0x3B9]); (0x1F89, [0x1F01; 0x3B9]);
   (0x1F8A, [0x1F02; 0x3B9]); (0x1F8B, [0x1F03; 0x3B9]); (0x1F8C, [0x1F04; 0x3B9]);
   (0x1F8D, [0x1F05; 0x3B9]); (0x1F8E, [0x1F06; 0x3B9]); (0x1F8F, [0x1F07; 0x3B9]);
   (0x1F90, [0x1F20; 0x3B9]); (0x1F91, [0x1F21; 0x3B9]); (0x1F92, [0x1F22; 0x3B9]);
   (0x1F93, [0x1F23; 0x3B9]); (0x1F94, [0x1F24; 0x3B9]); (0x1F95, [0x1F25; 0x3B9]);
   (0x1F96, [0x1F26; 0x3B9]); (0x1F97, [0x1F27; 0x3B9]); (0x1F98, [0x1F20; 0x3B9]);
   (0x1F99, [0x1F21; 0x3B9]); (0x1F9A, [0x1F22; 0x3B9]); (0x1F9B, [0x1F23; 0x3B9]);
   (0x1F9C, [0x1F24; 0x3B9]); (0x1F9D, [0x1F25; 0x3B9]); (0x1F9E, [0x1F26; 0x3B9]);
   (0x1F9F, [0x1F27; 0x3B9]); (0x1FA0, [0x1F60; 0x3B9]); (0x1FA1, [0x1F61; 0x3B9]);
   (0x1FA2, [0x1F62; 0x3B9]); (0x1FA3, [0x1F63; 0x3B9]); (0x1FA4, [0x1F64; 0x3B9]);
   (0x1FA5, [0x1F65; 0x3B9]); (0x1FA6, [0x1F66; 0x3B9]); (0x1FA7, [0x1F67; 0x3B9]);
   (0x1FA8, [0x1F60; 0x3B9]); (0x1FA9, [0x1F61; 0x3B9]); (0x1FAA, [0x1F62; 0x3B9]);
   (0x1FAB, [0x1F63; 0x3B9]); (0x1FAC, [0x1F64; 0x3B9]); (0x1FAD, [0x1F65; 0x3B9]);
   (0x1FAE, [0x1F66; 0x3B9]); (0x1FAF, [0x1F67; 0x3B9]); (0x1FB2, [0x1F70; 0x3B9]);
   (0x1FB3, [0x3B1; 0x3B9]); (0x1FB4, [0x3AC; 0x3B9]); (0x1FB6, [0x3B1; 0x342]);
   (0x1FB7, [0x3B1; 0x342; 0x3B9]); (0x1FB8, [0x1FB0]); (0x1FB9, [0x1FB1]);
   (0x1FBA, [0x1F70]); (0x1FBB, [0x1F71]); (0x1FBC, [0x3B1; 0x3B9]); (0x1FBE, [0x3B9]);
   (0x1FC2, [0x1F74; 0x3B9]); (0x1FC3, [0x3B7; 0x3B9]); (0x1FC4, [0x3AE; 0x3B9]);
   (0x1FC6, [0x3B7; 0x342]); (0x1FC7, [0x3B7; 0x342; 0x3B9]); (0x1FC8, [0x1F72]);
   (0x1FC9, [0x1F73]); (0x1FCA, [0x1F74]); (0x1FCB, [0x1F75]); (0x1FCC, [0x3B7; 0x3B9]);
   (0x1FD2, [0x3B9; 0x308; 0x300]); (0x1FD3, [0x3B9; 0x308; 0x301]);
   (0x1FD6, [0x3B9; 0x342]); (0x1FD7, [0x3B9; 0x308; 0x342]); (0x1FD8, [0x1FD0]);
   (0x1FD9, [0x1FD1]); (0x1FDA, [0x1F76]); (0x1FDB, [0x1F77]);
   (0x1FE2, [0x3C5; 0x308; 0x300]); (0x1FE3, [0x3C5; 0x308; 0x301]);
   (0x1FE4, [0x3C1; 0x313]); (0x1FE6, [0x3C5; 0x342]); (0x1FE7, [0x3C5; 0x308; 0x342]);
   (0x1FE8, [0x1FE0]); (0x1FE9, [0x1FE1]); (0x1FEA, [0x1F7A]); (0x1FEB, [0x1F7B]);
   (0x1FEC, [0x1FE5]); (0x1FF2, [0x1F7C; 0x3B9]); (0x1FF3, [0x3C9; 0x3B9]);
   (0x1FF4, [0x3CE; 0x3B9]); (0x1FF6, [0x3C9; 0x342]); (0x1FF7, [0x3C9; 0x342; 0x3B9]);
   (0x1FF8, [0x1F78]); (0x1FF9, [0x1F79]); (0x1FFA, [0x1F7C]); (0x1FFB, [0x1F7D]);
   (0x1FFC, [0x3C9; 0x3B9]); (0x2126, [0x3C9]); (0x212A, [0x6B]); (0x212B, [0xE5]);
   (0x2132, [0x214E]); (0x2160, [0x2170]); (0x2161, [0x2171]); (0x2162, [0x2172]);
   (0x2163, [0x2173]); (0x2164, [0x2174]); (0x2165, [0x2175]); (0x2166, [0x2176]);
   (0x2167, [0x2177]); (0x2168, [0x2178]); (0x2169, [0x2179]); (0x216A, [0x217A]);
   (0x216B, [0x217B]); (0x216C, [0x217C]); (0x216D, [0x217D]); (0x216E, [0x217E]);
   (0x216F, [0x217F]); (0x2183, [0x2184]); (0x24B6, [0x24D0]); (0x24B7, [0x24D1]);
   (0x24B8, [0x24D2]); (0x24B9, [0x24D3]); (0x24BA, [0x24D4]); (0x24BB, [0x24D5]);
   (0x24BC, [0x24D6]); (0x24BD, [0x24D7]); (0x24BE, [0x24D8]); (0x24BF, [0x24D9]);
   (0x24C0, [0x24DA]); (0x24C1, [0x24DB]); (0x24C2, [0x24DC]); (0x24C3, [0x24DD]);
   (0x24C4, [0x24DE]); (0x24C5, [0x24DF]); (0x24C6, [0x24E0]); (0x24C7, [0x24E1]);
   (0x24C8, [0x24E2]); (0x24C9, [0x24E3]); (0x24CA, [0x24E4]); (0x24CB, [0x24E5]);
   (0x24CC, [0x24E6]); (0x24CD, [0x24E7]); (0x24CE, [0x24E8]); (0x24CF, [0x24E9]);
   (0x2C00, [0x2C30]); (0x2C01, [0x2C31]); (0x2C02, [0x2C32]); (0x2C03, [0x2C33]);
   (0x2C04, [0x2C34]); (0x2C05, [0x2C35]); (0x2C06, [0x2C36]); (0x2C07, [0x2C37]);
   (0x2C08, [0x2C38]); (0x2C09, [0x2C39]); (0x2C0A, [0x2C3A]); (0x2C0B, [0x2C3B]);
   (0x2C0C, [0x2C3C]); (0x2C0D, [0x2C3D]); (0x2C0E, [0x2C3E]); (0x2C0F, [0x2C3F]);
   (0x2C10, [0x2C40]); (0x2C11, [0x2C41]); (0x2C12, [0x2C42]); (0x2C13, [0x2C43]);
   (0x2C14, [0x2C44]); (0x2C15, [0x2C45]); (0x2C16, [0x2C46]); (0x2C17, [0x2C47]);
   (0x2C18, [0x2C48]); (0x2C19, [0x2C49]); (0x2C1A, [0x2C4A]); (0x2C1B, [0x2C4B]);
   (0x2C1C, [0x2C4C]); (0x2C1D, [0x2C4D]); (0x2C1E, [0x2C4E]); (0x2C1F, [0x2C4F]);
   (0x2C20, [0x2C50]); (0x2C21, [0x2C51]); (0x2C22, [0x2C52]); (0x2C23, [0x2C53]);
   (0x2C24, [0x2C54]); (0x2C25, [0x2C55]); (0x2C26, [0x2C56]); (0x2C27, [0x2C57]);
   (0x2C28, [0x2C58]); (0x2C29, [0x2C59]); (0x2C2A, [0x2C5A]); (0x2C2B, [0x2C5B]);
   (0x2C2C, [0x2C5C]); (0x2C2D, [0x2C5D]); (0x2C2E, [0x2C5E]); (0x2C2F, [0x2C5F]);
   (0x2C60, [0x2C61]); (0x2C62, [0x26B]); (0x2C63, [0x1D7D]); (0x2C64, [0x27D]);
   (0x2C67, [0x2C68]); (0x2C69, [0x2C6A]); (0x2C6B, [0x2C6C]); (0x2C6D, [0x251]);
   (0x2C6E, [0x271]); (0x2C6F, [0x250]); (0x2C70, [0x252]); (0x2C72, [0x2C73]);
   (0x2C75, [0x2C76]); (0x2C7E, [0x23F]); (0x2C7F, [0x240]); (0x2C80, [0x2C81]);
   (0x2C82, [0x2C83]); (0x2C84, [0x2C85]); (0x2C86, [0x2C87]); (0x2C88, [0x2C89]);
   (0x2C8A, [0x2C8B]); (0x2C8C, [0x2C8D]); (0x2C8E, [0x2C8F]); (0x2C90, [0x2C91]);
   (0x2C92, [0x2C93]); (0x2C94, [0x2C95]); (0x2C96, [0x2C97]); (0x2C98, [0x2C99]);
   (0x2C9A, [0x2C9B]); (0x2C9C, [0x2C9D]); (0x2C9E, [0x2C9F]); (0x2CA0, [0x2CA1]);
   (0x2CA2, [0x2CA3]); (0x2CA4, [0x2CA5]); (0x2CA6, [0x2CA7]); (0x2CA8, [0x2CA9]);
   (0x2CAA, [0x2CAB]); (0x2CAC, [0x2CAD]); (0x2CAE, [0x2CAF]); (0x2CB0, [0x2CB1]);
   (0x2CB2, [0x2CB3]); (0x2CB4, [0x2CB5]); (0x2CB6, [0x2CB7]); (0x2CB8, [0x2CB9]);
   (0x2CBA, [0x2CBB]); (0x2CBC, [0x2CBD]); (0x2CBE, [0x2CBF]); (0x2CC0, [0x2CC1]);
   (0x2CC2, [0x2CC3]); (0x2CC4, [0x2CC5]); (0x2CC6, [0x2CC7]); (0x2CC8, [0x2CC9]);
   (0x2CCA, [0x2CCB]); (0x2CCC, [0x2CCD]); (0x2CCE, [0x2CCF]); (0x2CD0, [0x2CD1]);
   (0x2CD2, [0x2CD3]); (0x2CD4, [0x2CD5]); (0x2CD6, [0x2CD7]); (0x2CD8, [0x2CD9]);
   (0x2CDA, [0x2CDB]); (0x2CDC, [0x2CDD]); (0x2CDE, [0x2CDF]); (0x2CE0, [0x2CE1]);
   (0x2CE2, [0x2CE3]); (0x2CEB, [0x2CEC]); (0x2CED, [0x2CEE]); (0x2CF2, [0x2CF3]);
   (0xA640, [0xA641]); (0xA642, [0xA643]); (0xA644, [0xA645]); (0xA646, [0xA647]);
   (0xA648, [0xA649]); (0xA64A, [0xA64B]); (0xA64C, [0xA64D]); (0xA64E, [0xA64F]);
   (0xA650, [0xA651]); (0xA652, [0xA653]); (0xA654, [0xA655]); (0xA656, [0xA657]);
   (0xA658, [0xA659]); (0xA65A, [0xA65B]); (0xA65C, [0xA65D]); (0xA65E, [0xA65F]);
   (0xA660, [0xA661]); (0xA662, [0xA663]); (0xA664, [0xA665]); (0xA666, [0xA667]);
   (0xA668, [0xA669]); (0xA66A, [0xA66B]); (0xA66C, [0xA66D]); (0xA680, [0xA681]);
   (0xA682, [0xA683]); (0xA684, [0xA685]); (0xA686, [0xA687]); (0xA688, [0xA689]);
   (0xA68A, [0xA68B]); (0xA68C, [0xA68D]); (0xA68E, [0xA68F]); (0xA690, [0xA691]);
   (0xA692, [0xA693]); (0xA694, [0xA695]); (0xA696, [0xA697]); (0xA698, [0xA699]);
   (0xA69A, [0xA69B]); (0xA722, [0xA723]); (0xA724, [0xA725]); (0xA726, [0xA727]);
   (0xA728, [0xA729]); (0xA72A, [0xA72B]); (0xA72C, [0xA72D]); (0xA72E, [0xA72F]);
   (0xA732, [0xA733]); (0xA734, [0xA735]); (0xA736, [0xA737]); (0xA738, [0xA739]);
   (0xA73A, [0xA73B]); (0xA73C, [0xA73D]); (0xA73E, [0xA73F]); (0xA740, [0xA741]);
   (0xA742, [0xA743]); (0xA744, [0xA745]); (0xA746, [0xA747]); (0xA748, [0xA749]);
   (0xA74A, [0xA74B]); (0xA74C, [0xA74D]); (0xA74E, [0xA74F]); (0xA750, [0xA751]);
   (0xA752, [0xA753]); (0xA754, [0xA755]); (0xA756, [0xA757]); (0xA758, [0xA759]);
   (0xA75A, [0xA75B]); (0xA75C, [0xA75D]); (0xA75E, [0xA75F]); (0xA760, [0xA761]);
   (0xA762, [0xA763]); (0xA764, [0xA765]); (0xA766, [0xA767]); (0xA768, [0xA769]);
   (0xA76A, [0xA76B]); (0xA76C, [0xA76D]); (0xA76E, [0xA76F]); (0xA779, [0xA77A]);
   (0xA77B, [0xA77C]); (0xA77D, [0x1D79]); (0xA77E, [0xA77F]); (0xA780, [0xA781]);
   (0xA782, [0xA783]); (0xA784, [0xA785]); (0xA786, [0xA787]); (0xA78B, [0xA78C]);
   (0xA78D, [0x265]); (0xA790, [0xA791]); (0xA792, [0xA793]); (0xA796, [0xA797]);
   (0xA798, [0xA799]); (0xA79A, [0xA79B]); (0xA79C, [0xA79D]); (0xA79E, [0xA79F]);
   (0xA7A0, [0xA7A1]); (0xA7A2, [0xA7A3]); (0xA7A4, [0xA7A5]); (0xA7A6, [0xA7A7]);
   (0xA7A8, [0xA7A9]); (0xA7AA, [0x266]); (0xA7AB, [0x25C]); (0xA7AC, [0x261]);
   (0xA7AD, [0x26C]); (0xA7AE, [0x26A]); (0xA7B0, [0x29E]); (0xA7B1, [0x287]);
   (0xA7B2, [0x29D]); (0xA7B3, [0xAB53]); (0xA7B4, [0xA7B5]); (0xA7B6, [0xA7B7]);
   (0xA7B8, [0xA7B9]); (0xA7BA, [0xA7BB]); (0xA7BC, [0xA7BD]); (0xA7BE, [0xA7BF]);
   (0xA7C0, [0xA7C1]); (0xA7C2, [0xA7C3]); (0xA7C4, [0xA794]); (0xA7C5, [0x282]);
   (0xA7C6, [0x1D8E]); (0xA7C7, [0xA7C8]); (0xA7C9, [0xA7CA]); (0xA7D0, [0xA7D1]);
   (0xA7D6, [0xA7D7]); (0xA7D8, [0xA7D9]); (0xA7F5, [0xA7F6]); (0xAB70, [0x13A0]);
   (0xAB71, [0x13A1]); (0xAB72, [0x13A2]); (0xAB73, [0x13A3]); (0xAB74, [0x13A4]);
   (0xAB75, [0x13A5]); (0xAB76, [0x13A6]); (0xAB77, [0x13A7]); (0xAB78, [0x13A8]);
   (0xAB79, [0x13A9]); (0xAB7A, [0x13AA]); (0xAB7B, [0x13AB]); (0xAB7C, [0x13AC]);
   (0xAB7D, [0x13AD]); (0xAB7E, [0x13AE]); (0xAB7F, [0x13AF]); (0xAB80, [0x13B0]);
   (0xAB81, [0x13B1]); (0xAB82, [0x13B2]); (0xAB83, [0x13B3]); (0xAB84, [0x13B4]);
   (0xAB85, [0x13B5]); (0xAB86, [0x13B6]); (0xAB87, [0x13B7]); (0xAB88, [0x13B8]);
   (0xAB89, [0x13B9]); (0xAB8A, [0x13BA]); (0xAB8B, [0x13BB]); (0xAB8C, [0x13BC]);
   (0xAB8D, [0x13BD]); (0xAB8E, [0x13BE]); (0xAB8F, [0x13BF]); (0xAB90, [0x13C0]);
   (0xAB91, [0x13C1]); (0xAB92, [0x13C2]); (0xAB93, [0x13C3]); (0xAB94, [0x13C4]);
   (0xAB95, [0x13C5]); (0xAB96, [0x13C6]); (0xAB97, [0x13C7]); (0xAB98, [0x13C8]);
   (0xAB99, [0x13C9]); (0xAB9A, [0x13CA]); (0xAB9B, [0x13CB]); (0xAB9C, [0x13CC]);
   (0xAB9D, [0x13CD]); (0xAB9E, [0x13CE]); (0xAB9F, [0x13CF]); (0xABA0, [0x13D0]);
   (0xABA1, [0x13D1]); (0xABA2, [0x13D2]); (0xABA3, [0x13D3]); (0xABA4, [0x13D4]);
   (0xABA5, [0x13D5]); (0xABA6, [0x13D6]); (0xABA7, [0x13D7]); (0xABA8, [0x13D8]);
   (0xABA9, [0x13D9]); (0xABAA, [0x13DA]); (0xABAB, [0x13DB]); (0xABAC, [0x13DC]);
   (0xABAD, [0x13DD]); (0xABAE, [0x13DE]); (0xABAF, [0x13DF]); (0xABB0, [0x13E0]);
   (0xABB1, [0x13E1]); (0xABB2, [0x13E2]); (0xABB3, [0x13E3]); (0xABB4, [0x13E4]);
   (0xABB5, [0x13E5]); (0xABB6, [0x13E6]); (0xABB7, [0x13E7]); (0xABB8, [0x13E8]);
   (0xABB9, [0x13E9]); (0xABBA, [0x13EA]); (0xABBB, [0x13EB]); (0xABBC, [0x13EC]);
   (0xABBD, [0x13ED]); (0xABBE, [0x13EE]); (0xABBF, [0x13EF]); (0xFB00, [0x66; 0x66]);
   (0xFB01, [0x66; 0x69]); (0xFB02, [0x66; 0x6C]); (0xFB03, [0x66; 0x66; 0x69]);
   (0xFB04, [0x66; 0x66; 0x6C]); (0xFB05, [0x73; 0x74]); (0xFB06, [0x73; 0x74]);
   (0xFB13, [0x574; 0x576]); (0xFB14, [0x574; 0x565]); (0xFB15, [0x574; 0x56B]);
   (0xFB16, [0x57E; 0x576]); (0xFB17, [0x574; 0x56D]); (0xFF21, [0xFF41]);
   (0xFF22, [0xFF42]); (0xFF23, [0xFF43]); (0xFF24, [0xFF44]); (0xFF25, [0xFF45]);
   (0xFF26, [0xFF46]); (0xFF27, [0xFF47]); (0xFF28, [0xFF48]); (0xFF29, [0xFF49]);
   (0xFF2A, [0xFF4A]); (0xFF2B, [0xFF4B]); (0xFF2C, [0xFF4C]); (0xFF2D, [0xFF4D]);
   (0xFF2E, [0xFF4E]); (0xFF2F, [0xFF4F]); (0xFF30, [0xFF50]); (0xFF31, [0xFF51]);
   (0xFF32, [0xFF52]); (0xFF33, [0xFF53]); (0xFF34, [0xFF54]); (0xFF35, [0xFF55]);
   (0xFF36, [0xFF56]); (0xFF37, [0xFF57]); (0xFF38, [0xFF58]); (0xFF39, [0xFF59]);
   (0xFF3A, [0xFF5A]); (0x10400, [0x10428]); (0x10401, [0x10429]); (0x10402, [0x1042A]);
   (0x10403, [0x1042B]); (0x10404, [0x1042C]); (0x10405, [0x1042D]); (0x10406, [0x1042E]);
   (0x10407, [0x1042F]); (0x10408, [0x10430]); (0x10409, [0x10431]); (0x1040A, [0x10432]);
   (0x1040B, [0x10433]); (0x1040C, [0x10434]); (0x1040D, [0x10435]); (0x1040E, [0x10436]);
   (0x1040F, [0x10437]); (0x10410, [0x10438]); (0x10411, [0x10439]); (0x10412, [0x1043A]);
   (0x10413, [0x1043B]); (0x10414, [0x1043C]); (0x10415, [0x1043D]); (0x10416, [0x1043E]);
   (0x10417, [0x1043F]); (0x10418, [0x10440]); (0x10419, [0x10441]); (0x1041A, [0x10442]);
   (0x1041B, [0x10443]); (0x1041C, [0x10444]); (0x1041D, [0x10445]); (0x1041E, [0x10446]);
   (0x1041F, [0x10447]); (0x10420, [0x10448]); (0x10421, [0x10449]); (0x10422, [0x1044A]);
   (0x10423, [0x1044B]); (0x10424, [0x1044C]); (0x10425, [0x1044D]); (0x10426, [0x1044E]);
   (0x10427, [0x1044F]); (0x104B0, [0x104D8]); (0x104B1, [0x104D9]); (0x104B2, [0x104DA]);
   (0x104B3, [0x104DB]); (0x104B4, [0x104DC]); (0x104B5, [0x104DD]); (0x104B6, [0x104DE]);
   (0x104B7, [0x104DF]); (0x104B8, [0x104E0]); (0x104B9, [0x104E1]); (0x104BA, [0x104E2]);
   (0x104BB, [0x104E3]); (0x104BC, [0x104E4]); (0x104BD, [0x104E5]); (0x104BE, [0x104E6]);
   (0x104BF, [0x104E7]); (0x104C0, [0x104E8]); (0x104C1, [0x104E9]); (0x104C2, [0x104EA]);
   (0x104C3, [0x104EB]); (0x104C4, [0x104EC]); (0x104C5, [0x104ED]); (0x104C6, [0x104EE]);
   (0x104C7, [0x104EF]); (0x104C8, [0x104F0]); (0x104C9, [0x104F1]); (0x104CA, [0x104F2]);
   (0x104CB, [0x104F3]); (0x104CC, [0x104F4]); (0x104CD, [0x104F5]); (0x104CE, [0x104F6]);
   (0x104CF, [0x104F7]); (0x104D0, [0x104F8]); (0x104D1, [0x104F9]); (0x104D2, [0x104FA]);
   (0x104D3, [0x104FB]); (0x10570, [0x10597]); (0x10571, [0x10598]); (0x10572, [0x10599]);
   (0x10573, [0x1059A]); (0x10574, [0x1059B]); (0x10575, [0x1059C]); (0x10576, [0x1059D]);
   (0x10577, [0x1059E]); (0x10578, [0x1059F]); (0x10579, [0x105A0]); (0x1057A, [0x105A1]);
   (0x1057C, [0x105A3]); (0x1057D, [0x105A4]); (0x1057E, [0x105A5]); (0x1057F, [0x105A6]);
   (0x10580, [0x105A7]); (0x10581, [0x105A8]); (0x10582, [0x105A9]); (0x10583, [0x105AA]);
   (0x10584, [0x105AB]); (0x10585, [0x105AC]); (0x10586, [0x105AD]); (0x10587, [0x105AE]);
   (0x10588, [0x105AF]); (0x10589, [0x105B0]); (0x1058A, [0x105B1]); (0x1058C, [0x105B3]);
   (0x1058D, [0x105B4]); (0x1058E, [0x105B5]); (0x1058F, [0x105B6]); (0x10590, [0x105B7]);
   (0x10591, [0x105B8]); (0x10592, [0x105B9]); (0x10594, [0x105BB]); (0x10595, [0x105BC]);
   (0x10C80, [0x10CC0]); (0x10C81, [0x10CC1]); (0x10C82, [0x10CC2]); (0x10C83, [0x10CC3]);
   (0x10C84, [0x10CC4]); (0x10C85, [0x10CC5]); (0x10C86, [0x10CC6]); (0x10C87, [0x10CC7]);
   (0x10C88, [0x10CC8]); (0x10C89, [0x10CC9]); (0x10C8A, [0x10CCA]); (0x10C8B, [0x10CCB]);
   (0x10C8C, [0x10CCC]); (0x10C8D, [0x10CCD]); (0x10C8E, [0x10CCE]); (0x10C8F, [0x10CCF]);
   (0x10C90, [0x10CD0]); (0x10C91, [0x10CD1]); (0x10C92, [0x10CD2]); (0x10C93, [0x10CD3]);
   (0x10C94, [0x10CD4]); (0x10C95, [0x10CD5]); (0x10C96, [0x10CD6]); (0x10C97, [0x10CD7]);
   (0x10C98, [0x10CD8]); (0x10C99, [0x10CD9]); (0x10C9A, [0x10CDA]); (0x10C9B, [0x10CDB]);
   (0x10C9C, [0x10CDC]); (0x10C9D, [0x10CDD]); (0x10C9E, [0x10CDE]); (0x10C9F, [0x10CDF]);
   (0x10CA0, [0x10CE0]); (0x10CA1, [0x10CE1]); (0x10CA2, [0x10CE2]); (0x10CA3, [0x10CE3]);
   (0x10CA4, [0x10CE4]); (0x10CA5, [0x10CE5]); (0x10CA6, [0x10CE6]); (0x10CA7, [0x10CE7]);
   (0x10CA8, [0x10CE8]); (0x10CA9, [0x10CE9]); (0x10CAA, [0x10CEA]); (0x10CAB, [0x10CEB]);
   (0x10CAC, [0x10CEC]); (0x10CAD, [0x10CED]); (0x10CAE, [0x10CEE]); (0x10CAF, [0x10CEF]);
   (0x10CB0, [0x10CF0]); (0x10CB1, [0x10CF1]); (0x10CB2, [0x10CF2]); (0x118A0, [0x118C0]);
   (0x118A1, [0x118C1]); (0x118A2, [0x118C2]); (0x118A3, [0x118C3]); (0x118A4, [0x118C4]);
   (0x118A5, [0x118C5]); (0x118A6, [0x118C6]); (0x118A7, [0x118C7]); (0x118A8, [0x118C8]);
   (0x118A9, [0x118C9]); (0x118AA, [0x118CA]); (0x118AB, [0x118CB]); (0x118AC, [0x118CC]);
   (0x118AD, [0x118CD]); (0x118AE, [0x118CE]); (0x118AF, [0x118CF]); (0x118B0, [0x118D0]);
   (0x118B1, [0x118D1]); (0x118B2, [0x118D2]); (0x118B3, [0x118D3]); (0x118B4, [0x118D4]);
   (0x118B5, [0x118D5]); (0x118B6, [0x118D6]); (0x118B7, [0x118D7]); (0x118B8, [0x118D8]);
   (0x118B9, [0x118D9]); (0x118BA, [0x118DA]); (0x118BB, [0x118DB]); (0x118BC, [0x118DC]);
   (0x118BD, [0x118DD]); (0x118BE, [0x118DE]); (0x118BF, [0x118DF]); (0x16E40, [0x16E60]);
   (0x16E41, [0x16E61]); (0x16E42, [0x16E62]); (0x16E43, [0x16E63]); (0x16E44, [0x16E64]);
   (0x16E45, [0x16E65]); (0x16E46, [0x16E66]); (0x16E47, [0x16E67]); (0x16E48, [0x16E68]);
   (0x16E49, [0x16E69]); (0x16E4A, [0x16E6A]); (0x16E4B, [0x16E6B]); (0x16E4C, [0x16E6C]);
   (0x16E4D, [0x16E6D]); (0x16E4E, [0x16E6E]); (0x16E4F, [0x16E6F]); (0x16E50, [0x16E70]);
   (0x16E51, [0x16E71]); (0x16E52, [0x16E72]); (0x16E53, [0x16E73]); (0x16E54, [0x16E74]);
   (0x16E55, [0x16E75]); (0x16E56, [0x16E76]); (0x16E57, [0x16E77]); (0x16E58, [0x16E78]);
   (0x16E59, [0x16E79]); (0x16E5A, [0x16E7A]); (0x16E5B, [0x16E7B]); (0x16E5C, [0x16E7C]);
   (0x16E5D, [0x16E7D]); (0x16E5E, [0x16E7E]); (0x16E5F, [0x16E7F]); (0x1E900, [0x1E922]);
   (0x1E901, [0x1E923]); (0x1E902, [0x1E924]); (0x1E903, [0x1E925]); (0x1E904, [0x1E926]);
   (0x1E905, [0x1E927]); (0x1E906, [0x1E928]); (0x1E907, [0x1E929]); (0x1E908, [0x1E92A]);
   (0x1E909, [0x1E92B]); (0x1E90A, [0x1E92C]); (0x1E90B, [0x1E92D]); (0x1E90C, [0x1E92E]);
   (0x1E90D, [0x1E92F]); (0x1E90E, [0x1E930]); (0x1E90F, [0x1E931]); (0x1E910, [0x1E932]);
   (0x1E911, [0x1E933]); (0x1E912, [0x1E934]); (0x1E913, [0x1E935]); (0x1E914, [0x1E936]);
   (0x1E915, [0x1E937]); (0x1E916, [0x1E938]); (0x1E917, [0x1E939]); (0x1E918, [0x1E93A]);
   (0x1E919, [0x1E93B]); (0x1E91A, [0x1E93C]); (0x1E91B, [0x1E93D]); (0x1E91C, [0x1E93E]);
   (0x1E91D, [0x1E93F]); (0x1E91E, [0x1E940]); (0x1E91F, [0x1E941]); (0x1E920, [0x1E942]);
   (0x1E921, [0x1E943])]
.
Local Close Scope N_scope.

Fixpoint casefold_lookup (c : N) (table : list (N * list N)) : option (list N) :=
  match table with
  | [] => None
  | (c', f) :: table' => if (c =? c')%N then Some f else casefold_lookup c table'
  end.

(** The folding of a code point, [None] when it folds to itself. *)
Definition casefold_point (c : N) : option (list N) :=
  if (c <? 128)%N
  then (if (65 <=? c)%N && (c <=? 90)%N then Some [(c + 32)%N] else None)
  else casefold_lookup c casefold_table.

(** [casefold_from s skip] folds [s] after its first [skip] bytes, which
    belong to a code point already folded.  A byte that starts no UTF-8
    sequence is copied. *)
Fixpoint casefold_from (s : string) (skip : nat) : string :=
  match s with
  | EmptyString => EmptyString
  | String b s' =>
      match skip with
      | S skip' => casefold_from s' skip'
      | 0 =>
          match decode_point s with
          | None => String b (casefold_from s' 0)
          | Some (c, len) =>
              match casefold_point c with
              | None => String.substring 0 len s
              | Some f => String.concat EmptyString (encode_point <$> f)
              end +:+ casefold_from s' (len - 1)
          end
      end
  end.

Definition casefold (s : string) : string := casefold_from s 0.

(** The table lists every code point once. *)
Example casefold_table_ascending :
  length casefold_table = 1504 ∧ Sorted N.lt casefold_table.*1.
Proof.
  split; [reflexivity|].
  apply (bool_decide_eq_true_1 (Sorted N.lt casefold_table.*1)). vm_compute. reflexivity.
Qed.

Example casefold_examples :
  casefold "Axe2" = "axe2" ∧ casefold "É" = "é" ∧ casefold "é" = "é"
  ∧ casefold "Straße" = "strasse" ∧ casefold "ΣΊΣΥΦΟΣ" = "σίσυφοσ"
  ∧ casefold "ﬃ𐐀 √" = "ffi𐐨 √".
Proof. vm_compute. repeat split. Qed.

Definition join (sep : string) (l : list string) : string := String.concat sep l.

Definition quote1 : ascii := ascii_of_nat 39.
Definition quote2 : ascii := ascii_of_nat 34.
Definition backslash : ascii := ascii_of_nat 92.
Definition str1 (c : ascii) : string := String c EmptyString.
Definition nl : string := str1 (ascii_of_nat 10).

Fixpoint contains_char (c : ascii) (s : string) : bool :=
  match s with
  | EmptyString => false
  | String d s' => if Ascii.eqb c d then true else contains_char c s'
  end.

Definition hex_digit (n : nat) : ascii :=
  if (n <? 10)%nat then ascii_of_nat (48 + n) else ascii_of_nat (87 + n).

Definition repr_char (q c : ascii) : string :=
  let n := nat_of_ascii c in
  if Ascii.eqb c q || Ascii.eqb c backslash then String backslash (str1 c)
  else if (n =? 9)%nat then String backslash "t"
  else if (n =? 10)%nat then String backslash "n"
  else if (n =? 13)%nat then String backslash "r"
  else if (n <? 32)%nat || (n =? 127)%nat
       then String backslash (String "x" (String (hex_digit (n / 16)) (str1 (hex_digit (n mod 16)))))
  else str1 c.

Fixpoint repr_body (q : ascii) (s : string) : string :=
  match s with
  | EmptyString => EmptyString
  | String c s' => repr_char q c +:+ repr_body q s'
  end.

(** [repr(s)] for a [str]: single quotes unless the text has a single quote
    and no double quote. *)
Definition repr (s : string) : string :=
  let q := if contains_char quote1 s && negb (contains_char quote2 s)
           then quote2 else quote1 in
  String q (repr_body q s +:+ str1 q).

(** [str(l)] for a list of [str]. *)
Definition repr_list (l : list string) : string :=
  "[" +:+ join ", " (repr <$> l) +:+ "]".

Definition message (e : exn) : string :=
  match e with
  | MissingFile path => "Could not find: " +:+ path
  | UnicodeDecodeError msg | JSONDecodeError msg => msg
  | DuplicateKey file uniq =>
      "Duplicate JSON keys found in " +:+ file +:+ ": " +:+ join ", " (repr <$> uniq)
  | ShapeTopLevel file => file +:+ " must be a JSON object (dict) at top level."
  | ShapeValue of_bins file key =>
      file +:+ ": values must be list[str]" +:+ (if of_bins then " of bins" else EmptyString)
        +:+ ". Bad value for " +:+ repr key +:+ "."
  | InvalidBin bin_id =>
      "Invalid bin id: " +:+ repr bin_id +:+ " (expected like 'A1' or 'X2')"
  | SubstringNotFound => "substring not found"
  | OutOfRangeError b =>
      "[ERROR] Layout bin " +:+ repr b +:+ " is outside the generated range (A1..X2)."
  | CapacityError n capacity bins =>
      "Not enough capacity: " +:+ pretty n +:+ " items but only " +:+ pretty capacity
        +:+ " slots across bins " +:+ repr_list bins +:+ "."
  | KeyError key => repr key
  end.

(** ** [sorted(xs, key=k)]

    Python's sort is stable and compares keys with [<] only.  The model is the
    stable insertion sort: an element is moved past the elements whose key is
    strictly smaller, so elements with equal keys keep their input order. *)

Section Sorted.
Context {A : Type} (key : A → string).

Fixpoint insert_by (x : A) (l : list A) : list A :=
  match l with
  | [] => [x]
  | y :: l' => if String.ltb (key y) (key x) then y :: insert_by x l' else x :: l
  end.

Definition sorted (l : list A) : list A := foldr insert_by [] l.
End Sorted.

(** ** Packer *)

(** [{k: f(k) for k in keys}] for a dict that is only subscripted. *)
Definition dict_comp {V : Type} (f : string → V) (keys : list string) : gmap string V :=
  foldl (λ m k, <[k := f k]> m) ∅ keys.

(** The loop of [fill_bins_for_category]: [i] is the running offset, the
    [break] is the [then] branch. *)
Fixpoint fill_loop (items_sorted : list string) (i : nat) (bins : list string)
    (out : gmap string (list string)) : gmap string (list string) :=
  match bins with
  | [] => out
  | b :: rest =>
      let out := <[b := take BIN_CAPACITY (drop i items_sorted)]> out in
      let i := i + BIN_CAPACITY in
      if decide (length items_sorted ≤ i) then out
      else fill_loop items_sorted i rest out
  end.

Definition fill_bins_for_category (items bins : list string)
    : exn + gmap string (list string) :=
  let items_sorted := sorted casefold items in
  let capacity := length bins * BIN_CAPACITY in
  if decide (capacity < length items_sorted)
  then inl (CapacityError (length items_sorted) capacity bins)
  else inr (fill_loop items_sorted 0 bins (dict_comp (λ _, []) bins)).

Example fill_example_1 :
  fill_bins_for_category ["axe2"; "Axe"] ["A1"] = inr {[ "A1" := ["Axe"; "axe2"] ]}.
Proof. vm_compute. reflexivity. Qed.

(** Names with the same case-folded form stay in input order, outside ASCII
    as well. *)
Example fill_example_unicode :
  fill_bins_for_category ["é"; "É"] ["A1"] = inr {[ "A1" := ["é"; "É"] ]}
  ∧ fill_bins_for_category ["É"; "é"] ["A1"] = inr {[ "A1" := ["É"; "é"] ]}
  ∧ fill_bins_for_category ["Straße"; "STRASSE"; "strasse"] ["A1"]
    = inr {[ "A1" := ["Straße"; "STRASSE"; "strasse"] ]}.
Proof. vm_compute. repeat split. Qed.

Example message_example_2 :
  message (CapacityError 10 9 ["A1"])
  = "Not enough capacity: 10 items but only 9 slots across bins ['A1'].".
Proof. vm_compute. reflexivity. Qed.

(** ** Ordered dictionaries

    A Python [dict] keeps its keys in insertion order; assigning to a key that
    is present replaces the value in place, assigning to a new key appends. *)

Section Dict.
Context {V : Type}.

Fixpoint dict_get (k : string) (d : list (string * V)) : option V :=
  match d with
  | [] => None
  | (k', v) :: d' => if decide (k = k') then Some v else dict_get k d'
  end.

Fixpoint dict_set (k : string) (v : V) (d : list (string * V)) : list (string * V) :=
  match d with
  | [] => [(k, v)]
  | (k', v') :: d' =>
      if decide (k = k') then (k, v) :: d' else (k', v') :: dict_set k v d'
  end.
End Dict.

(** ** Mapping loader *)

(** The syntax tree of a well-formed JSON text, members in document order.
    Numbers are kept as their literal. *)
Inductive json : Type :=
| JNull
| JBool (b : bool)
| JNumber (literal : string)
| JString (s : string)
| JArray (elems : list json)
| JObject (members : list (string * json)).

(** The Python value [json.loads] builds. *)
Inductive pyval : Type :=
| PNone
| PBool (b : bool)
| PNumber (literal : string)
| PStr (s : string)
| PList (elems : list pyval)
| PDict (entries : list (string * pyval)).

(** One iteration of [for k, v in pairs]; the state is [(obj, seen, dupes)]. *)
Definition hook_step (st : list (string * pyval) * gset string * list string)
    (kv : string * pyval) : list (string * pyval) * gset string * list string :=
  let '(obj, seen, dupes) := st in
  let dupes := if decide (kv.1 ∈ seen) then dupes ++ [kv.1] else dupes in
  (dict_set kv.1 kv.2 obj, {[ kv.1 ]} ∪ seen, dupes).

(** [for d in dupes: if d not in uniq: uniq.append(d)] *)
Definition uniq_of (dupes : list string) : list string :=
  foldl (λ uniq d, if decide (d ∈ uniq) then uniq else uniq ++ [d]) [] dupes.

Definition no_dupes_object_pairs_hook (file : string) (pairs : list (string * pyval))
    : exn + pyval :=
  let '(obj, _, dupes) := foldl hook_step ([], ∅, []) pairs in
  match dupes with
  | [] => inr (PDict obj)
  | _ :: _ => inl (DuplicateKey file (uniq_of dupes))
  end.

(** [json.loads(raw, object_pairs_hook=...)]: values are built left to right
    and the hook is called on every object, nested ones included, when the
    object is complete; the first exception ends the parse. *)
Fixpoint loads (file : string) (j : json) : exn + pyval :=
  match j with
  | JNull => inr PNone
  | JBool b => inr (PBool b)
  | JNumber n => inr (PNumber n)
  | JString s => inr (PStr s)
  | JArray elems =>
      vs ← (fix go (l : list json) : exn + list pyval :=
              match l with
              | [] => inr []
              | x :: r => v ← loads file x; vs ← go r; inr (v :: vs)
              end) elems;
      inr (PList vs)
  | JObject members =>
      pairs ← (fix go (l : list (string * json)) : exn + list (string * pyval) :=
                 match l with
                 | [] => inr []
                 | (k, x) :: r => v ← loads file x; vs ← go r; inr ((k, v) :: vs)
                 end) members;
      no_dupes_object_pairs_hook file pairs
  end.

(** What a file holds: bytes that are not UTF-8 ([read_text] raises), a text
    that [json.loads] rejects, or a JSON text.  The parser reads a text from
    left to right and calls the hook on every object it completes, so a
    rejected text comes with the values the parser completed before it gave
    up, in the order of the text, and with the parser's message. *)
Inductive content : Type :=
| NotUtf8 (msg : string)
| Malformed (parsed : list json) (msg : string)
| Json (j : json).

(** A document is [None] when the file does not exist; the exception then
    carries the file name (the source prints the resolved path).  On a
    rejected text an exception of the hook comes before the parser's. *)
Definition load_json_no_dupe_keys (file : string) (doc : option content) : exn + pyval :=
  match doc with
  | None => inl (MissingFile file)
  | Some (NotUtf8 msg) => inl (UnicodeDecodeError msg)
  | Some (Malformed parsed msg) =>
      loads file (JArray parsed);; inl (JSONDecodeError msg)
  | Some (Json j) => loads file j
  end.

Definition as_list_of_str (v : pyval) : option (list string) :=
  match v with
  | PList elems => mapM (λ x, match x with PStr s => Some s | _ => None end) elems
  | _ => None
  end.

(** [for k, v in data.items()]: JSON keys are always [str], so only the value
    test can fail. *)
Fixpoint check_values (of_bins : bool) (file : string) (entries : list (string * pyval))
    : exn + list (string * list string) :=
  match entries with
  | [] => inr []
  | (k, v) :: rest =>
      match as_list_of_str v with
      | None => inl (ShapeValue of_bins file k)
      | Some l => d ← check_values of_bins file rest; inr ((k, l) :: d)
      end
  end.

Definition load_mapping (of_bins : bool) (file : string) (doc : option content)
    : exn + list (string * list string) :=
  data ← load_json_no_dupe_keys file doc;
  match data with
  | PDict entries => check_values of_bins file entries
  | _ => inl (ShapeTopLevel file)
  end.

Definition load_categories := load_mapping false.
Definition load_layout := load_mapping true.

Example load_example :
  load_categories CATEGORIES_JSON
    (Some (Json (JObject [("Tools", JArray [JString "Axe"; JString "axe2"])])))
  = inr [("Tools", ["Axe"; "axe2"])].
Proof. vm_compute. reflexivity. Qed.

(** ** Consistency validator *)

(** A validator either returns or prints its report and calls [sys.exit]. *)
Inductive validation : Type :=
| Passed
| Exited (code : nat) (printed : list string).

(** [a - b] on the key sets.  The iteration order of a Python set is not
    specified; the model lists the members in dict order, and the statements
    below rely on membership only. *)
Definition set_difference (a b : list string) : list string :=
  list_difference (remove_dups a) b.

Definition bullet (c : string) : string := "  - " +:+ c.

Definition mismatch_report (only_in_categories only_in_layout : list string)
    : list string :=
  [nl +:+ "[ERROR] Category mismatch between JSON files." +:+ nl]
  ++ (match only_in_categories with
      | [] => []
      | _ :: _ =>
          ["Present in " +:+ CATEGORIES_JSON +:+ " but missing in " +:+ LAYOUT_JSON +:+ ":"]
          ++ (bullet <$> only_in_categories) ++ [EmptyString]
      end)
  ++ (match only_in_layout with
      | [] => []
      | _ :: _ =>
          ["Present in " +:+ LAYOUT_JSON +:+ " but missing in " +:+ CATEGORIES_JSON +:+ ":"]
          ++ (bullet <$> only_in_layout) ++ [EmptyString]
      end).

Definition validate_same_categories (categories layout : list (string * list string))
    : validation :=
  let cat_set := categories.*1 in
  let layout_set := layout.*1 in
  let only_in_categories := sorted casefold (set_difference cat_set layout_set) in
  let only_in_layout := sorted casefold (set_difference layout_set cat_set) in
  match only_in_categories, only_in_layout with
  | [], [] => Passed
  | _, _ => Exited 2 (mismatch_report only_in_categories only_in_layout)
  end.

(** The inner loop over one category's bins; the state is [(seen, dupes)]. *)
Definition dupes_step (st : gset string * list string) (b : string)
    : gset string * list string :=
  let '(seen, dupes) := st in
  ({[ b ]} ∪ seen, if decide (b ∈ seen ∧ b ∉ dupes) then dupes ++ [b] else dupes).

Definition dupes_of (bins : list string) : list string :=
  (foldl dupes_step (∅, []) bins).2.

Definition category_dupes (layout : list (string * list string))
    : list (string * list string) :=
  foldl (λ acc cb,
           match dupes_of cb.2 with
           | [] => acc
           | d :: ds => dict_set cb.1 (d :: ds) acc
           end) [] layout.

(** [bin_to_categories.setdefault(b, []).append(category)] *)
Definition setdefault_append (b category : string) (acc : list (string * list string))
    : list (string * list string) :=
  dict_set b (default [] (dict_get b acc) ++ [category]) acc.

Definition bin_to_categories (layout : list (string * list string))
    : list (string * list string) :=
  foldl (λ acc cb, foldl (λ acc b, setdefault_append b cb.1 acc) acc cb.2) [] layout.

Definition overlaps (layout : list (string * list string))
    : list (string * list string) :=
  filter (λ bc, 1 < length bc.2) (bin_to_categories layout).

Definition report_line (table : list (string * list string)) (k : string) : string :=
  bullet k +:+ ": " +:+ join ", " (sorted casefold (default [] (dict_get k table))).

Definition bins_report (category_dupes overlaps : list (string * list string))
    : list string :=
  [nl +:+ "[ERROR] Invalid bin assignments in category_layout.json." +:+ nl]
  ++ (match category_dupes with
      | [] => []
      | _ :: _ =>
          ["Duplicate bins listed within the same category:"]
          ++ (report_line category_dupes <$> sorted casefold category_dupes.*1)
          ++ [EmptyString]
      end)
  ++ (match overlaps with
      | [] => []
      | _ :: _ =>
          ["Bins assigned to multiple categories:"]
          ++ (report_line overlaps <$> sorted casefold overlaps.*1)
          ++ [EmptyString]
      end).

Definition validate_layout_bins_unique (layout : list (string * list string))
    : validation :=
  match category_dupes layout, overlaps layout with
  | [], [] => Passed
  | cd, ov => Exited 3 (bins_report cd ov)
  end.

(** ** Bin space generator *)

Definition parse_bin (bin_id : string) : exn + (string * nat) :=
  match bin_id with
  | String c0 (String c1 EmptyString) =>
      if contains_char c0 ascii_uppercase && (Ascii.eqb c1 "1" || Ascii.eqb c1 "2")
      then inr (str1 c0, if Ascii.eqb c1 "1" then 1 else 2)
      else inl (InvalidBin bin_id)
  | _ => inl (InvalidBin bin_id)
  end.

(** [s.index(sub)] *)
Definition str_index (sub s : string) : exn + nat :=
  match String.index 0 sub s with
  | Some i => inr i
  | None => inl SubstringNotFound
  end.

Definition generate_all_bins (start_letter end_letter : string) : exn + list string :=
  start_idx ← str_index start_letter ascii_uppercase;
  end_idx ← str_index end_letter ascii_uppercase;
  let letters := String.substring start_idx (end_idx + 1 - start_idx) ascii_uppercase in
  inr (flat_map (λ letter, [String letter "1"; String letter "2"])
         (String.list_ascii_of_string letters)).

(** ** Packer, whole layout *)

Fixpoint assign_bins (category : string) (bins : list string) (m : gmap string string)
    : exn + gmap string string :=
  match bins with
  | [] => inr m
  | b :: rest =>
      match m !! b with
      | None => inl (OutOfRangeError b)
      | Some _ => assign_bins category rest (<[b := category]> m)
      end
  end.

Fixpoint assign_layout (layout : list (string * list string)) (m : gmap string string)
    : exn + gmap string string :=
  match layout with
  | [] => inr m
  | (category, bins) :: rest => m' ← assign_bins category bins m; assign_layout rest m'
  end.

Definition build_bin_to_category (all_bins : list string)
    (layout : list (string * list string)) : exn + gmap string string :=
  assign_layout layout (dict_comp (λ _, "UNUSED") all_bins).

Record bin_record : Type := { category : string; items : list string }.

(** [d[k]] on a dict that is only subscripted. *)
Definition subscript {V : Type} (d : gmap string V) (k : string) : exn + V :=
  match d !! k with
  | Some v => inr v
  | None => inl (KeyError k)
  end.

(** [for b in all_bins: sorter[b] = {...}] *)
Fixpoint prefill (bin_to_category : gmap string string) (all_bins : list string)
    (sorter : gmap string bin_record) : exn + gmap string bin_record :=
  match all_bins with
  | [] => inr sorter
  | b :: rest =>
      c ← subscript bin_to_category b;
      prefill bin_to_category rest (<[b := {| category := c; items := [] |}]> sorter)
  end.

(** [for b in bins: sorter[b]["items"] = filled.get(b, [])] *)
Fixpoint store_items (filled : gmap string (list string)) (bins : list string)
    (sorter : gmap string bin_record) : exn + gmap string bin_record :=
  match bins with
  | [] => inr sorter
  | b :: rest =>
      r ← subscript sorter b;
      store_items filled rest
        (<[b := {| category := category r; items := default [] (filled !! b) |}]> sorter)
  end.

Fixpoint fill_layout (categories layout : list (string * list string))
    (sorter : gmap string bin_record) : exn + gmap string bin_record :=
  match layout with
  | [] => inr sorter
  | (c, bins) :: rest =>
      its ← match dict_get c categories with
            | Some its => inr its
            | None => inl (KeyError c)
            end;
      filled ← fill_bins_for_category its bins;
      sorter' ← store_items filled bins sorter;
      fill_layout categories rest sorter'
  end.

Definition build_full_sorter (categories layout : list (string * list string))
    (all_bins : list string) : exn + gmap string bin_record :=
  bin_to_category ← build_bin_to_category all_bins layout;
  sorter ← prefill bin_to_category all_bins ∅;
  fill_layout categories layout sorter.

(** ** Slot table emitter *)

(** One data row of the CSV file; the fields are the populated columns
    [#, ChestID, Column, Cluster, Number, Categories, Description]. *)
Record row : Type := {
  row_counter : nat;
  row_chest_id : string;
  row_column : string;
  row_cluster : nat;
  row_number : nat;
  row_categories : string;
  row_description : string
}.

(** [items + [""] * (BIN_CAPACITY - len(items))]; a negative count repeats
    nothing, as the truncated subtraction does. *)
Definition pad_items (its : list string) : list string :=
  its ++ replicate (BIN_CAPACITY - length its) EmptyString.

(** The loop over [range(1, BIN_CAPACITY + 1)]; returns the rows and the
    counter after the loop.  The padded list has at least nine entries, so the
    subscript [items[slot_num - 1]] is always in range. *)
Fixpoint write_slots (bin_id col_letter : string) (cluster_num : nat)
    (cat : string) (its : list string) (slots : list nat) (counter : nat)
    : list row * nat :=
  match slots with
  | [] => ([], counter)
  | slot_num :: rest =>
      let r := {| row_counter := counter;
                  row_chest_id := bin_id +:+ "-" +:+ pretty slot_num;
                  row_column := col_letter;
                  row_cluster := cluster_num;
                  row_number := slot_num;
                  row_categories := cat;
                  row_description := nth (slot_num - 1) its EmptyString |} in
      let '(rs, counter') :=
        write_slots bin_id col_letter cluster_num cat its rest (counter + 1) in
      (r :: rs, counter')
  end.

(** The loop over [all_bins].  The rows are returned only when the loop
    completes. *)
Fixpoint write_bins (sorter : gmap string bin_record) (all_bins : list string)
    (counter : nat) : exn + list row :=
  match all_bins with
  | [] => inr []
  | bin_id :: rest =>
      p ← parse_bin bin_id;
      r ← subscript sorter bin_id;
      let '(rs, counter') :=
        write_slots bin_id p.1 p.2 (category r) (pad_items (items r))
          (seq 1 BIN_CAPACITY) counter in
      more ← write_bins sorter rest counter';
      inr (rs ++ more)
  end.

Definition write_exhaustive_chest_csv (sorter : gmap string bin_record)
    (all_bins : list string) : exn + list row :=
  write_bins sorter all_bins 1.

(** ** The whole run

    A run ends in [sys.exit] after a report, in an uncaught exception, or
    after the manifest is written (the final [print] of the output path is
    left out). *)

Inductive outcome : Type :=
| Exit (code : nat) (printed : list string)
| Raise (e : exn)
| Wrote (rows : list row).

(** [main] after the two documents are loaded. *)
Definition run (categories layout : list (string * list string)) : outcome :=
  match validate_same_categories categories layout with
  | Exited code printed => Exit code printed
  | Passed =>
      match validate_layout_bins_unique layout with
      | Exited code printed => Exit code printed
      | Passed =>
          match
            all_bins ← generate_all_bins "A" "X";
            sorter ← build_full_sorter categories layout all_bins;
            write_exhaustive_chest_csv sorter all_bins
          with
          | inl e => Raise e
          | inr rows => Wrote rows
          end
      end
  end.

Definition main (categories_doc layout_doc : option content) : outcome :=
  match load_categories CATEGORIES_JSON categories_doc with
  | inl e => Raise e
  | inr categories =>
      match load_layout LAYOUT_JSON layout_doc with
      | inl e => Raise e
      | inr layout => run categories layout
      end
  end.

(** The address space of the run, [generate_all_bins("A", "X")]. *)
Definition ALL_BINS : list string :=
  ["A1"; "A2"; "B1"; "B2"; "C1"; "C2"; "D1"; "D2"; "E1"; "E2"; "F1"; "F2";
   "G1"; "G2"; "H1"; "H2"; "I1"; "I2"; "J1"; "J2"; "K1"; "K2"; "L1"; "L2";
   "M1"; "M2"; "N1"; "N2"; "O1"; "O2"; "P1"; "P2"; "Q1"; "Q2"; "R1"; "R2";
   "S1"; "S2"; "T1"; "T2"; "U1"; "U2"; "V1"; "V2"; "W1"; "W2"; "X1"; "X2"].

Example generate_all_bins_default : generate_all_bins "A" "X" = inr ALL_BINS.
Proof. vm_compute. reflexivity. Qed.

(** * Properties *)

(** ** Facts about [sorted] *)

Section SortedFacts.
Context {A : Type} (key : A → string).

Definition key_le (x y : A) : Prop := (key x ≤ key y)%string.

#[local] Instance key_le_trans : Transitive key_le.
Proof. intros x y z. unfold key_le. apply transitivity. Qed.

Lemma ltb_true_le (a b : string) : String.ltb a b = true → (a ≤ b)%string.
Proof.
  unfold String.ltb, String.le, String.leb.
  destruct (String.compare a b); simpl; intros H; done.
Qed.

Lemma ltb_false_le (a b : string) : String.ltb a b = false → (b ≤ a)%string.
Proof.
  unfold String.ltb, String.le, String.leb.
  rewrite (String.compare_antisym b a).
  destruct (String.compare a b); simpl; intros H; done.
Qed.

Lemma insert_by_Permutation (x : A) (l : list A) : insert_by key x l ≡ₚ x :: l.
Proof.
  induction l as [|y l IH]; simpl; [done|].
  destruct (String.ltb (key y) (key x)); [|done].
  rewrite IH. apply Permutation_swap.
Qed.

Lemma sorted_Permutation (l : list A) : sorted key l ≡ₚ l.
Proof.
  induction l as [|x l IH]; simpl; [done|].
  rewrite insert_by_Permutation. by f_equiv.
Qed.

Lemma sorted_length (l : list A) : length (sorted key l) = length l.
Proof. by rewrite sorted_Permutation. Qed.

Lemma insert_by_HdRel (a x : A) (l : list A) :
  key_le a x → HdRel key_le a l → HdRel key_le a (insert_by key x l).
Proof.
  intros Hax Hl. destruct l as [|y l]; simpl; [by constructor|].
  destruct (String.ltb (key y) (key x)); constructor; [|done].
  by inv Hl.
Qed.

Lemma insert_by_Sorted (x : A) (l : list A) :
  Sorted key_le l → Sorted key_le (insert_by key x l).
Proof.
  induction 1 as [|y l Hl IH Hy]; simpl; [by repeat constructor|].
  destruct (String.ltb (key y) (key x)) eqn:E.
  - constructor; [done|]. apply insert_by_HdRel; [|done].
    by apply ltb_true_le.
  - constructor; [by constructor|]. constructor. by apply ltb_false_le.
Qed.

Lemma sorted_Sorted (l : list A) : Sorted key_le (sorted key l).
Proof.
  induction l as [|x l IH]; simpl; [constructor|]. by apply insert_by_Sorted.
Qed.

(** Two inputs with the same members give the same sorted list as soon as
    the key separates the members. *)
Lemma sorted_Permutation_eq (l1 l2 : list A) :
  l1 ≡ₚ l2 →
  (∀ x y, x ∈ l1 → y ∈ l1 → key x = key y → x = y) →
  sorted key l1 = sorted key l2.
Proof.
  intros Hp Hinj.
  apply (StronglySorted_unique_strong key_le).
  - intros x y Hx Hy Hxy Hyx.
    rewrite sorted_Permutation in Hx. rewrite sorted_Permutation, <-Hp in Hy.
    apply Hinj; [done..|]. by apply (anti_symm String.le).
  - apply Sorted_StronglySorted; [apply _|apply sorted_Sorted].
  - apply Sorted_StronglySorted; [apply _|apply sorted_Sorted].
  - by rewrite !sorted_Permutation.
Qed.
End SortedFacts.

(** ** Stability of [sorted] and blocks of a sorted list *)

Lemma ltb_irrefl (a : string) : String.ltb a a = false.
Proof.
  unfold String.ltb. pose proof (String.compare_antisym a a) as H.
  destruct (String.compare a a); simpl in H; done.
Qed.

Lemma insert_by_filter {A : Type} (key : A → string) (k : string) (x : A) (l : list A) :
  filter (λ y, key y = k) (insert_by key x l) = filter (λ y, key y = k) (x :: l).
Proof.
  induction l as [|y l IH]; simpl; [done|].
  destruct (String.ltb (key y) (key x)) eqn:E; [|done].
  assert (key y ≠ key x) as Hne by (intros Heq; rewrite Heq, ltb_irrefl in E; done).
  rewrite (filter_cons _ y), IH, !(filter_cons _ x), (filter_cons _ y).
  destruct (decide (key y = k)), (decide (key x = k)); try done. congruence.
Qed.

(** Elements with the same key leave [sorted] in the order in which they
    entered it. *)
Lemma sorted_filter_key {A : Type} (key : A → string) (k : string) (l : list A) :
  filter (λ x, key x = k) (sorted key l) = filter (λ x, key x = k) l.
Proof.
  induction l as [|x l IH]; simpl; [done|].
  rewrite insert_by_filter, !(filter_cons _ x), IH. done.
Qed.

Lemma filter_sublist {A : Type} (P : A → Prop) `{∀ x, Decision (P x)} (l1 l2 : list A) :
  l1 `sublist_of` l2 → filter P l1 `sublist_of` filter P l2.
Proof.
  induction 1 as [|x l1 l2 _ IH|x l1 l2 _ IH]; [done| |].
  - rewrite !filter_cons. case_decide; [by constructor|done].
  - rewrite filter_cons. case_decide; [by constructor|done].
Qed.

Lemma block_sublist {A : Type} (n i : nat) (s : list A) :
  take n (drop i s) `sublist_of` s.
Proof. etrans; [apply sublist_take|apply sublist_drop]. Qed.

Lemma Sorted_block {A : Type} (R : relation A) `{!Transitive R} (n i : nat) (s : list A) :
  Sorted R s → Sorted R (take n (drop i s)).
Proof.
  intros Hs. apply Sorted_StronglySorted in Hs; [|done].
  apply StronglySorted_Sorted.
  rewrite <-(take_drop i s) in Hs. apply StronglySorted_app_1_r in Hs.
  rewrite <-(take_drop n (drop i s)) in Hs. by apply StronglySorted_app_1_l in Hs.
Qed.

#[local] Instance casefold_le_trans :
  Transitive (λ x y : string, (casefold x ≤ casefold y)%string).
Proof. intros x y z. apply transitivity. Qed.

(** ** Facts about the packer *)

Lemma foldl_insert_lookup {V : Type} (f : string → V) (keys : list string)
    (m : gmap string V) (k : string) :
  foldl (λ m k, <[k := f k]> m) m keys !! k
  = if decide (k ∈ keys) then Some (f k) else m !! k.
Proof.
  revert m. induction keys as [|k' keys IH]; intros m; cbn [foldl].
  - case_decide as H; [by apply elem_of_nil in H|done].
  - rewrite IH.
    destruct (decide (k ∈ keys)) as [Hin|Hnin], (decide (k ∈ k' :: keys)) as [Hin'|Hnin'];
      try done.
    + exfalso. apply Hnin'. by right.
    + apply elem_of_cons in Hin' as [->|?]; [|done]. by rewrite lookup_insert_eq.
    + rewrite lookup_insert_ne; [done|]. intros ->. apply Hnin'. by left.
Qed.

Lemma dict_comp_lookup {V : Type} (f : string → V) (keys : list string) (k : string) :
  dict_comp f keys !! k = if decide (k ∈ keys) then Some (f k) else None.
Proof. unfold dict_comp. by rewrite foldl_insert_lookup, lookup_empty. Qed.

(** The loop writes only the keys it is given. *)
Lemma fill_loop_other (s : list string) (i : nat) (bins : list string)
    (out : gmap string (list string)) (k : string) :
  k ∉ bins → fill_loop s i bins out !! k = out !! k.
Proof.
  revert i out. induction bins as [|b rest IH]; intros i out Hk; simpl; [done|].
  apply not_elem_of_cons in Hk as [Hne Hk].
  destruct (decide (length s ≤ i + BIN_CAPACITY)).
  - by rewrite lookup_insert_ne.
  - rewrite IH by done. by rewrite lookup_insert_ne.
Qed.

(** The [j]-th bin receives the [j]-th block of nine, counted from offset [i]. *)
Lemma fill_loop_lookup (s : list string) (i : nat) (bins : list string)
    (out : gmap string (list string)) (j : nat) (b : string) :
  NoDup bins →
  (∀ b', b' ∈ bins → out !! b' = Some []) →
  bins !! j = Some b →
  fill_loop s i bins out !! b = Some (take BIN_CAPACITY (drop (i + j * BIN_CAPACITY) s)).
Proof.
  revert i out j. induction bins as [|b0 rest IH]; intros i out j Hnd Hout Hj; [done|].
  apply NoDup_cons in Hnd as [Hb0 Hnd]. simpl.
  destruct j as [|j]; simpl in Hj.
  - injection Hj as ->. rewrite Nat.add_0_r.
    destruct (decide (length s ≤ i + BIN_CAPACITY)).
    + by rewrite lookup_insert_eq.
    + rewrite fill_loop_other by done. by rewrite lookup_insert_eq.
  - assert (b ∈ rest) as Hin by (by eapply list_elem_of_lookup_2).
    assert (b0 ≠ b) as Hne by (intros ->; done).
    destruct (decide (length s ≤ i + BIN_CAPACITY)) as [Hle|Hgt].
    + rewrite lookup_insert_ne by done.
      rewrite Hout by (by right).
      rewrite drop_ge; [done|]. unfold BIN_CAPACITY in *. lia.
    + rewrite (IH (i + BIN_CAPACITY) _ j); [|done| |done].
      * do 3 f_equal. unfold BIN_CAPACITY. lia.
      * intros b' Hb'. rewrite lookup_insert_ne by (intros ->; done).
        apply Hout. by right.
Qed.

(** ** Facts about the bin-uniqueness check *)

Lemma dupes_step_nonempty (bins : list string) (seen : gset string) (dupes : list string) :
  dupes ≠ [] → (foldl dupes_step (seen, dupes) bins).2 ≠ [].
Proof.
  revert seen dupes. induction bins as [|b rest IH]; intros seen dupes Hne; simpl; [done|].
  apply IH. case_decide; [|done]. by destruct dupes.
Qed.

Lemma dupes_step_NoDup (bins : list string) (seen : gset string) :
  (foldl dupes_step (seen, []) bins).2 = [] →
  NoDup bins ∧ ∀ b, b ∈ bins → b ∉ seen.
Proof.
  revert seen. induction bins as [|b rest IH]; intros seen Hres; simpl in *.
  - split; [constructor|]. intros b Hb. by apply elem_of_nil in Hb.
  - destruct (decide (b ∈ seen ∧ b ∉ [])) as [[Hin _]|Hnot].
    + exfalso. by eapply dupes_step_nonempty; [|apply Hres].
    + apply IH in Hres as [Hnd Hfresh].
      assert (b ∉ seen) as Hb by (intros ?; apply Hnot; split; [done|apply not_elem_of_nil]).
      split.
      * constructor; [|done]. intros Hin. apply (Hfresh b Hin).
        apply elem_of_union. left. by apply elem_of_singleton.
      * intros b' [->|Hb']%elem_of_cons; [done|].
        intros ?. apply (Hfresh b' Hb'). apply elem_of_union. by right.
Qed.

Lemma dupes_of_nil_NoDup (bins : list string) : dupes_of bins = [] → NoDup bins.
Proof. intros H. by apply dupes_step_NoDup in H as [? _]. Qed.

Lemma dict_set_nonempty {V : Type} (k : string) (v : V) (d : list (string * V)) :
  dict_set k v d ≠ [].
Proof. destruct d as [|[k' v'] d]; simpl; [done|]. by case_decide. Qed.

Lemma category_dupes_nil (layout : list (string * list string)) (c : string)
    (bins : list string) :
  category_dupes layout = [] → (c, bins) ∈ layout → dupes_of bins = [].
Proof.
  unfold category_dupes.
  assert (∀ acc, foldl (λ acc cb, match dupes_of cb.2 with
                                  | [] => acc
                                  | d :: ds => dict_set cb.1 (d :: ds) acc
                                  end) acc layout = [] →
                 acc = [] ∧ ∀ cb, cb ∈ layout → dupes_of cb.2 = []) as Hgen.
  { induction layout as [|cb rest IH]; intros acc Hres; simpl in *.
    - split; [done|]. intros cb Hcb. by apply elem_of_nil in Hcb.
    - apply IH in Hres as [Hacc Hrest].
      destruct (dupes_of cb.2) eqn:E.
      + split; [done|]. intros cb' [->|Hcb']%elem_of_cons; [done|by apply Hrest].
      + by apply dict_set_nonempty in Hacc. }
  intros Hres Hin. apply Hgen in Hres as [_ Hall]. by apply (Hall (c, bins)).
Qed.

Lemma validate_layout_bins_unique_NoDup (layout : list (string * list string))
    (c : string) (bins : list string) :
  validate_layout_bins_unique layout = Passed → (c, bins) ∈ layout → NoDup bins.
Proof.
  unfold validate_layout_bins_unique. intros Hv Hin.
  destruct (category_dupes layout) eqn:E; [|by destruct (overlaps layout)].
  eapply dupes_of_nil_NoDup, category_dupes_nil; done.
Qed.

(** ** Packing one category *)

Lemma fill_loop_inv (Q : list string → Prop) (s : list string) (i : nat)
    (bins : list string) (out : gmap string (list string)) :
  (∀ i, Q (take BIN_CAPACITY (drop i s))) →
  (∀ b l, out !! b = Some l → Q l) →
  ∀ b l, fill_loop s i bins out !! b = Some l → Q l.
Proof.
  intros Hchunk. revert i out. induction bins as [|b0 rest IH]; intros i out Hout b l;
    simpl; [apply Hout|].
  assert (∀ b l, <[b0 := take BIN_CAPACITY (drop i s)]> out !! b = Some l → Q l) as Hout'.
  { intros b' l'. destruct (decide (b0 = b')) as [->|Hne].
    - rewrite lookup_insert_eq. by intros [= <-].
    - rewrite lookup_insert_ne by done. apply Hout. }
  case_decide; [apply Hout'|]. by apply IH.
Qed.

(** Every list the packer stores is a block of at most nine consecutive
    sorted items, whatever the bins are. *)
Lemma fill_bins_for_category_block (its bins : list string)
    (out : gmap string (list string)) (b : string) (l : list string) :
  fill_bins_for_category its bins = inr out →
  out !! b = Some l →
  ∃ i, l = take BIN_CAPACITY (drop i (sorted casefold its)).
Proof.
  unfold fill_bins_for_category. case_decide; [done|]. intros [= <-].
  apply (fill_loop_inv (λ l, ∃ i, l = take BIN_CAPACITY (drop i (sorted casefold its)))).
  - intros i. by exists i.
  - intros b' l'. rewrite dict_comp_lookup. case_decide; [|done]. intros [= <-].
    exists (length (sorted casefold its)). by rewrite drop_all.
Qed.

(** C7: packing a category raises the capacity error exactly when the number
    of items exceeds nine times the number of bins; the error carries the item
    count, the capacity and the bin list, and its message prints the three. *)
Theorem fill_bins_for_category_capacity_error (its bins : list string) :
  ((∃ e, fill_bins_for_category its bins = inl e)
     ↔ length bins * BIN_CAPACITY < length its)
  ∧ (∀ e, fill_bins_for_category its bins = inl e ↔
          length bins * BIN_CAPACITY < length its
          ∧ e = CapacityError (length its) (length bins * BIN_CAPACITY) bins)
  ∧ message (CapacityError (length its) (length bins * BIN_CAPACITY) bins)
    = "Not enough capacity: " +:+ pretty (length its) +:+ " items but only "
        +:+ pretty (length bins * BIN_CAPACITY) +:+ " slots across bins "
        +:+ repr_list bins +:+ ".".
Proof.
  assert (∀ e, fill_bins_for_category its bins = inl e ↔
            length bins * BIN_CAPACITY < length its
            ∧ e = CapacityError (length its) (length bins * BIN_CAPACITY) bins) as Hchar.
  { intros e. unfold fill_bins_for_category. rewrite sorted_length.
    destruct (decide (length bins * BIN_CAPACITY < length its)) as [Hlt|Hge].
    - split; [intros [= <-]; done|]. by intros [_ ->].
    - split; [done|]. by intros [? _]. }
  split; [|split; [exact Hchar|reflexivity]].
  split.
  - intros [e He]. by apply Hchar in He as [? _].
  - intros Hlt. eexists. apply Hchar. done.
Qed.

(** C5 (amended): for a category whose bins are pairwise distinct and whose
    items fit, packing succeeds; the items are sorted ascending by their
    case-folded names, names with the same case-folded form staying in input
    order; the [j]-th bin of the category (in layout order) receives the
    [j]-th block of nine sorted items, and a bin past the last item receives
    the empty list.  A bin listed twice is written twice, see
    [repeated_bin_keeps_last_chunk]. *)
Theorem fill_bins_for_category_chunks (its bins : list string) :
  NoDup bins →
  length its ≤ length bins * BIN_CAPACITY →
  ∃ out,
    fill_bins_for_category its bins = inr out
    ∧ sorted casefold its ≡ₚ its
    ∧ Sorted (λ x y, casefold x ≤ casefold y)%string (sorted casefold its)
    ∧ (∀ k, filter (λ x, casefold x = k) (sorted casefold its)
            = filter (λ x, casefold x = k) its)
    ∧ (∀ j b, bins !! j = Some b →
         out !! b = Some (take BIN_CAPACITY (drop (j * BIN_CAPACITY) (sorted casefold its))))
    ∧ (∀ j b, bins !! j = Some b → length its ≤ j * BIN_CAPACITY → out !! b = Some []).
Proof.
  intros Hnd Hfit.
  unfold fill_bins_for_category. rewrite sorted_length.
  rewrite decide_False by lia.
  eexists. split; [reflexivity|].
  assert (∀ j b, bins !! j = Some b →
            fill_loop (sorted casefold its) 0 bins (dict_comp (λ _, []) bins) !! b
            = Some (take BIN_CAPACITY (drop (j * BIN_CAPACITY) (sorted casefold its)))) as Hchunk.
  { intros j b Hj. rewrite (fill_loop_lookup _ 0 bins _ j b); [done|done| |done].
    intros b' Hb'. rewrite dict_comp_lookup. by rewrite decide_True. }
  split; [apply sorted_Permutation|].
  split; [apply (sorted_Sorted casefold)|].
  split; [intros k; apply sorted_filter_key|].
  split; [exact Hchunk|].
  intros j b Hj Hpast. rewrite (Hchunk j b Hj).
  rewrite drop_ge; [done|]. by rewrite sorted_length.
Qed.

Lemma fill_bins_for_category_chunks_witness :
  ∃ out,
    fill_bins_for_category ["pick"; "Zinc"; "apple"; "Ézard"; "épée"] ["A1"; "B2"]
    = inr out
    ∧ out !! "A1" = Some ["apple"; "pick"; "Zinc"; "épée"; "Ézard"]
    ∧ out !! "B2" = Some [].
Proof.
  destruct (fill_bins_for_category_chunks
              ["pick"; "Zinc"; "apple"; "Ézard"; "épée"] ["A1"; "B2"])
    as (out & Hout & _ & _ & _ & Hchunk & _).
  - apply (bool_decide_eq_true_1 (NoDup ["A1"; "B2"])). vm_compute. reflexivity.
  - vm_compute. lia.
  - exists out. split; [exact Hout|].
    split; [exact (Hchunk 0 "A1" eq_refl)|exact (Hchunk 1 "B2" eq_refl)].
Defined.

(** C5 (as stated) fails: ten items fit the two bins of the list, but the
    list names the same bin twice; the first block of nine is replaced by the
    second, and the bin ends with the tenth item alone. *)
Lemma repeated_bin_keeps_last_chunk :
  length ["a"; "b"; "c"; "d"; "e"; "f"; "g"; "h"; "i"; "j"]
    ≤ length ["A1"; "A1"] * BIN_CAPACITY
  ∧ ["A1"; "A1"] !! 0 = Some "A1"
  ∧ take BIN_CAPACITY
      (drop (0 * BIN_CAPACITY)
         (sorted casefold ["a"; "b"; "c"; "d"; "e"; "f"; "g"; "h"; "i"; "j"]))
    = ["a"; "b"; "c"; "d"; "e"; "f"; "g"; "h"; "i"]
  ∧ (fill_bins_for_category ["a"; "b"; "c"; "d"; "e"; "f"; "g"; "h"; "i"; "j"]
       ["A1"; "A1"] ≫= λ out, inr (out !! "A1"))
    = inr (Some ["j"]).
Proof.
  split; [vm_compute; lia|].
  split; [reflexivity|].
  split; vm_compute; reflexivity.
Qed.

(** C2 (amended): for two item lists that are permutations of each other and
    whose distinct names have distinct case-folded forms, packing gives the
    same per-bin item lists.  For any item list, every per-bin list is in
    ascending order of the case-folded names, and names with the same
    case-folded form stand in it in their input order: for such names the
    packed order depends on the input order, see
    [packing_depends_on_input_order]. *)
Theorem fill_bins_for_category_Permutation (its1 its2 bins : list string) :
  (its1 ≡ₚ its2 →
   (∀ x y, x ∈ its1 → y ∈ its1 → casefold x = casefold y → x = y) →
   fill_bins_for_category its1 bins = fill_bins_for_category its2 bins)
  ∧ ∀ out b l,
      fill_bins_for_category its1 bins = inr out →
      out !! b = Some l →
      Sorted (λ x y, casefold x ≤ casefold y)%string l
      ∧ ∀ k, filter (λ x, casefold x = k) l `sublist_of` filter (λ x, casefold x = k) its1.
Proof.
  split.
  - intros Hp Hinj. unfold fill_bins_for_category.
    by rewrite (sorted_Permutation_eq casefold its1 its2 Hp Hinj).
  - intros out b l Hfill Hl.
    destruct (fill_bins_for_category_block _ _ _ _ _ Hfill Hl) as [i ->]. split.
    + apply Sorted_block; [apply _|]. apply (sorted_Sorted casefold).
    + intros k. rewrite <-(sorted_filter_key casefold k its1).
      apply filter_sublist, block_sublist.
Qed.

Lemma fill_bins_for_category_Permutation_witness :
  fill_bins_for_category ["épée"; "Zinc"; "pick"] ["A1"]
  = inr {[ "A1" := ["pick"; "Zinc"; "épée"] ]}.
Proof.
  rewrite <-(proj1 (fill_bins_for_category_Permutation
                      ["pick"; "Zinc"; "épée"] ["épée"; "Zinc"; "pick"] ["A1"])).
  - vm_compute. reflexivity.
  - symmetry. exact (reverse_Permutation ["pick"; "Zinc"; "épée"]).
  - intros x y Hx Hy.
    repeat (apply elem_of_cons in Hx as [->|Hx]); [| | |by apply elem_of_nil in Hx];
    (repeat (apply elem_of_cons in Hy as [->|Hy]); [| | |by apply elem_of_nil in Hy]);
    vm_compute; congruence.
Defined.

(** C2 (as stated) fails: two permutations of the same two names, equal up to
    case, are packed in different orders. *)
Lemma packing_depends_on_input_order :
  ["Axe"; "AXE"] ≡ₚ ["AXE"; "Axe"]
  ∧ (fill_bins_for_category ["Axe"; "AXE"] ["A1"] ≫= λ out, inr (out !! "A1"))
    = inr (Some ["Axe"; "AXE"])
  ∧ (fill_bins_for_category ["AXE"; "Axe"] ["A1"] ≫= λ out, inr (out !! "A1"))
    = inr (Some ["AXE"; "Axe"])
  ∧ fill_bins_for_category ["Axe"; "AXE"] ["A1"]
    ≠ fill_bins_for_category ["AXE"; "Axe"] ["A1"].
Proof.
  split; [apply Permutation_swap|].
  split; [vm_compute; reflexivity|].
  split; [vm_compute; reflexivity|].
  intros Heq.
  assert ((fill_bins_for_category ["Axe"; "AXE"] ["A1"] ≫= λ out, inr (out !! "A1"))
          = (fill_bins_for_category ["AXE"; "Axe"] ["A1"] ≫= λ out, inr (out !! "A1")))
    as Hlook by (by rewrite Heq).
  vm_compute in Hlook. discriminate Hlook.
Qed.

(** ** Mapping loader *)

(** Number of times [k] is a member's key. *)
Definition occurrences (k : string) (keys : list string) : nat :=
  length (filter (λ k', k' = k) keys).

Lemma occurrences_cons (k k0 : string) (keys : list string) :
  occurrences k (k0 :: keys) = (if decide (k0 = k) then 1 else 0) + occurrences k keys.
Proof. unfold occurrences. rewrite filter_cons. by case_decide. Qed.

Lemma occurrences_pos (k : string) (keys : list string) :
  k ∈ keys ↔ 1 ≤ occurrences k keys.
Proof.
  induction keys as [|k0 keys IH].
  - unfold occurrences. simpl. rewrite elem_of_nil. lia.
  - rewrite occurrences_cons, elem_of_cons, IH. case_decide; naive_solver lia.
Qed.

(** After the loop of the hook, [dupes] holds the keys met again. *)
Lemma hook_fold_dupes (pairs : list (string * pyval)) (obj : list (string * pyval))
    (seen : gset string) (dupes : list string) (k : string) :
  k ∈ (foldl hook_step (obj, seen, dupes) pairs).2 ↔
  k ∈ dupes ∨ (k ∈ pairs.*1 ∧ k ∈ seen) ∨ 2 ≤ occurrences k pairs.*1.
Proof.
  revert obj seen dupes. induction pairs as [|[k0 v0] rest IH]; intros obj seen dupes.
  - simpl. rewrite elem_of_nil. unfold occurrences. simpl. naive_solver lia.
  - cbn [foldl hook_step fst snd]. rewrite IH. clear IH.
    rewrite fmap_cons, occurrences_cons, elem_of_cons. cbn [fst].
    rewrite elem_of_union, elem_of_singleton, (occurrences_pos k rest.*1).
    destruct (decide (k0 ∈ seen)) as [Hs|Hs].
    + rewrite elem_of_app, list_elem_of_singleton.
      case_decide; naive_solver lia.
    + case_decide; naive_solver lia.
Qed.

Lemma uniq_of_fold (dupes acc : list string) :
  NoDup acc →
  NoDup (foldl (λ uniq d, if decide (d ∈ uniq) then uniq else uniq ++ [d]) acc dupes)
  ∧ ∀ k, k ∈ foldl (λ uniq d, if decide (d ∈ uniq) then uniq else uniq ++ [d]) acc dupes
         ↔ k ∈ acc ∨ k ∈ dupes.
Proof.
  revert acc. induction dupes as [|d rest IH]; intros acc Hnd; simpl.
  - split; [done|]. intros k. rewrite elem_of_nil. naive_solver.
  - destruct (decide (d ∈ acc)) as [Hin|Hnin].
    + destruct (IH acc Hnd) as [Hnd' Hmem]. split; [done|].
      intros k. rewrite Hmem, elem_of_cons. naive_solver.
    + assert (NoDup (acc ++ [d])) as Hnd1.
      { apply NoDup_app. split; [done|]. split; [|apply NoDup_singleton].
        intros x Hx ->%list_elem_of_singleton. done. }
      destruct (IH _ Hnd1) as [Hnd' Hmem]. split; [done|].
      intros k. rewrite Hmem, elem_of_app, list_elem_of_singleton, elem_of_cons.
      naive_solver.
Qed.

Lemma uniq_of_NoDup (dupes : list string) : NoDup (uniq_of dupes).
Proof. apply uniq_of_fold. constructor. Qed.

Lemma uniq_of_elem_of (dupes : list string) (k : string) : k ∈ uniq_of dupes ↔ k ∈ dupes.
Proof.
  unfold uniq_of. destruct (uniq_of_fold dupes [] (NoDup_nil_2)) as [_ H].
  rewrite H, elem_of_nil. naive_solver.
Qed.

(** What the hook returns, in terms of the keys of the pairs. *)
Lemma hook_spec (file : string) (pairs : list (string * pyval)) :
  (NoDup pairs.*1 ∧ ∃ obj, no_dupes_object_pairs_hook file pairs = inr (PDict obj))
  ∨ (∃ uniq, no_dupes_object_pairs_hook file pairs = inl (DuplicateKey file uniq)
       ∧ uniq ≠ [] ∧ NoDup uniq ∧ ∀ k, k ∈ uniq ↔ 2 ≤ occurrences k pairs.*1).
Proof.
  unfold no_dupes_object_pairs_hook.
  pose proof (hook_fold_dupes pairs [] ∅ []) as Hd.
  destruct (foldl hook_step ([], ∅, []) pairs) as [[obj seen] dupes]. simpl in Hd.
  assert (∀ k, k ∈ dupes ↔ 2 ≤ occurrences k pairs.*1) as Hd'.
  { intros k. rewrite Hd, elem_of_nil. set_solver. }
  destruct dupes as [|d dupes].
  - left. split; [|by eexists].
    assert (∀ keys : list string, (∀ k, occurrences k keys < 2) → NoDup keys) as Hnd.
    { induction keys as [|k0 keys IH]; intros Hocc; constructor.
      - intros Hin%occurrences_pos. specialize (Hocc k0).
        rewrite occurrences_cons, decide_True in Hocc by done. lia.
      - apply IH. intros k. specialize (Hocc k). rewrite occurrences_cons in Hocc. lia. }
    apply Hnd. intros k. destruct (decide (occurrences k pairs.*1 < 2)); [done|].
    exfalso. apply (not_elem_of_nil k), Hd'. lia.
  - right. eexists. split; [reflexivity|].
    split.
    { intros Hnil. apply (not_elem_of_nil d). rewrite <-Hnil.
      apply uniq_of_elem_of. by left. }
    split; [apply uniq_of_NoDup|].
    intros k. by rewrite uniq_of_elem_of.
Qed.

(** Induction on a JSON tree, with the hypothesis for every element of an
    array and every member of an object. *)
Section JsonInd.
Variable P : json → Prop.
Hypothesis Hnull : P JNull.
Hypothesis Hbool : ∀ b, P (JBool b).
Hypothesis Hnumber : ∀ n, P (JNumber n).
Hypothesis Hstring : ∀ s, P (JString s).
Hypothesis Harray : ∀ elems, Forall P elems → P (JArray elems).
Hypothesis Hobject : ∀ members, Forall (λ kv, P kv.2) members → P (JObject members).

End JsonInd.

(** The two inner loops of [loads], by name. *)
Fixpoint loads_elems (file : string) (l : list json) : exn + list pyval :=
  match l with
  | [] => inr []
  | x :: r => v ← loads file x; vs ← loads_elems file r; inr (v :: vs)
  end.

Fixpoint loads_members (file : string) (l : list (string * json))
    : exn + list (string * pyval) :=
  match l with
  | [] => inr []
  | (k, x) :: r => v ← loads file x; vs ← loads_members file r; inr ((k, v) :: vs)
  end.

Lemma loads_JArray (file : string) (elems : list json) :
  loads file (JArray elems) = vs ← loads_elems file elems; inr (PList vs).
Proof.
  simpl. f_equal. induction elems as [|x r IH]; simpl; [done|]. by rewrite IH.
Qed.

Lemma loads_JObject (file : string) (members : list (string * json)) :
  loads file (JObject members)
  = pairs ← loads_members file members; no_dupes_object_pairs_hook file pairs.
Proof.
  simpl. f_equal. induction members as [|[k x] r IH]; simpl; [done|]. by rewrite IH.
Qed.





Lemma NoDup_occurrences (keys : list string) (k : string) :
  NoDup keys → occurrences k keys ≤ 1.
Proof.
  induction 1 as [|k0 keys Hnin _ IH]; [unfold occurrences; simpl; lia|].
  rewrite occurrences_cons. case_decide as Hk; [|lia].
  subst k0.
  destruct (decide (occurrences k keys = 0)) as [->|Hpos]; [done|].
  exfalso. apply Hnin, occurrences_pos. lia.
Qed.




(** ** Consistency validator *)

Lemma elem_of_sorted {A : Type} (key : A → string) (l : list A) (x : A) :
  x ∈ sorted key l ↔ x ∈ l.
Proof. by rewrite sorted_Permutation. Qed.

Lemma elem_of_set_difference (a b : list string) (x : string) :
  x ∈ set_difference a b ↔ x ∈ a ∧ x ∉ b.
Proof. unfold set_difference. by rewrite list_elem_of_difference, elem_of_remove_dups. Qed.

Lemma mismatch_report_lists (only_in_categories only_in_layout : list string) (c : string) :
  c ∈ only_in_categories ∨ c ∈ only_in_layout →
  bullet c ∈ mismatch_report only_in_categories only_in_layout.
Proof.
  unfold mismatch_report. intros [Hc|Hc]; apply elem_of_app; right; apply elem_of_app.
  - left. destruct only_in_categories as [|c0 l]; [by apply elem_of_nil in Hc|].
    apply elem_of_app. right. apply elem_of_app. left. by apply list_elem_of_fmap_2.
  - right. destruct only_in_layout as [|c0 l]; [by apply elem_of_nil in Hc|].
    apply elem_of_app. right. apply elem_of_app. left. by apply list_elem_of_fmap_2.
Qed.

(** The category check looks at the keys of the layout only. *)
Lemma validate_same_categories_keys (categories layout layout' : list (string * list string)) :
  layout'.*1 = layout.*1 →
  validate_same_categories categories layout' = validate_same_categories categories layout.
Proof. unfold validate_same_categories. by intros ->. Qed.

(** C1 (amended): when the two mappings disagree on the category names, the
    run prints every category that is on one side only, in both directions,
    and exits with code 2 from the category check; the bin-uniqueness check is
    not run, and the printed report is the same whatever bins the layout
    lists, so no bin-uniqueness violation is reported. *)
Theorem run_category_mismatch_exits_first (categories layout : list (string * list string)) :
  (∃ c, (c ∈ categories.*1 ∧ c ∉ layout.*1) ∨ (c ∈ layout.*1 ∧ c ∉ categories.*1)) →
  ∃ printed,
    validate_same_categories categories layout = Exited 2 printed
    ∧ run categories layout = Exit 2 printed
    ∧ (∀ c, c ∈ categories.*1 → c ∉ layout.*1 → bullet c ∈ printed)
    ∧ (∀ c, c ∈ layout.*1 → c ∉ categories.*1 → bullet c ∈ printed)
    ∧ (∀ layout', layout'.*1 = layout.*1 → run categories layout' = Exit 2 printed).
Proof.
  intros [c0 Hc0].
  assert (∃ printed, validate_same_categories categories layout = Exited 2 printed
            ∧ (∀ c, c ∈ categories.*1 → c ∉ layout.*1 → bullet c ∈ printed)
            ∧ (∀ c, c ∈ layout.*1 → c ∉ categories.*1 → bullet c ∈ printed))
    as (printed & Hv & Hcat & Hlay).
  { unfold validate_same_categories.
    set (oc := sorted casefold (set_difference categories.*1 layout.*1)).
    set (ol := sorted casefold (set_difference layout.*1 categories.*1)).
    assert (c0 ∈ oc ∨ c0 ∈ ol) as Hmem.
    { destruct Hc0 as [[? ?]|[? ?]]; [left|right];
        by apply elem_of_sorted, elem_of_set_difference. }
    exists (mismatch_report oc ol). split; [|split].
    - destruct oc as [|x oc']; [|done].
      destruct ol as [|y ol']; [|done].
      destruct Hmem as [H|H]; by apply elem_of_nil in H.
    - intros c H1 H2. apply mismatch_report_lists. left.
      by apply elem_of_sorted, elem_of_set_difference.
    - intros c H1 H2. apply mismatch_report_lists. right.
      by apply elem_of_sorted, elem_of_set_difference. }
  exists printed. split; [done|].
  split; [unfold run; by rewrite Hv|].
  split; [done|]. split; [done|].
  intros layout' Hkeys. unfold run.
  by rewrite (validate_same_categories_keys _ _ _ Hkeys), Hv.
Qed.

Lemma run_category_mismatch_exits_first_witness :
  ∃ printed,
    run [("Tools", ["Axe"])] [("Misc", ["A1"; "A1"])] = Exit 2 printed
    ∧ bullet "Tools" ∈ printed ∧ bullet "Misc" ∈ printed.
Proof.
  destruct (run_category_mismatch_exits_first
              [("Tools", ["Axe"])] [("Misc", ["A1"; "A1"])])
    as (printed & _ & Hrun & Hcat & Hlay & _).
  - exists "Tools". left. split.
    + apply list_elem_of_singleton. reflexivity.
    + intros H. apply list_elem_of_singleton in H. discriminate H.
  - exists printed. split; [exact Hrun|]. split.
    + apply Hcat.
      * apply list_elem_of_singleton. reflexivity.
      * intros H. apply list_elem_of_singleton in H. discriminate H.
    + apply Hlay.
      * apply list_elem_of_singleton. reflexivity.
      * intros H. apply list_elem_of_singleton in H. discriminate H.
Defined.

(** C1 (as stated) fails: the layout below has a category mismatch and lists
    bin A1 twice.  The bin check alone would report the duplicate, but the run
    ends in the category check and prints the category report only. *)
Lemma both_violations_only_categories_reported :
  validate_layout_bins_unique [("Misc", ["A1"; "A1"])]
  = Exited 3
      [nl +:+ "[ERROR] Invalid bin assignments in category_layout.json." +:+ nl;
       "Duplicate bins listed within the same category:";
       "  - Misc: A1";
       EmptyString;
       "Bins assigned to multiple categories:";
       "  - A1: Misc, Misc";
       EmptyString]
  ∧ run [("Tools", ["Axe"])] [("Misc", ["A1"; "A1"])]
    = Exit 2
        [nl +:+ "[ERROR] Category mismatch between JSON files." +:+ nl;
         "Present in categories.json but missing in category_layout.json:";
         "  - Tools";
         EmptyString;
         "Present in category_layout.json but missing in categories.json:";
         "  - Misc";
         EmptyString].
Proof. split; vm_compute; reflexivity. Qed.

(** ** Packer, whole layout *)

(** Every bin the layout lists, in layout order. *)
Definition layout_bins (layout : list (string * list string)) : list string :=
  layout ≫= snd.

Arguments layout_bins : simpl never.

Lemma elem_of_layout_bins (layout : list (string * list string)) (b : string) :
  b ∈ layout_bins layout ↔ ∃ c bins, (c, bins) ∈ layout ∧ b ∈ bins.
Proof.
  unfold layout_bins. rewrite list_elem_of_bind. split.
  - intros ([c bins] & Hb & Hin). by exists c, bins.
  - intros (c & bins & Hin & Hb). by exists (c, bins).
Qed.

Lemma layout_bins_cons (c : string) (bins : list string)
    (layout : list (string * list string)) :
  layout_bins ((c, bins) :: layout) = bins ++ layout_bins layout.
Proof. reflexivity. Qed.

Lemma dict_get_Some {V : Type} (d : list (string * V)) (k : string) (v : V) :
  dict_get k d = Some v → (k, v) ∈ d.
Proof.
  induction d as [|[k' v'] d IH]; simpl; [done|].
  case_decide as Hk; [intros [= ->]; subst; by left|]. intros H. right. by apply IH.
Qed.

Lemma dict_get_is_Some {V : Type} (d : list (string * V)) (k : string) :
  k ∈ d.*1 → is_Some (dict_get k d).
Proof.
  induction d as [|[k' v'] d IH]; simpl; [by intros ?%elem_of_nil|].
  intros [->|Hin]%elem_of_cons; [by rewrite decide_True|].
  case_decide; [done|by apply IH].
Qed.

Lemma insert_is_Some_preserved {V : Type} (m : gmap string V) (b k : string) (v : V) :
  is_Some (m !! b) → (is_Some (<[b := v]> m !! k) ↔ is_Some (m !! k)).
Proof.
  intros Hb. destruct (decide (b = k)) as [->|Hne].
  - rewrite lookup_insert_eq. naive_solver.
  - by rewrite lookup_insert_ne.
Qed.

Lemma assign_bins_ok (c : string) (bins : list string) (m : gmap string string) :
  (∀ b, b ∈ bins → is_Some (m !! b)) →
  ∃ m', assign_bins c bins m = inr m'
        ∧ (∀ k, is_Some (m' !! k) ↔ is_Some (m !! k))
        ∧ (∀ k, k ∉ bins → m' !! k = m !! k).
Proof.
  revert m. induction bins as [|b rest IH]; intros m Hall; simpl.
  - exists m. done.
  - destruct (Hall b) as [v Hv]; [by left|]. rewrite Hv.
    destruct (IH (<[b := c]> m)) as (m' & Hm' & Hdom & Hother).
    { intros b' Hb'. apply insert_is_Some_preserved; [by eexists|]. apply Hall. by right. }
    exists m'. split; [done|]. split.
    + intros k. rewrite Hdom. apply insert_is_Some_preserved. by eexists.
    + intros k [Hne Hk]%not_elem_of_cons. rewrite Hother by done.
      by rewrite lookup_insert_ne.
Qed.

Lemma assign_bins_err (c : string) (bins : list string) (m : gmap string string) :
  (∃ b, b ∈ bins ∧ m !! b = None) →
  ∃ b, b ∈ bins ∧ m !! b = None ∧ assign_bins c bins m = inl (OutOfRangeError b).
Proof.
  revert m. induction bins as [|b rest IH]; intros m (b0 & Hin & Hnone); simpl.
  - by apply elem_of_nil in Hin.
  - destruct (m !! b) as [v|] eqn:Hb.
    + assert (b0 ≠ b) as Hne by (intros ->; congruence).
      apply elem_of_cons in Hin as [?|Hin]; [done|].
      destruct (IH (<[b := c]> m)) as (b1 & Hin1 & Hnone1 & Herr).
      { exists b0. split; [done|]. by rewrite lookup_insert_ne. }
      exists b1. split; [by right|]. split; [|done].
      destruct (decide (b = b1)) as [->|Hne1].
      * by rewrite lookup_insert_eq in Hnone1.
      * by rewrite lookup_insert_ne in Hnone1.
    + exists b. split; [by left|]. done.
Qed.

Lemma assign_layout_ok (layout : list (string * list string)) (m : gmap string string) :
  (∀ b, b ∈ layout_bins layout → is_Some (m !! b)) →
  ∃ m', assign_layout layout m = inr m'
        ∧ (∀ k, is_Some (m' !! k) ↔ is_Some (m !! k))
        ∧ (∀ k, k ∉ layout_bins layout → m' !! k = m !! k).
Proof.
  revert m. induction layout as [|[c bins] rest IH]; intros m Hall; simpl.
  - exists m. done.
  - rewrite layout_bins_cons in Hall.
    destruct (assign_bins_ok c bins m) as (m1 & -> & Hdom1 & Hother1).
    { intros b Hb. apply Hall, elem_of_app. by left. }
    simpl. destruct (IH m1) as (m' & Hm' & Hdom & Hother).
    { intros b Hb. apply Hdom1, Hall, elem_of_app. by right. }
    exists m'. split; [done|]. split.
    + intros k. by rewrite Hdom, Hdom1.
    + intros k Hk. rewrite layout_bins_cons in Hk.
      apply not_elem_of_app in Hk as [Hk1 Hk2].
      by rewrite Hother, Hother1.
Qed.

Lemma assign_layout_err (layout : list (string * list string)) (m : gmap string string) :
  (∃ b, b ∈ layout_bins layout ∧ m !! b = None) →
  ∃ b, b ∈ layout_bins layout ∧ m !! b = None
       ∧ assign_layout layout m = inl (OutOfRangeError b).
Proof.
  revert m. induction layout as [|[c bins] rest IH]; intros m (b0 & Hin & Hnone); simpl.
  - by apply elem_of_nil in Hin.
  - rewrite layout_bins_cons in *.
    destruct (decide (Exists (λ b, m !! b = None) bins)) as [Hbad|Hgood];
      rewrite Exists_exists in *.
    + destruct (assign_bins_err c bins m Hbad) as (b1 & Hin1 & Hnone1 & ->).
      exists b1. split; [apply elem_of_app; by left|]. done.
    + assert (∀ b, b ∈ bins → is_Some (m !! b)) as Hall.
      { intros b Hb. destruct (m !! b) eqn:E; [done|]. exfalso. apply Hgood. by exists b. }
      destruct (assign_bins_ok c bins m Hall) as (m1 & -> & Hdom1 & Hother1). simpl.
      apply elem_of_app in Hin as [Hin|Hin].
      { exfalso. apply Hgood. by exists b0. }
      destruct (IH m1) as (b1 & Hin1 & Hnone1 & Herr).
      { exists b0. split; [done|]. apply eq_None_not_Some. rewrite Hdom1.
        by apply eq_None_not_Some. }
      exists b1. split; [apply elem_of_app; by right|]. split; [|done].
      apply eq_None_not_Some. rewrite <-Hdom1. by apply eq_None_not_Some.
Qed.

Lemma build_bin_to_category_ok (all_bins : list string)
    (layout : list (string * list string)) :
  (∀ b, b ∈ layout_bins layout → b ∈ all_bins) →
  ∃ btc, build_bin_to_category all_bins layout = inr btc
         ∧ (∀ k, is_Some (btc !! k) ↔ k ∈ all_bins)
         ∧ (∀ k, k ∈ all_bins → k ∉ layout_bins layout → btc !! k = Some "UNUSED").
Proof.
  intros Hin. unfold build_bin_to_category.
  assert (∀ k, is_Some (dict_comp (λ _ : string, "UNUSED") all_bins !! k) ↔ k ∈ all_bins)
    as Hdom0.
  { intros k. rewrite dict_comp_lookup. case_decide; [naive_solver|].
    split; [by intros [? ?]|done]. }
  destruct (assign_layout_ok layout (dict_comp (λ _, "UNUSED") all_bins))
    as (btc & Hbtc & Hdom & Hother).
  { intros b Hb. by apply Hdom0, Hin. }
  exists btc. split; [done|]. split.
  - intros k. by rewrite Hdom, Hdom0.
  - intros k Hk Hfree. rewrite Hother by done. rewrite dict_comp_lookup.
    by rewrite decide_True.
Qed.

Lemma build_bin_to_category_err (all_bins : list string)
    (layout : list (string * list string)) :
  (∃ b, b ∈ layout_bins layout ∧ b ∉ all_bins) →
  ∃ b, b ∈ layout_bins layout ∧ (b ∉ all_bins)
       ∧ build_bin_to_category all_bins layout = inl (OutOfRangeError b).
Proof.
  intros (b0 & Hin & Hout). unfold build_bin_to_category.
  assert (∀ k, dict_comp (λ _ : string, "UNUSED") all_bins !! k = None ↔ k ∉ all_bins)
    as Hnone.
  { intros k. rewrite dict_comp_lookup. case_decide; naive_solver. }
  destruct (assign_layout_err layout (dict_comp (λ _, "UNUSED") all_bins))
    as (b & Hb & Hb' & Herr).
  { exists b0. split; [done|]. by apply Hnone. }
  exists b. split; [done|]. split; [by apply Hnone|done].
Qed.

Lemma prefill_ok (btc : gmap string string) (all_bins : list string)
    (sorter : gmap string bin_record) :
  (∀ b, b ∈ all_bins → is_Some (btc !! b)) →
  ∃ sorter', prefill btc all_bins sorter = inr sorter'
    ∧ ∀ k, sorter' !! k
           = if decide (k ∈ all_bins)
             then (λ c, {| category := c; items := [] |}) <$> btc !! k
             else sorter !! k.
Proof.
  revert sorter. induction all_bins as [|b rest IH]; intros sorter Hall; cbn [prefill].
  - exists sorter. split; [done|]. intros k. by rewrite decide_False by apply not_elem_of_nil.
  - destruct (Hall b) as [c Hc]; [by left|]. unfold subscript. rewrite Hc. simpl.
    destruct (IH (<[b := {| category := c; items := [] |}]> sorter)) as (sorter' & -> & Hlook).
    { intros b' Hb'. apply Hall. by right. }
    exists sorter'. split; [done|]. intros k. rewrite Hlook.
    destruct (decide (k ∈ rest)) as [Hk|Hk].
    + rewrite decide_True; [done|by right].
    + destruct (decide (k = b)) as [->|Hne].
      * rewrite decide_True by (by left). by rewrite lookup_insert_eq, Hc.
      * rewrite decide_False by (by intros [?|?]%elem_of_cons).
        by rewrite lookup_insert_ne.
Qed.

Lemma store_items_ok (filled : gmap string (list string)) (bins : list string)
    (sorter : gmap string bin_record) :
  (∀ b, b ∈ bins → is_Some (sorter !! b)) →
  ∃ sorter', store_items filled bins sorter = inr sorter'
    ∧ ∀ k, sorter' !! k
           = if decide (k ∈ bins)
             then (λ r, {| category := category r; items := default [] (filled !! k) |})
                    <$> sorter !! k
             else sorter !! k.
Proof.
  revert sorter. induction bins as [|b rest IH]; intros sorter Hall; cbn [store_items].
  - exists sorter. split; [done|]. intros k. by rewrite decide_False by apply not_elem_of_nil.
  - destruct (Hall b) as [r Hr]; [by left|]. unfold subscript. rewrite Hr. simpl.
    destruct (IH (<[b := {| category := category r; items := default [] (filled !! b) |}]>
                    sorter)) as (sorter' & -> & Hlook).
    { intros b' Hb'. apply lookup_insert_is_Some'. right. apply Hall. by right. }
    exists sorter'. split; [done|]. intros k. rewrite Hlook.
    destruct (decide (k = b)) as [->|Hne].
    + rewrite (decide_True (P := b ∈ b :: rest)) by (by left).
      rewrite lookup_insert_eq, Hr. by case_decide.
    + rewrite lookup_insert_ne by done.
      destruct (decide (k ∈ rest)) as [Hk|Hk].
      * rewrite decide_True; [done|by right].
      * by rewrite decide_False by (by intros [?|?]%elem_of_cons).
Qed.

Lemma fill_bins_for_category_inl (its bins : list string) (e : exn) :
  fill_bins_for_category its bins = inl e →
  e = CapacityError (length its) (length bins * BIN_CAPACITY) bins
  ∧ length bins * BIN_CAPACITY < length its.
Proof.
  unfold fill_bins_for_category. rewrite sorted_length.
  case_decide; [|done]. by intros [= <-].
Qed.

Lemma fill_loop_values (s : list string) (i : nat) (bins : list string)
    (out : gmap string (list string)) :
  (∀ b l, out !! b = Some l → l ⊆ s) →
  ∀ b l, fill_loop s i bins out !! b = Some l → l ⊆ s.
Proof.
  revert i out. induction bins as [|b0 rest IH]; intros i out Hout b l; simpl; [apply Hout|].
  assert (∀ b l, <[b0 := take BIN_CAPACITY (drop i s)]> out !! b = Some l → l ⊆ s) as Hout'.
  { intros b' l'. destruct (decide (b0 = b')) as [->|Hne].
    - rewrite lookup_insert_eq. intros [= <-].
      etrans; [apply subseteq_take|apply subseteq_drop].
    - rewrite lookup_insert_ne by done. apply Hout. }
  case_decide; [apply Hout'|]. by apply IH.
Qed.

Lemma fill_bins_for_category_values (its bins : list string)
    (out : gmap string (list string)) (b : string) :
  fill_bins_for_category its bins = inr out →
  ∀ x, x ∈ default [] (out !! b) → x ∈ its.
Proof.
  unfold fill_bins_for_category. case_decide; [done|]. intros [= <-] x Hx.
  destruct (fill_loop _ _ _ _ !! b) as [l|] eqn:E; simpl in Hx;
    [|by apply elem_of_nil in Hx].
  apply (elem_of_sorted casefold). revert x Hx. change (l ⊆ sorted casefold its).
  eapply fill_loop_values; [|exact E].
  intros b' l'. rewrite dict_comp_lookup. case_decide; [|done].
  intros [= <-]. intros x Hx. by apply elem_of_nil in Hx.
Qed.

(** What the filling loop of [build_full_sorter] does when every bin of the
    layout has a record: it fails only on a category without items or on a
    capacity error; it keeps every record's category, touches only the bins the
    layout lists, and stores nothing but items of some category. *)
Lemma fill_layout_spec (categories layout : list (string * list string))
    (sorter : gmap string bin_record) :
  (∀ b, b ∈ layout_bins layout → is_Some (sorter !! b)) →
  match fill_layout categories layout sorter with
  | inl e =>
      (∃ c, e = KeyError c ∧ c ∈ layout.*1 ∧ dict_get c categories = None)
      ∨ (∃ n cap bins, e = CapacityError n cap bins)
  | inr sorter' =>
      (∀ k, category <$> sorter' !! k = category <$> sorter !! k)
      ∧ (∀ k, k ∉ layout_bins layout → sorter' !! k = sorter !! k)
      ∧ (∀ k r, sorter' !! k = Some r →
           (∃ r0, sorter !! k = Some r0 ∧ items r = items r0)
           ∨ (∃ c its, (c, its) ∈ categories ∧ ∀ x, x ∈ items r → x ∈ its))
  end.
Proof.
  revert sorter. induction layout as [|[c bins] rest IH]; intros sorter Hall;
    cbn [fill_layout].
  - split; [done|]. split; [done|]. intros k r Hr. left. by exists r.
  - rewrite layout_bins_cons in Hall.
    destruct (dict_get c categories) as [its|] eqn:Hc; simpl.
    2:{ left. exists c. split; [done|]. split; [by left|done]. }
    destruct (fill_bins_for_category its bins) as [e|filled] eqn:Hfill; simpl.
    { right. apply fill_bins_for_category_inl in Hfill as [-> _]. by do 3 eexists. }
    destruct (store_items_ok filled bins sorter) as (sorter1 & -> & Hlook1).
    { intros b Hb. apply Hall, elem_of_app. by left. }
    simpl.
    assert (∀ k, category <$> sorter1 !! k = category <$> sorter !! k) as Hcat1.
    { intros k. rewrite Hlook1. case_decide; [|done]. by destruct (sorter !! k). }
    specialize (IH sorter1).
    destruct (fill_layout categories rest sorter1) as [e|sorter'].
    { destruct IH as [(c' & -> & Hin & Hnone)|Hcap].
      - intros b Hb. apply fmap_is_Some with (f := category). rewrite Hcat1.
        apply fmap_is_Some, Hall, elem_of_app. by right.
      - left. exists c'. split; [done|]. split; [by right|done].
      - by right. }
    destruct IH as (Hcat & Hother & Hitems).
    { intros b Hb. apply fmap_is_Some with (f := category). rewrite Hcat1.
      apply fmap_is_Some, Hall, elem_of_app. by right. }
    split; [intros k; by rewrite Hcat, Hcat1|].
    split.
    + intros k Hk. rewrite layout_bins_cons in Hk.
      apply not_elem_of_app in Hk as [Hk1 Hk2].
      rewrite Hother by done. rewrite Hlook1. by rewrite decide_False.
    + intros k r Hr. destruct (Hitems k r Hr) as [(r1 & Hr1 & Heq)|Hsub]; [|by right].
      rewrite Hlook1 in Hr1. destruct (decide (k ∈ bins)) as [Hk|Hk].
      * right. exists c, its. split; [by apply dict_get_Some|].
        destruct (sorter !! k) as [r0|]; simpl in Hr1; [|done].
        injection Hr1 as <-. rewrite Heq. simpl.
        by apply (fill_bins_for_category_values its bins).
      * left. by exists r1.
Qed.

Lemma build_full_sorter_spec (categories layout : list (string * list string))
    (all_bins : list string) :
  match build_full_sorter categories layout all_bins with
  | inl e =>
      (∃ b, e = OutOfRangeError b ∧ b ∈ layout_bins layout ∧ b ∉ all_bins)
      ∨ ((∀ b, b ∈ layout_bins layout → b ∈ all_bins)
         ∧ ((∃ c, e = KeyError c ∧ c ∈ layout.*1 ∧ dict_get c categories = None)
            ∨ (∃ n cap bins, e = CapacityError n cap bins)))
  | inr sorter =>
      (∀ b, b ∈ layout_bins layout → b ∈ all_bins)
      ∧ (∀ k, is_Some (sorter !! k) ↔ k ∈ all_bins)
      ∧ (∀ k, k ∈ all_bins → k ∉ layout_bins layout →
           sorter !! k = Some {| category := "UNUSED"; items := [] |})
      ∧ (∀ k r, sorter !! k = Some r →
           items r = []
           ∨ (∃ c its, (c, its) ∈ categories ∧ ∀ x, x ∈ items r → x ∈ its))
  end.
Proof.
  unfold build_full_sorter.
  destruct (decide (Forall (λ b, b ∈ all_bins) (layout_bins layout))) as [Hin|Hout].
  2:{ apply not_Forall_Exists in Hout; [|apply _]. apply Exists_exists in Hout.
      destruct (build_bin_to_category_err all_bins layout Hout) as (b & Hb & Hb' & ->).
      simpl. left. by exists b. }
  rewrite Forall_forall in Hin.
  destruct (build_bin_to_category_ok all_bins layout Hin) as (btc & -> & Hdom & Hunused).
  simpl.
  destruct (prefill_ok btc all_bins ∅) as (sorter0 & -> & Hlook0).
  { intros b Hb. by apply Hdom. }
  simpl.
  assert (∀ k, is_Some (sorter0 !! k) ↔ k ∈ all_bins) as Hdom0.
  { intros k. rewrite Hlook0. case_decide as Hk.
    - rewrite fmap_is_Some, Hdom. done.
    - rewrite lookup_empty. split; [by intros [? ?]|done]. }
  pose proof (fill_layout_spec categories layout sorter0) as Hfill.
  destruct (fill_layout categories layout sorter0) as [e|sorter].
  { right. split; [done|]. apply Hfill. intros b Hb. by apply Hdom0, Hin. }
  destruct Hfill as (Hcat & Hother & Hitems).
  { intros b Hb. by apply Hdom0, Hin. }
  split; [done|]. split; [|split].
  - intros k. rewrite <-Hdom0, <-!(fmap_is_Some category). by rewrite Hcat.
  - intros k Hk Hfree. rewrite Hother by done. rewrite Hlook0, decide_True by done.
    by rewrite Hunused.
  - intros k r Hr. destruct (Hitems k r Hr) as [(r0 & Hr0 & Heq)|Hsub]; [|by right].
    left. rewrite Heq. rewrite Hlook0 in Hr0. case_decide; [|by rewrite lookup_empty in Hr0].
    destruct (btc !! k); simpl in Hr0; [|done]. by injection Hr0 as <-.
Qed.

(** ** The run after validation *)

Lemma sorted_nil_inv {A : Type} (key : A → string) (l : list A) :
  sorted key l = [] → l = [].
Proof.
  intros H. apply Permutation_nil. rewrite <-H. apply sorted_Permutation.
Qed.

Lemma validate_same_categories_Passed (categories layout : list (string * list string)) :
  validate_same_categories categories layout = Passed →
  ∀ c, c ∈ layout.*1 ↔ c ∈ categories.*1.
Proof.
  unfold validate_same_categories. intros Hv c.
  destruct (sorted casefold (set_difference categories.*1 layout.*1)) eqn:E1; [|done].
  destruct (sorted casefold (set_difference layout.*1 categories.*1)) eqn:E2; [|done].
  apply sorted_nil_inv in E1, E2.
  split; intros Hc.
  - destruct (decide (c ∈ categories.*1)) as [|Hn]; [done|].
    exfalso. apply (not_elem_of_nil c). rewrite <-E2. by apply elem_of_set_difference.
  - destruct (decide (c ∈ layout.*1)) as [|Hn]; [done|].
    exfalso. apply (not_elem_of_nil c). rewrite <-E1. by apply elem_of_set_difference.
Qed.

(** C10: once the category check has passed, every category of the layout has
    an item list, and building the sorter can fail only with the out-of-range
    error or the capacity error, never with a missing key. *)
Theorem build_full_sorter_no_missing_key (categories layout : list (string * list string))
    (all_bins : list string) :
  validate_same_categories categories layout = Passed →
  (∀ c bins, (c, bins) ∈ layout → ∃ its, dict_get c categories = Some its)
  ∧ (∀ e, build_full_sorter categories layout all_bins = inl e →
       ((∃ b, e = OutOfRangeError b) ∨ (∃ n cap bins, e = CapacityError n cap bins))
       ∧ ∀ k, e ≠ KeyError k).
Proof.
  intros Hv. pose proof (validate_same_categories_Passed _ _ Hv) as Hkeys.
  assert (∀ c, c ∈ layout.*1 → is_Some (dict_get c categories)) as Hget.
  { intros c Hc. by apply dict_get_is_Some, Hkeys. }
  split.
  - intros c bins Hin. apply Hget. by apply (list_elem_of_fmap_2 fst) in Hin.
  - intros e He. pose proof (build_full_sorter_spec categories layout all_bins) as Hspec.
    rewrite He in Hspec.
    destruct Hspec as [(b & -> & _)|[_ [(c & -> & Hc & Hnone)|(n & cap & bins & ->)]]].
    + split; [left; by exists b|done].
    + apply Hget in Hc as [its Hits]. congruence.
    + split; [right; by do 3 eexists|done].
Qed.

Lemma build_full_sorter_no_missing_key_witness :
  (∃ its, dict_get "Tools" [("Tools", ["Axe"]); ("Misc", [])] = Some its)
  ∧ ∀ e, build_full_sorter [("Tools", ["Axe"]); ("Misc", [])]
            [("Misc", ["B1"]); ("Tools", ["Z9"])] ALL_BINS = inl e →
         ∀ k, e ≠ KeyError k.
Proof.
  destruct (build_full_sorter_no_missing_key
              [("Tools", ["Axe"]); ("Misc", [])] [("Misc", ["B1"]); ("Tools", ["Z9"])]
              ALL_BINS) as [Hget Herr].
  - vm_compute. reflexivity.
  - split.
    + apply (Hget "Tools" ["Z9"]). right. left.
    + intros e He. apply (Herr e He).
Defined.

Lemma run_Wrote (categories layout : list (string * list string)) (rows : list row) :
  run categories layout = Wrote rows →
  validate_same_categories categories layout = Passed
  ∧ validate_layout_bins_unique layout = Passed
  ∧ ∃ sorter, build_full_sorter categories layout ALL_BINS = inr sorter
              ∧ write_exhaustive_chest_csv sorter ALL_BINS = inr rows.
Proof.
  unfold run. destruct (validate_same_categories categories layout); [|done].
  destruct (validate_layout_bins_unique layout); [|done].
  rewrite generate_all_bins_default. simpl.
  destruct (build_full_sorter categories layout ALL_BINS) as [e|sorter]; simpl; [done|].
  destruct (write_exhaustive_chest_csv sorter ALL_BINS) as [e|rows'] eqn:E; [done|].
  intros [= <-]. split; [done|]. split; [done|]. by exists sorter.
Qed.


Lemma validate_layout_bins_unique_code (layout : list (string * list string)) :
  validate_layout_bins_unique layout = Passed
  ∨ ∃ printed, validate_layout_bins_unique layout = Exited 3 printed.
Proof.
  unfold validate_layout_bins_unique.
  destruct (category_dupes layout); destruct (overlaps layout);
    [by left|right; by eexists..].
Qed.




(** ** Slot table emitter *)

(** The bin a row belongs to: column letter and cluster number. *)
Definition row_bin (r : row) : string := row_column r +:+ pretty (row_cluster r).

Definition rows_of_bin (b : string) (rows : list row) : list row :=
  filter (λ r, row_bin r = b) rows.

Definition slot_row (bin_id col_letter : string) (cluster_num : nat) (cat : string)
    (its : list string) (counter slot_num : nat) : row :=
  {| row_counter := counter;
     row_chest_id := bin_id +:+ "-" +:+ pretty slot_num;
     row_column := col_letter;
     row_cluster := cluster_num;
     row_number := slot_num;
     row_categories := cat;
     row_description := nth (slot_num - 1) its EmptyString |}.

(** The nine rows of one bin, the first one numbered [counter]. *)
Definition bin_rows (bin_id col_letter : string) (cluster_num : nat) (r : bin_record)
    (counter : nat) : list row :=
  (λ k, slot_row bin_id col_letter cluster_num (category r) (pad_items (items r))
          (counter + k) (1 + k)) <$> seq 0 BIN_CAPACITY.

(** One step of the exception monad. *)
Ltac exn_step := cbn [mbind exn_bind mret exn_ret fst snd].

Lemma write_slots_seq (bin_id col : string) (cl : nat) (cat : string) (its : list string)
    (a n c : nat) :
  write_slots bin_id col cl cat its (seq a n) c
  = ((λ k, slot_row bin_id col cl cat its (c + k) (a + k)) <$> seq 0 n, c + n).
Proof.
  revert a c. induction n as [|n IH]; intros a c; simpl.
  - by rewrite Nat.add_0_r.
  - rewrite IH. rewrite !Nat.add_0_r. f_equal; [|lia]. f_equal.
    rewrite <-fmap_S_seq, <-list_fmap_compose. apply list_fmap_ext.
    intros _ k _. simpl. f_equal; lia.
Qed.

Lemma write_bins_cons (sorter : gmap string bin_record) (b : string) (rest : list string)
    (c : nat) (rows : list row) :
  write_bins sorter (b :: rest) c = inr rows →
  ∃ col cl r more,
    parse_bin b = inr (col, cl) ∧ sorter !! b = Some r
    ∧ write_bins sorter rest (c + BIN_CAPACITY) = inr more
    ∧ rows = bin_rows b col cl r c ++ more.
Proof.
  cbn [write_bins]. destruct (parse_bin b) as [e|[col cl]]; exn_step; [done|].
  unfold subscript. destruct (sorter !! b) as [r|]; exn_step; [|done].
  rewrite write_slots_seq.
  destruct (write_bins sorter rest (c + BIN_CAPACITY)) as [e|more]; exn_step; [done|].
  intros [= <-]. by exists col, cl, r, more.
Qed.

Lemma write_bins_ok (sorter : gmap string bin_record) (bins : list string) (c : nat) :
  (∀ b, b ∈ bins → is_Some (sorter !! b) ∧ ∃ p, parse_bin b = inr p) →
  ∃ rows, write_bins sorter bins c = inr rows.
Proof.
  revert c. induction bins as [|b rest IH]; intros c Hall; cbn [write_bins]; [by eexists|].
  destruct (Hall b) as [[r Hr] [p Hp]]; [by left|].
  rewrite Hp. unfold subscript. rewrite Hr. exn_step. rewrite write_slots_seq.
  destruct (IH (c + BIN_CAPACITY)) as [more ->]; [intros b' Hb'; apply Hall; by right|].
  exn_step. by eexists.
Qed.

Lemma bin_rows_length (b col : string) (cl : nat) (r : bin_record) (c : nat) :
  length (bin_rows b col cl r c) = BIN_CAPACITY.
Proof. unfold bin_rows. by rewrite length_fmap, length_seq. Qed.

Lemma write_bins_length (sorter : gmap string bin_record) (bins : list string) (c : nat)
    (rows : list row) :
  write_bins sorter bins c = inr rows → length rows = length bins * BIN_CAPACITY.
Proof.
  revert c rows. induction bins as [|b rest IH]; intros c rows.
  - by intros [= <-].
  - intros (col & cl & r & more & _ & _ & Hmore & ->)%write_bins_cons.
    rewrite length_app, bin_rows_length, (IH _ _ Hmore). simpl. lia.
Qed.

(** Row [q * 9 + s] of the table is slot [s + 1] of the [q]-th bin. *)
Lemma write_bins_lookup (sorter : gmap string bin_record) (bins : list string) (c : nat)
    (rows : list row) (q s : nat) (b : string) :
  write_bins sorter bins c = inr rows →
  bins !! q = Some b → s < BIN_CAPACITY →
  ∃ col cl r,
    parse_bin b = inr (col, cl) ∧ sorter !! b = Some r
    ∧ rows !! (q * BIN_CAPACITY + s)
      = Some (slot_row b col cl (category r) (pad_items (items r))
                (c + (q * BIN_CAPACITY + s)) (1 + s)).
Proof.
  revert c rows q. induction bins as [|b0 rest IH]; intros c rows q Hw Hq Hs; [done|].
  apply write_bins_cons in Hw as (col & cl & r & more & Hp & Hr & Hmore & ->).
  destruct q as [|q]; simpl in Hq.
  - injection Hq as ->. exists col, cl, r. split; [done|]. split; [done|].
    rewrite lookup_app_l by (by rewrite bin_rows_length).
    unfold bin_rows. rewrite list_lookup_fmap, lookup_seq_lt by done. done.
  - destruct (IH _ _ q Hmore Hq Hs) as (col' & cl' & r' & Hp' & Hr' & Hlook).
    exists col', cl', r'. split; [done|]. split; [done|].
    rewrite lookup_app_r by (rewrite bin_rows_length; unfold BIN_CAPACITY; lia).
    rewrite bin_rows_length.
    replace (S q * BIN_CAPACITY + s - BIN_CAPACITY) with (q * BIN_CAPACITY + s)
      by (unfold BIN_CAPACITY; lia).
    rewrite Hlook. do 2 f_equal. unfold BIN_CAPACITY. lia.
Qed.

Lemma parse_bin_inv (b col : string) (cl : nat) :
  parse_bin b = inr (col, cl) → col +:+ pretty cl = b.
Proof.
  unfold parse_bin. destruct b as [|c0 [|c1 [|c2 b]]]; try done.
  destruct (contains_char c0 ascii_uppercase); simpl; [|done].
  destruct (Ascii.eqb c1 "1") eqn:E1; simpl.
  - apply Ascii.eqb_eq in E1 as ->. by intros [= <- <-].
  - destruct (Ascii.eqb c1 "2") eqn:E2; [|done].
    apply Ascii.eqb_eq in E2 as ->. by intros [= <- <-].
Qed.

Lemma bin_rows_row_bin (b col : string) (cl : nat) (r : bin_record) (c : nat) (x : row) :
  parse_bin b = inr (col, cl) → x ∈ bin_rows b col cl r c → row_bin x = b.
Proof.
  intros Hp (k & -> & _)%list_elem_of_fmap. unfold row_bin. simpl. by apply parse_bin_inv.
Qed.

Lemma write_bins_row_bin (sorter : gmap string bin_record) (bins : list string) (c : nat)
    (rows : list row) (x : row) :
  write_bins sorter bins c = inr rows → x ∈ rows → row_bin x ∈ bins.
Proof.
  revert c rows. induction bins as [|b rest IH]; intros c rows.
  - intros [= <-] Hx. by apply elem_of_nil in Hx.
  - intros (col & cl & r & more & Hp & _ & Hmore & ->)%write_bins_cons Hx.
    apply elem_of_cons. apply elem_of_app in Hx as [Hx|Hx].
    + left. by eapply bin_rows_row_bin.
    + right. by eapply IH.
Qed.

Lemma filter_all {A : Type} (P : A → Prop) `{∀ x, Decision (P x)} (l : list A) :
  (∀ x, x ∈ l → P x) → filter P l = l.
Proof.
  induction l as [|x l IH]; intros Hall; [done|].
  rewrite filter_cons_True by (apply Hall; by left).
  f_equal. apply IH. intros y Hy. apply Hall. by right.
Qed.

Lemma filter_none {A : Type} (P : A → Prop) `{∀ x, Decision (P x)} (l : list A) :
  (∀ x, x ∈ l → ¬ P x) → filter P l = [].
Proof.
  induction l as [|x l IH]; intros Hall; [done|].
  rewrite filter_cons_False by (apply Hall; by left).
  apply IH. intros y Hy. apply Hall. by right.
Qed.

(** The rows of one bin are its nine rows, in slot order. *)
Lemma write_bins_rows_of_bin (sorter : gmap string bin_record) (bins : list string)
    (c : nat) (rows : list row) (b : string) :
  write_bins sorter bins c = inr rows → NoDup bins → b ∈ bins →
  ∃ col cl r c',
    parse_bin b = inr (col, cl) ∧ sorter !! b = Some r
    ∧ rows_of_bin b rows = bin_rows b col cl r c'.
Proof.
  revert c rows. induction bins as [|b0 rest IH]; intros c rows Hw Hnd Hb.
  - by apply elem_of_nil in Hb.
  - apply write_bins_cons in Hw as (col & cl & r & more & Hp & Hr & Hmore & ->).
    apply NoDup_cons in Hnd as [Hb0 Hnd].
    unfold rows_of_bin. rewrite filter_app.
    destruct (decide (b = b0)) as [->|Hne].
    + exists col, cl, r, c. split; [done|]. split; [done|].
      rewrite (filter_none _ more), app_nil_r.
      * apply filter_all. intros x Hx. by eapply bin_rows_row_bin.
      * intros x Hx Hbin. apply Hb0. rewrite <-Hbin. by eapply write_bins_row_bin.
    + apply elem_of_cons in Hb as [?|Hb]; [done|].
      destruct (IH _ _ Hmore Hnd Hb) as (col' & cl' & r' & c' & Hp' & Hr' & Hrows).
      exists col', cl', r', c'. split; [done|]. split; [done|].
      rewrite (filter_none _ (bin_rows b0 col cl r c)); [done|].
      intros x Hx Hbin. apply Hne. rewrite <-Hbin. by eapply bin_rows_row_bin.
Qed.

(** ** The manifest of a valid run *)

Lemma ALL_BINS_NoDup : NoDup ALL_BINS.
Proof. apply (bool_decide_eq_true_1 (NoDup ALL_BINS)). vm_compute. reflexivity. Qed.

Definition raises {A : Type} (r : exn + A) : bool :=
  match r with inl _ => true | inr _ => false end.

Lemma ALL_BINS_parse (b : string) : b ∈ ALL_BINS → ∃ p, parse_bin b = inr p.
Proof.
  assert (Forall (λ b, raises (parse_bin b) = false) ALL_BINS) as Hall.
  { apply (bool_decide_eq_true_1 _). vm_compute. reflexivity. }
  rewrite Forall_forall in Hall. intros Hb%Hall.
  destruct (parse_bin b) as [e|p]; [done|by exists p].
Qed.

(** The emitter never fails on a sorter built for the generated bins: a run
    that passes both checks and the packer writes the manifest. *)
Lemma run_valid (categories layout : list (string * list string))
    (sorter : gmap string bin_record) :
  validate_same_categories categories layout = Passed →
  validate_layout_bins_unique layout = Passed →
  build_full_sorter categories layout ALL_BINS = inr sorter →
  ∃ rows, write_exhaustive_chest_csv sorter ALL_BINS = inr rows
          ∧ run categories layout = Wrote rows.
Proof.
  intros Hv1 Hv2 Hs.
  pose proof (build_full_sorter_spec categories layout ALL_BINS) as Hspec.
  rewrite Hs in Hspec. destruct Hspec as (_ & Hdom & _).
  destruct (write_bins_ok sorter ALL_BINS 1) as [rows Hrows].
  { intros b Hb. split; [by apply Hdom|by apply ALL_BINS_parse]. }
  exists rows. split; [done|].
  unfold run. rewrite Hv1, Hv2, generate_all_bins_default. exn_step.
  rewrite Hs. exn_step. unfold write_exhaustive_chest_csv in *. by rewrite Hrows.
Qed.

(** C6: for every input that passes both checks and the packer, the run writes
    432 = 24 x 2 x 9 rows; row [i] (counted from 0) carries the counter
    [i + 1], belongs to the bin at position [i / 9] of the generated order
    A1, A2, B1, ..., X2 and is slot [i mod 9 + 1] of that bin. *)
Theorem manifest_rows_in_order (categories layout : list (string * list string))
    (sorter : gmap string bin_record) :
  validate_same_categories categories layout = Passed →
  validate_layout_bins_unique layout = Passed →
  build_full_sorter categories layout ALL_BINS = inr sorter →
  ∃ rows,
    run categories layout = Wrote rows
    ∧ generate_all_bins "A" "X" = inr ALL_BINS
    ∧ length rows = 24 * 2 * BIN_CAPACITY
    ∧ length rows = 432
    ∧ ∀ i, i < 432 →
        ∃ r b, rows !! i = Some r
               ∧ ALL_BINS !! (i / BIN_CAPACITY) = Some b
               ∧ row_bin r = b
               ∧ row_counter r = i + 1
               ∧ row_number r = i mod BIN_CAPACITY + 1
               ∧ row_chest_id r = b +:+ "-" +:+ pretty (i mod BIN_CAPACITY + 1).
Proof.
  intros Hv1 Hv2 Hs.
  destruct (run_valid _ _ _ Hv1 Hv2 Hs) as (rows & Hw & Hrun).
  exists rows. split; [done|]. split; [apply generate_all_bins_default|].
  pose proof (write_bins_length _ _ _ _ Hw) as Hlen.
  split; [exact Hlen|]. split; [exact Hlen|].
  intros i Hi.
  assert (i / BIN_CAPACITY < length ALL_BINS) as Hq.
  { apply Nat.Div0.div_lt_upper_bound. simpl. unfold BIN_CAPACITY. lia. }
  destruct (lookup_lt_is_Some_2 ALL_BINS _ Hq) as [b Hb].
  assert (i mod BIN_CAPACITY < BIN_CAPACITY) as Hslot
    by (apply Nat.mod_upper_bound; done).
  destruct (write_bins_lookup _ _ _ _ _ _ _ Hw Hb Hslot) as (col & cl & r & Hp & Hr & Hrow).
  assert (i / BIN_CAPACITY * BIN_CAPACITY + i mod BIN_CAPACITY = i) as Hdiv.
  { rewrite (Nat.div_mod_eq i BIN_CAPACITY) at 3. lia. }
  rewrite Hdiv in Hrow.
  eexists _, b. split; [exact Hrow|]. split; [done|].
  split; [by apply parse_bin_inv|].
  cbn [slot_row row_counter row_number row_chest_id].
  rewrite (Nat.add_comm 1 (i mod BIN_CAPACITY)).
  split; [lia|]. done.
Qed.

Lemma manifest_rows_in_order_witness :
  ∃ rows, run [("Tools", ["Axe"; "axe2"])] [("Tools", ["A1"])] = Wrote rows
          ∧ length rows = 432.
Proof.
  destruct (manifest_rows_in_order [("Tools", ["Axe"; "axe2"])] [("Tools", ["A1"])]
              (match build_full_sorter [("Tools", ["Axe"; "axe2"])] [("Tools", ["A1"])]
                       ALL_BINS with
               | inr s => s
               | inl _ => ∅
               end))
    as (rows & Hrun & _ & _ & Hlen & _).
  - vm_compute. reflexivity.
  - vm_compute. reflexivity.
  - vm_compute. reflexivity.
  - exists rows. split; [exact Hrun|exact Hlen].
Defined.

Lemma length_filter_fmap {A B : Type} (P : B → Prop) `{∀ y, Decision (P y)}
    (g : A → B) (l : list A) :
  length (filter (λ x, P (g x)) l) = length (filter P (g <$> l)).
Proof.
  induction l as [|x l IH]; [done|]. rewrite fmap_cons, !filter_cons.
  destruct (decide (P (g x))); simpl; by rewrite IH.
Qed.

(** The Description column of a bin's rows is its padded item list. *)
Lemma bin_rows_descriptions (b col : string) (cl : nat) (r : bin_record) (c : nat) :
  row_description <$> bin_rows b col cl r c = take BIN_CAPACITY (pad_items (items r)).
Proof.
  unfold bin_rows. rewrite <-list_fmap_compose.
  assert (BIN_CAPACITY ≤ length (pad_items (items r))) as Hlen.
  { unfold pad_items. rewrite length_app, length_replicate. lia. }
  apply list_eq. intros k. rewrite list_lookup_fmap, lookup_take.
  destruct (decide (k < BIN_CAPACITY)) as [Hk|Hk].
  - rewrite lookup_seq_lt by done. simpl. rewrite Nat.sub_0_r.
    destruct (nth_lookup_or_length (pad_items (items r)) k EmptyString) as [->|?];
      [done|lia].
  - by rewrite lookup_seq_ge by lia.
Qed.

Lemma pad_items_nonempty (its : list string) :
  filter (λ d, d ≠ EmptyString) (take BIN_CAPACITY (pad_items its))
  = filter (λ d, d ≠ EmptyString) (take BIN_CAPACITY its).
Proof.
  unfold pad_items. rewrite take_app, filter_app, take_replicate.
  rewrite (filter_none _ (replicate _ _)); [by rewrite app_nil_r|].
  intros x Hx%elem_of_replicate. naive_solver.
Qed.

(** C3 (amended): for every input that passes both checks and the packer and
    every generated bin, the bin has nine rows, and the number of them with a
    non-empty Description equals the number of non-empty names among the
    bin's first nine items; when no item name is the empty string this is
    min(9, number of items assigned to the bin). *)
Theorem nonempty_descriptions_per_bin (categories layout : list (string * list string))
    (sorter : gmap string bin_record) (b : string) :
  validate_same_categories categories layout = Passed →
  validate_layout_bins_unique layout = Passed →
  build_full_sorter categories layout ALL_BINS = inr sorter →
  b ∈ ALL_BINS →
  ∃ rows r,
    run categories layout = Wrote rows
    ∧ sorter !! b = Some r
    ∧ length (rows_of_bin b rows) = BIN_CAPACITY
    ∧ length (filter (λ x, row_description x ≠ EmptyString) (rows_of_bin b rows))
      = length (filter (λ d, d ≠ EmptyString) (take BIN_CAPACITY (items r)))
    ∧ ((∀ c its x, (c, its) ∈ categories → x ∈ its → x ≠ EmptyString) →
       length (filter (λ x, row_description x ≠ EmptyString) (rows_of_bin b rows))
       = min BIN_CAPACITY (length (items r))).
Proof.
  intros Hv1 Hv2 Hs Hb.
  destruct (run_valid _ _ _ Hv1 Hv2 Hs) as (rows & Hw & Hrun).
  destruct (write_bins_rows_of_bin _ _ _ _ b Hw ALL_BINS_NoDup Hb)
    as (col & cl & r & c' & Hp & Hr & Hrows).
  exists rows, r. split; [done|]. split; [done|].
  rewrite Hrows. split; [apply bin_rows_length|].
  assert (length (filter (λ x, row_description x ≠ EmptyString) (bin_rows b col cl r c'))
          = length (filter (λ d, d ≠ EmptyString) (take BIN_CAPACITY (items r)))) as Hcount.
  { etrans; [exact (length_filter_fmap (λ d, d ≠ EmptyString) row_description _)|].
    by rewrite bin_rows_descriptions, pad_items_nonempty. }
  split; [exact Hcount|].
  intros Hne. rewrite Hcount. rewrite filter_all; [by rewrite length_take|].
  intros x Hx%subseteq_take.
  pose proof (build_full_sorter_spec categories layout ALL_BINS) as Hspec.
  rewrite Hs in Hspec. destruct Hspec as (_ & _ & _ & Hitems).
  destruct (Hitems b r Hr) as [Hnil|(c & its & Hin & Hsub)].
  - rewrite Hnil in Hx. by apply elem_of_nil in Hx.
  - eapply Hne; [exact Hin|]. by apply Hsub.
Qed.

Lemma nonempty_descriptions_per_bin_witness :
  ∃ rows,
    run [("Tools", ["Axe"; "axe2"])] [("Tools", ["A1"])] = Wrote rows
    ∧ length (filter (λ x, row_description x ≠ EmptyString) (rows_of_bin "A1" rows)) = 2.
Proof.
  destruct (nonempty_descriptions_per_bin [("Tools", ["Axe"; "axe2"])] [("Tools", ["A1"])]
              (match build_full_sorter [("Tools", ["Axe"; "axe2"])] [("Tools", ["A1"])]
                       ALL_BINS with
               | inr s => s
               | inl _ => ∅
               end) "A1")
    as (rows & r & Hrun & Hr & _ & Hcount & _).
  - vm_compute. reflexivity.
  - vm_compute. reflexivity.
  - vm_compute. reflexivity.
  - left.
  - exists rows. split; [exact Hrun|]. rewrite Hcount.
    vm_compute in Hr. injection Hr as <-. vm_compute. reflexivity.
Defined.

(** C3 (as stated) fails: the empty string is a valid item name; it is
    assigned to bin A1, yet no row of A1 has a non-empty Description. *)
Lemma empty_item_name_not_counted :
  ∃ sorter rows,
    build_full_sorter [("Tools", [EmptyString])] [("Tools", ["A1"])] ALL_BINS = inr sorter
    ∧ run [("Tools", [EmptyString])] [("Tools", ["A1"])] = Wrote rows
    ∧ (items <$> sorter !! "A1") = Some [EmptyString]
    ∧ length (filter (λ x, row_description x ≠ EmptyString) (rows_of_bin "A1" rows)) = 0
    ∧ min BIN_CAPACITY (length [EmptyString]) = 1.
Proof.
  eexists _, _. split; [vm_compute; reflexivity|].
  split; [vm_compute; reflexivity|].
  split; [vm_compute; reflexivity|].
  split; vm_compute; reflexivity.
Qed.

(** C9: in a run that passes both checks and the packer, a generated bin that
    no category of the layout lists has exactly nine rows in the manifest, all
    labelled UNUSED and with an empty Description. *)
Theorem unassigned_bin_rows (categories layout : list (string * list string))
    (sorter : gmap string bin_record) (b : string) :
  validate_same_categories categories layout = Passed →
  validate_layout_bins_unique layout = Passed →
  build_full_sorter categories layout ALL_BINS = inr sorter →
  b ∈ ALL_BINS →
  (∀ c bins, (c, bins) ∈ layout → b ∉ bins) →
  ∃ rows,
    run categories layout = Wrote rows
    ∧ length (rows_of_bin b rows) = 9
    ∧ Forall (λ r, row_categories r = "UNUSED" ∧ row_description r = EmptyString)
        (rows_of_bin b rows)
    ∧ (row_number <$> rows_of_bin b rows) = seq 1 9.
Proof.
  intros Hv1 Hv2 Hs Hb Hfree.
  destruct (run_valid _ _ _ Hv1 Hv2 Hs) as (rows & Hw & Hrun).
  destruct (write_bins_rows_of_bin _ _ _ _ b Hw ALL_BINS_NoDup Hb)
    as (col & cl & r & c' & Hp & Hr & Hrows).
  pose proof (build_full_sorter_spec categories layout ALL_BINS) as Hspec.
  rewrite Hs in Hspec. destruct Hspec as (_ & _ & Hunused & _).
  rewrite Hunused in Hr; [|done|].
  2:{ intros (c & bins & Hin & Hbin)%elem_of_layout_bins. by apply (Hfree c bins). }
  injection Hr as <-.
  exists rows. split; [done|]. rewrite Hrows.
  split; [apply bin_rows_length|].
  split; [|reflexivity].
  unfold bin_rows. apply Forall_fmap, Forall_forall. intros k Hk. simpl.
  split; [done|].
  apply elem_of_seq in Hk. rewrite Nat.sub_0_r.
  do 9 (destruct k as [|k]; [reflexivity|]). unfold BIN_CAPACITY in Hk. lia.
Qed.

Lemma unassigned_bin_rows_witness :
  ∃ rows,
    run [("Tools", ["Axe"; "axe2"])] [("Tools", ["A1"])] = Wrote rows
    ∧ length (rows_of_bin "X2" rows) = 9.
Proof.
  destruct (unassigned_bin_rows [("Tools", ["Axe"; "axe2"])] [("Tools", ["A1"])]
              (match build_full_sorter [("Tools", ["Axe"; "axe2"])] [("Tools", ["A1"])]
                       ALL_BINS with
               | inr s => s
               | inl _ => ∅
               end) "X2")
    as (rows & Hrun & Hlen & _).
  - vm_compute. reflexivity.
  - vm_compute. reflexivity.
  - vm_compute. reflexivity.
  - apply (bool_decide_eq_true_1 ("X2" ∈ ALL_BINS)). vm_compute. reflexivity.
  - intros c bins Hin Hb. apply list_elem_of_singleton in Hin. injection Hin as -> ->.
    apply list_elem_of_singleton in Hb. discriminate Hb.
  - exists rows. split; [exact Hrun|exact Hlen].
Defined.

(** * Further properties of the code *)

(** ** Sorting is stable *)

(** X1: names with the same case-folded form leave [sorted] in the order in
    which they entered it. *)
Theorem sorted_casefold_stable (k : string) (its : list string) :
  filter (λ x, casefold x = k) (sorted casefold its) = filter (λ x, casefold x = k) its.
Proof.
  induction its as [|x its IH]; simpl; [done|].
  rewrite insert_by_filter, !(filter_cons _ x), IH. done.
Qed.

(** ** Packing keeps every item *)

Lemma concat_chunks (s : list string) (n : nat) :
  concat ((λ j, take BIN_CAPACITY (drop (j * BIN_CAPACITY) s)) <$> seq 0 n)
  = take (n * BIN_CAPACITY) s.
Proof.
  induction n as [|n IH]; [done|].
  rewrite seq_S, fmap_app, concat_app, IH. simpl. rewrite app_nil_r.
  rewrite take_take_drop. f_equal. unfold BIN_CAPACITY. lia.
Qed.

Lemma fmap_lookup_seq {A B : Type} (f : A → B) (g : nat → B) (l : list A) :
  (∀ j x, l !! j = Some x → f x = g j) → f <$> l = g <$> seq 0 (length l).
Proof.
  intros H. apply list_eq. intros j. rewrite !list_lookup_fmap.
  destruct (l !! j) as [x|] eqn:E; simpl.
  - rewrite lookup_seq_lt by (by eapply lookup_lt_Some). simpl. f_equal. by apply H.
  - apply lookup_ge_None in E. by rewrite lookup_seq_ge.
Qed.

(** X2: when the bins of a category are distinct and the items fit, reading
    the packed bins in layout order gives back the sorted item list: no item is
    lost, repeated or moved. *)
Theorem fill_bins_for_category_concat (its bins : list string)
    (out : gmap string (list string)) :
  NoDup bins →
  fill_bins_for_category its bins = inr out →
  concat ((λ b, default [] (out !! b)) <$> bins) = sorted casefold its.
Proof.
  intros Hnd Hfill.
  assert (length its ≤ length bins * BIN_CAPACITY) as Hfit.
  { destruct (decide (length bins * BIN_CAPACITY < length its)) as [Hlt|]; [|lia].
    unfold fill_bins_for_category in Hfill. rewrite sorted_length in Hfill.
    by rewrite decide_True in Hfill. }
  unfold fill_bins_for_category in Hfill. rewrite sorted_length in Hfill.
  rewrite decide_False in Hfill by lia. injection Hfill as <-.
  rewrite (fmap_lookup_seq _
             (λ j, take BIN_CAPACITY (drop (j * BIN_CAPACITY) (sorted casefold its)))).
  - rewrite concat_chunks. apply take_ge. by rewrite sorted_length.
  - intros j b Hj. rewrite (fill_loop_lookup _ 0 bins _ j b); [done|done| |done].
    intros b' Hb'. rewrite dict_comp_lookup. by rewrite decide_True.
Qed.

Lemma fill_bins_for_category_concat_witness :
  ∃ out,
    fill_bins_for_category ["pick"; "é"; "Axe"; "É"] ["A1"; "B2"] = inr out
    ∧ concat ((λ b, default [] (out !! b)) <$> ["A1"; "B2"]) = ["Axe"; "pick"; "é"; "É"].
Proof.
  exists (match fill_bins_for_category ["pick"; "é"; "Axe"; "É"] ["A1"; "B2"] with
          | inr out => out
          | inl _ => ∅
          end).
  split; [vm_compute; reflexivity|].
  rewrite (fill_bins_for_category_concat ["pick"; "é"; "Axe"; "É"] ["A1"; "B2"]).
  - vm_compute. reflexivity.
  - apply (bool_decide_eq_true_1 (NoDup ["A1"; "B2"])). vm_compute. reflexivity.
  - vm_compute. reflexivity.
Defined.

(** ** Ordered dictionaries: lookup after assignment *)

Lemma dict_get_set {V : Type} (d : list (string * V)) (k k' : string) (v : V) :
  dict_get k (dict_set k' v d) = if decide (k = k') then Some v else dict_get k d.
Proof.
  induction d as [|[k0 v0] d IH]; simpl.
  - by destruct (decide (k = k')).
  - destruct (decide (k' = k0)) as [->|Hne]; simpl.
    + by destruct (decide (k = k0)).
    + rewrite IH. destruct (decide (k = k0)) as [->|]; [|done].
      by rewrite decide_False by done.
Qed.

Lemma dict_set_keys {V : Type} (d : list (string * V)) (k : string) (v : V) :
  (dict_set k v d).*1 = if decide (k ∈ d.*1) then d.*1 else d.*1 ++ [k].
Proof.
  induction d as [|[k0 v0] d IH]; cbn [dict_set].
  - by rewrite decide_False by apply not_elem_of_nil.
  - rewrite (fmap_cons fst (k0, v0) d). cbn [fst].
    destruct (decide (k = k0)) as [->|Hne].
    + by rewrite decide_True by (by left).
    + rewrite fmap_cons, IH. cbn [fst]. destruct (decide (k ∈ d.*1)) as [Hin|Hnin].
      * by rewrite decide_True by (by right).
      * by rewrite decide_False by (by intros [?|?]%elem_of_cons).
Qed.

Lemma dict_set_NoDup {V : Type} (d : list (string * V)) (k : string) (v : V) :
  NoDup d.*1 → NoDup (dict_set k v d).*1.
Proof.
  intros Hnd. rewrite dict_set_keys. case_decide; [done|].
  apply NoDup_app. split; [done|]. split; [|apply NoDup_singleton].
  by intros x Hx ->%list_elem_of_singleton.
Qed.

Lemma dict_get_elem_of {V : Type} (d : list (string * V)) (k : string) (v : V) :
  NoDup d.*1 → (k, v) ∈ d → dict_get k d = Some v.
Proof.
  induction d as [|[k0 v0] d IH]; simpl; [by intros _ ?%elem_of_nil|].
  intros [Hk0 Hnd]%NoDup_cons [[= -> ->]|Hin]%elem_of_cons.
  - by rewrite decide_True.
  - rewrite decide_False; [by apply IH|].
    intros ->. apply Hk0. by apply (list_elem_of_fmap_2 fst) in Hin.
Qed.

Lemma dict_get_filter {V : Type} (P : string * V → Prop) `{∀ x, Decision (P x)}
    (d : list (string * V)) (k : string) :
  NoDup d.*1 →
  dict_get k (filter P d)
  = match dict_get k d with
    | Some v => if decide (P (k, v)) then Some v else None
    | None => None
    end.
Proof.
  induction d as [|[k0 v0] d IH]; [done|].
  rewrite fmap_cons. intros [Hk0 Hnd]%NoDup_cons. rewrite filter_cons. simpl.
  destruct (decide (k = k0)) as [->|Hne].
  - destruct (decide (P (k0, v0))); simpl; [by rewrite decide_True|].
    rewrite IH by done. destruct (dict_get k0 d) as [v|] eqn:E; [|done].
    exfalso. apply Hk0. by apply dict_get_Some, (list_elem_of_fmap_2 fst) in E.
  - destruct (decide (P (k0, v0))); simpl; [rewrite decide_False by done|]; by apply IH.
Qed.

(** ** The bin-uniqueness check *)

(** The categories that list bin [b], once per listing, in layout order. *)
Definition owners (b : string) (layout : list (string * list string)) : list string :=
  layout ≫= λ cb, (λ _, cb.1) <$> filter (λ b', b' = b) cb.2.

Lemma length_owners (b : string) (layout : list (string * list string)) :
  length (owners b layout) = occurrences b (layout_bins layout).
Proof.
  unfold owners, layout_bins, occurrences.
  induction layout as [|[c bins] rest IH]; [done|].
  rewrite !bind_cons, filter_app, !length_app, length_fmap. simpl. by rewrite IH.
Qed.

Lemma setdefault_append_get (b b' c : string) (acc : list (string * list string)) :
  default [] (dict_get b (setdefault_append b' c acc))
  = default [] (dict_get b acc) ++ (if decide (b' = b) then [c] else []).
Proof.
  unfold setdefault_append. rewrite dict_get_set.
  destruct (decide (b = b')) as [->|Hne].
  - by rewrite decide_True.
  - rewrite decide_False by done. by rewrite app_nil_r.
Qed.

Lemma bin_to_categories_inner (b c : string) (bins : list string)
    (acc : list (string * list string)) :
  default [] (dict_get b (foldl (λ acc b', setdefault_append b' c acc) acc bins))
  = default [] (dict_get b acc) ++ ((λ _, c) <$> filter (λ b', b' = b) bins).
Proof.
  revert acc. induction bins as [|b0 bins IH]; intros acc; simpl.
  - by rewrite app_nil_r.
  - rewrite IH, setdefault_append_get, filter_cons.
    destruct (decide (b0 = b)); simpl; by rewrite <-?app_assoc, ?app_nil_r.
Qed.

Lemma bin_to_categories_get (b : string) (layout : list (string * list string)) :
  default [] (dict_get b (bin_to_categories layout)) = owners b layout.
Proof.
  unfold bin_to_categories, owners.
  assert (∀ acc,
    default [] (dict_get b
      (foldl (λ acc cb, foldl (λ acc b', setdefault_append b' cb.1 acc) acc cb.2) acc layout))
    = default [] (dict_get b acc)
      ++ (layout ≫= λ cb, (λ _, cb.1) <$> filter (λ b', b' = b) cb.2)) as Hgen.
  { induction layout as [|[c bins] rest IH]; intros acc; simpl.
    - by rewrite app_nil_r.
    - rewrite IH, bin_to_categories_inner. by rewrite <-app_assoc. }
  by rewrite Hgen.
Qed.

Lemma bin_to_categories_NoDup (layout : list (string * list string)) :
  NoDup (bin_to_categories layout).*1.
Proof.
  unfold bin_to_categories.
  assert (∀ acc, NoDup acc.*1 →
    NoDup (foldl (λ acc cb, foldl (λ acc b', setdefault_append b' cb.1 acc) acc cb.2)
             acc layout).*1) as Hgen.
  { induction layout as [|[c bins] rest IH]; intros acc Hacc; simpl; [done|].
    apply IH. clear IH. revert acc Hacc.
    induction bins as [|b0 bins IHb]; intros acc Hacc; simpl; [done|].
    apply IHb. by apply dict_set_NoDup. }
  apply Hgen. constructor.
Qed.

(** X3: the table of overlaps maps a bin to the categories that list it, once
    per listing and in layout order, and it holds exactly the bins that are
    listed at least twice in the layout; a bin listed twice by one category is
    an overlap of that category with itself. *)
Theorem overlaps_lists_owners (layout : list (string * list string)) (b : string)
    (cats : list string) :
  dict_get b (overlaps layout) = Some cats
  ↔ cats = owners b layout ∧ 2 ≤ occurrences b (layout_bins layout).
Proof.
  unfold overlaps. rewrite dict_get_filter by apply bin_to_categories_NoDup.
  pose proof (bin_to_categories_get b layout) as Hget.
  pose proof (length_owners b layout) as Hlen.
  destruct (dict_get b (bin_to_categories layout)) as [cats'|]; simpl in *.
  - subst cats'. case_decide as Hc; simpl in Hc.
    + split; [intros [= <-]; split; [done|lia]|]. by intros [-> _].
    + split; [done|]. intros [_ ?]. lia.
  - split; [done|]. intros [_ ?]. rewrite <-Hget in Hlen. simpl in Hlen. lia.
Qed.

Lemma occurrences_NoDup (keys : list string) :
  (∀ k, occurrences k keys ≤ 1) → NoDup keys.
Proof.
  induction keys as [|k0 keys IH]; intros Hocc; constructor.
  - intros Hin%occurrences_pos. specialize (Hocc k0).
    rewrite occurrences_cons, decide_True in Hocc by done. lia.
  - apply IH. intros k. specialize (Hocc k). rewrite occurrences_cons in Hocc. lia.
Qed.

Lemma occurrences_app (k : string) (l1 l2 : list string) :
  occurrences k (l1 ++ l2) = occurrences k l1 + occurrences k l2.
Proof. unfold occurrences. by rewrite filter_app, length_app. Qed.

(** After the scan of one category, [dupes] holds the bins met again, each
    once. *)
Lemma dupes_fold (bins : list string) (seen : gset string) (dupes : list string) :
  (NoDup dupes → NoDup (foldl dupes_step (seen, dupes) bins).2)
  ∧ ∀ k, k ∈ (foldl dupes_step (seen, dupes) bins).2 ↔
         k ∈ dupes ∨ (k ∈ bins ∧ k ∈ seen) ∨ 2 ≤ occurrences k bins.
Proof.
  revert seen dupes. induction bins as [|b rest IH]; intros seen dupes.
  - simpl. split; [done|]. intros k. rewrite elem_of_nil. unfold occurrences. simpl.
    naive_solver lia.
  - cbn [foldl dupes_step].
    destruct (IH ({[b]} ∪ seen)
                (if decide (b ∈ seen ∧ b ∉ dupes) then dupes ++ [b] else dupes))
      as [Hnd Hmem].
    split.
    + intros Hd. apply Hnd. case_decide as Hb; [|done].
      apply NoDup_app. split; [done|]. split; [|apply NoDup_singleton].
      intros x Hx ->%list_elem_of_singleton. by destruct Hb.
    + intros k. rewrite Hmem. clear Hnd Hmem IH.
      rewrite occurrences_cons, elem_of_cons, elem_of_union, elem_of_singleton,
        (occurrences_pos k rest).
      destruct (decide (b ∈ seen ∧ b ∉ dupes)) as [[Hs Hd]|Hnot].
      * rewrite elem_of_app, list_elem_of_singleton. case_decide; naive_solver lia.
      * apply not_and_l in Hnot. destruct (decide (b = k)) as [->|Hne].
        -- destruct Hnot as [Hs|Hd%dec_stable]; naive_solver lia.
        -- naive_solver lia.
Qed.

(** X4: the scan of one category's bin list collects exactly the bins that
    occur at least twice in it, each of them once. *)
Theorem dupes_of_repeated (bins : list string) :
  NoDup (dupes_of bins) ∧ ∀ b, b ∈ dupes_of bins ↔ 2 ≤ occurrences b bins.
Proof.
  unfold dupes_of. destruct (dupes_fold bins ∅ []) as [Hnd Hmem].
  split; [apply Hnd; constructor|].
  intros b. rewrite Hmem, elem_of_nil. set_solver.
Qed.

Lemma NoDup_layout_bins_member (layout : list (string * list string)) (c : string)
    (bins : list string) :
  NoDup (layout_bins layout) → (c, bins) ∈ layout → NoDup bins.
Proof.
  induction layout as [|[c0 bins0] rest IH]; [by intros _ ?%elem_of_nil|].
  rewrite layout_bins_cons. intros (Hnd0 & _ & Hnd)%NoDup_app [[= -> ->]|Hin]%elem_of_cons;
    [done|by apply IH].
Qed.

Lemma category_dupes_nil_iff (layout : list (string * list string)) :
  category_dupes layout = [] ↔ ∀ c bins, (c, bins) ∈ layout → NoDup bins.
Proof.
  split.
  - intros Hnil c bins Hin. eapply dupes_of_nil_NoDup, category_dupes_nil; done.
  - intros Hall. unfold category_dupes.
    assert (∀ cb, cb ∈ layout → dupes_of cb.2 = []) as Hd.
    { intros [c bins] Hin. apply elem_of_nil_inv. intros b Hb.
      destruct (dupes_fold bins ∅ []) as [_ Hmem]. apply Hmem in Hb.
      rewrite elem_of_nil in Hb. destruct Hb as [[]|[[_ Hb%elem_of_empty]|Hocc]]; [done|].
      pose proof (NoDup_occurrences bins b (Hall c bins Hin)). lia. }
    clear Hall. induction layout as [|cb rest IH]; [done|]. simpl.
    rewrite (Hd cb) by (by left). apply IH. intros cb' Hin. apply Hd. by right.
Qed.

Lemma overlaps_nil_iff (layout : list (string * list string)) :
  overlaps layout = [] ↔ NoDup (layout_bins layout).
Proof.
  unfold overlaps. split.
  - intros Hnil. apply occurrences_NoDup. intros b.
    destruct (decide (occurrences b (layout_bins layout) ≤ 1)) as [|Hgt]; [done|].
    exfalso. pose proof (bin_to_categories_get b layout) as Hget.
    pose proof (length_owners b layout) as Hlen.
    destruct (dict_get b (bin_to_categories layout)) as [cats|] eqn:E; simpl in Hget.
    + apply dict_get_Some in E.
      apply (filter_nil_not_elem_of _ _ (b, cats)) in Hnil; [done|].
      simpl. rewrite Hget, Hlen. lia.
    + rewrite <-Hget in Hlen. simpl in Hlen. lia.
  - intros Hnd. apply filter_none. intros [b cats] Hin. simpl.
    apply dict_get_elem_of in Hin; [|apply bin_to_categories_NoDup].
    pose proof (bin_to_categories_get b layout) as Hget. rewrite Hin in Hget.
    simpl in Hget. subst cats. rewrite length_owners.
    pose proof (NoDup_occurrences (layout_bins layout) b Hnd). lia.
Qed.

Lemma validate_layout_bins_unique_Passed (layout : list (string * list string)) :
  validate_layout_bins_unique layout = Passed ↔ NoDup (layout_bins layout).
Proof.
  unfold validate_layout_bins_unique. split.
  - intros Hv. apply overlaps_nil_iff.
    destruct (category_dupes layout); [|by destruct (overlaps layout)].
    by destruct (overlaps layout).
  - intros Hnd.
    rewrite (proj2 (category_dupes_nil_iff layout)), (proj2 (overlaps_nil_iff layout));
      [done|done|].
    intros c bins Hin. by eapply NoDup_layout_bins_member.
Qed.

(** X5: the bin check passes exactly when no bin id is listed twice in the
    whole layout, within one category or across categories; otherwise it
    exits with code 3. *)
Theorem validate_layout_bins_unique_iff (layout : list (string * list string)) :
  (validate_layout_bins_unique layout = Passed ↔ NoDup (layout_bins layout))
  ∧ (¬ NoDup (layout_bins layout) →
     ∃ printed, validate_layout_bins_unique layout = Exited 3 printed).
Proof.
  split; [apply validate_layout_bins_unique_Passed|].
  intros Hdup. destruct (validate_layout_bins_unique_code layout) as [Hp|Hx]; [|done].
  by apply validate_layout_bins_unique_Passed in Hp.
Qed.

(** ** The category check *)

Lemma bullet_first_char (c : string) : String.get 0 (bullet c) = Some " "%char.
Proof. reflexivity. Qed.

Lemma bullet_inj (c c' : string) : bullet c = bullet c' → c = c'.
Proof. unfold bullet. apply (inj (String.app "  - ")). Qed.

Lemma elem_of_bullets (c : string) (l : list string) : bullet c ∈ bullet <$> l → c ∈ l.
Proof. intros (c' & ->%bullet_inj & Hin)%list_elem_of_fmap. done. Qed.

(** A bullet line of the report is the bullet of a listed category. *)
Lemma mismatch_report_bullets (only_in_categories only_in_layout : list string)
    (c : string) :
  bullet c ∈ mismatch_report only_in_categories only_in_layout →
  c ∈ only_in_categories ∨ c ∈ only_in_layout.
Proof.
  unfold mismatch_report. pose proof (bullet_first_char c) as Hc.
  intros [H|[H|H]%elem_of_app]%elem_of_app.
  - apply list_elem_of_singleton in H. rewrite H in Hc. vm_compute in Hc. discriminate Hc.
  - left. destruct only_in_categories as [|c0 l]; [by apply elem_of_nil in H|].
    apply elem_of_app in H as [H|[H|H]%elem_of_app].
    + apply list_elem_of_singleton in H. rewrite H in Hc. vm_compute in Hc. discriminate Hc.
    + by apply elem_of_bullets.
    + apply list_elem_of_singleton in H. rewrite H in Hc. discriminate Hc.
  - right. destruct only_in_layout as [|c0 l]; [by apply elem_of_nil in H|].
    apply elem_of_app in H as [H|[H|H]%elem_of_app].
    + apply list_elem_of_singleton in H. rewrite H in Hc. vm_compute in Hc. discriminate Hc.
    + by apply elem_of_bullets.
    + apply list_elem_of_singleton in H. rewrite H in Hc. discriminate Hc.
Qed.

Lemma sorted_nil {A : Type} (key : A → string) : sorted key [] = [].
Proof. reflexivity. Qed.

(** X6: the category check passes exactly when the two mappings have the same
    set of category names; when it exits, the bullet lines of its report are
    exactly the names that are on one side only. *)
Theorem validate_same_categories_iff (categories layout : list (string * list string)) :
  (validate_same_categories categories layout = Passed
   ↔ ∀ c, c ∈ categories.*1 ↔ c ∈ layout.*1)
  ∧ ∀ printed c,
      validate_same_categories categories layout = Exited 2 printed →
      (bullet c ∈ printed
       ↔ (c ∈ categories.*1 ∧ c ∉ layout.*1) ∨ (c ∈ layout.*1 ∧ c ∉ categories.*1)).
Proof.
  split.
  - split; [intros Hv c; symmetry; by apply validate_same_categories_Passed|].
    intros Hkeys. unfold validate_same_categories.
    assert (set_difference categories.*1 layout.*1 = []) as ->.
    { apply elem_of_nil_inv. intros c [H1 H2]%elem_of_set_difference. by apply H2, Hkeys. }
    assert (set_difference layout.*1 categories.*1 = []) as ->.
    { apply elem_of_nil_inv. intros c [H1 H2]%elem_of_set_difference. by apply H2, Hkeys. }
    done.
  - intros printed c Hv. unfold validate_same_categories in Hv.
    assert (printed = mismatch_report
                        (sorted casefold (set_difference categories.*1 layout.*1))
                        (sorted casefold (set_difference layout.*1 categories.*1))) as ->.
    { destruct (sorted casefold (set_difference categories.*1 layout.*1));
        destruct (sorted casefold (set_difference layout.*1 categories.*1));
        [done|by injection Hv..]. }
    split.
    + intros [H|H]%mismatch_report_bullets; [left|right];
        by apply elem_of_sorted, elem_of_set_difference in H.
    + intros [H|H]; apply mismatch_report_lists; [left|right];
        by apply elem_of_sorted, elem_of_set_difference.
Qed.

(** ** Bin identifiers *)

(** Every identifier a letter range can produce: A1, A2, B1, ..., Z2. *)
Definition A1_TO_Z2 : list string :=
  flat_map (λ letter, [String letter "1"; String letter "2"])
    (String.list_ascii_of_string ascii_uppercase).

Lemma contains_char_elem (c : ascii) (s : string) :
  contains_char c s = true ↔ c ∈ String.list_ascii_of_string s.
Proof.
  induction s as [|d s IH]; simpl.
  - split; [done|by intros ?%elem_of_nil].
  - rewrite elem_of_cons. destruct (Ascii.eqb_spec c d) as [->|Hne]; [naive_solver|].
    rewrite IH. naive_solver.
Qed.

Lemma elem_of_A1_TO_Z2 (b : string) :
  b ∈ A1_TO_Z2 ↔
  ∃ letter, contains_char letter ascii_uppercase = true
            ∧ (b = String letter "1" ∨ b = String letter "2").
Proof.
  unfold A1_TO_Z2. rewrite list_elem_of_In, in_flat_map. split.
  - intros (letter & Hl & Hb). apply list_elem_of_In, contains_char_elem in Hl.
    apply list_elem_of_In in Hb. exists letter. split; [done|].
    apply elem_of_cons in Hb as [->|Hb]; [by left|].
    apply list_elem_of_singleton in Hb as ->. by right.
  - intros (letter & Hl & Hb). exists letter.
    split; [by apply list_elem_of_In, contains_char_elem|].
    apply list_elem_of_In. destruct Hb as [->| ->]; [by left|right; by left].
Qed.

Lemma parse_bin_ok_iff (b : string) : (∃ p, parse_bin b = inr p) ↔ b ∈ A1_TO_Z2.
Proof.
  rewrite elem_of_A1_TO_Z2. unfold parse_bin. split.
  - intros [p Hp]. destruct b as [|c0 [|c1 [|c2 b]]]; try done.
    exists c0. destruct (contains_char c0 ascii_uppercase); [|done]. split; [done|].
    destruct (Ascii.eqb_spec c1 "1") as [->|_]; [by left|].
    destruct (Ascii.eqb_spec c1 "2") as [->|_]; [by right|done].
  - intros (letter & Hl & [->| ->]); rewrite Hl; simpl; by eexists.
Qed.

(** X7: [parse_bin] accepts exactly the 52 identifiers A1 .. Z2 (the ones
    [generate_all_bins] produces for the range A..Z); it returns the letter and
    the cluster number 1 or 2, from which the identifier is rebuilt, and for
    any other text it raises the invalid-bin error carrying that text. *)
Theorem parse_bin_accepts (b : string) :
  generate_all_bins "A" "Z" = inr A1_TO_Z2
  ∧ length A1_TO_Z2 = 52
  ∧ ((∃ p, parse_bin b = inr p) ↔ b ∈ A1_TO_Z2)
  ∧ (∀ col cl, parse_bin b = inr (col, cl) →
       col +:+ pretty cl = b ∧ String.length col = 1 ∧ (cl = 1 ∨ cl = 2))
  ∧ (∀ e, parse_bin b = inl e → e = InvalidBin b).
Proof.
  split; [vm_compute; reflexivity|]. split; [reflexivity|].
  split; [apply parse_bin_ok_iff|]. split.
  - intros col cl Hp. split; [by apply parse_bin_inv|].
    unfold parse_bin in Hp. destruct b as [|c0 [|c1 [|c2 b]]]; try done.
    destruct (contains_char c0 ascii_uppercase && _); [|done].
    injection Hp as <- <-. split; [done|]. destruct (Ascii.eqb c1 "1"); auto.
  - intros e. unfold parse_bin. destruct b as [|c0 [|c1 [|c2 b]]]; try by intros [= <-].
    destruct (contains_char c0 ascii_uppercase && _); [done|by intros [= <-]].
Qed.

Lemma list_ascii_substring (n m : nat) (s : string) :
  String.list_ascii_of_string (String.substring n m s)
  = take m (drop n (String.list_ascii_of_string s)).
Proof.
  revert n m. induction s as [|c s IH]; intros [|n] [|m]; simpl; try done.
  all: by rewrite IH.
Qed.

Lemma flat_map_pair_drop {A B : Type} (f g : A → B) (n : nat) (l : list A) :
  flat_map (λ x, [f x; g x]) (drop n l) = drop (2 * n) (flat_map (λ x, [f x; g x]) l).
Proof.
  revert l. induction n as [|n IH]; intros l; [done|].
  replace (2 * S n) with (S (S (2 * n))) by lia.
  destruct l as [|x l]; simpl; [done|]. apply IH.
Qed.

Lemma flat_map_pair_take {A B : Type} (f g : A → B) (m : nat) (l : list A) :
  flat_map (λ x, [f x; g x]) (take m l) = take (2 * m) (flat_map (λ x, [f x; g x]) l).
Proof.
  revert l. induction m as [|m IH]; intros l; [done|].
  replace (2 * S m) with (S (S (2 * m))) by lia.
  destruct l as [|x l]; simpl; [done|]. by rewrite IH.
Qed.

Lemma A1_TO_Z2_NoDup : NoDup A1_TO_Z2.
Proof. apply (bool_decide_eq_true_1 (NoDup A1_TO_Z2)). vm_compute. reflexivity. Qed.

(** X8: for any start and end text, the list [generate_all_bins] returns is
    the contiguous slice of A1 .. Z2 between their positions in the alphabet
    (empty when the end lies before the start); its identifiers are pairwise
    distinct and all accepted by [parse_bin]. *)
Theorem generate_all_bins_slice (start_letter end_letter : string) (bins : list string) :
  generate_all_bins start_letter end_letter = inr bins →
  ∃ i j,
    str_index start_letter ascii_uppercase = inr i
    ∧ str_index end_letter ascii_uppercase = inr j
    ∧ bins = take (2 * (j + 1 - i)) (drop (2 * i) A1_TO_Z2)
    ∧ NoDup bins
    ∧ ∀ b, b ∈ bins → ∃ p, parse_bin b = inr p.
Proof.
  unfold generate_all_bins.
  destruct (str_index start_letter ascii_uppercase) as [e|i]; exn_step; [done|].
  destruct (str_index end_letter ascii_uppercase) as [e|j]; exn_step; [done|].
  intros H. apply (inj inr) in H. subst bins.
  exists i, j. split; [done|]. split; [done|].
  rewrite list_ascii_substring, flat_map_pair_take, flat_map_pair_drop.
  fold A1_TO_Z2. split; [done|]. split.
  - apply (sublist_NoDup _ A1_TO_Z2); [apply A1_TO_Z2_NoDup|].
    etrans; [apply sublist_take|apply sublist_drop].
  - intros b Hb. apply parse_bin_ok_iff.
    by apply subseteq_take, subseteq_drop in Hb.
Qed.

Lemma generate_all_bins_slice_witness :
  ∃ i j, generate_all_bins "C" "D" = inr (take (2 * (j + 1 - i)) (drop (2 * i) A1_TO_Z2))
         ∧ take (2 * (j + 1 - i)) (drop (2 * i) A1_TO_Z2) = ["C1"; "C2"; "D1"; "D2"].
Proof.
  destruct (generate_all_bins_slice "C" "D" ["C1"; "C2"; "D1"; "D2"])
    as (i & j & Hi & Hj & Hbins & _).
  - vm_compute. reflexivity.
  - exists i, j. rewrite <-Hbins. split; [vm_compute; reflexivity|reflexivity].
Defined.

Lemma str_index_inl (sub s : string) (e : exn) :
  str_index sub s = inl e → e = SubstringNotFound ∧ String.index 0 sub s = None.
Proof. unfold str_index. destruct (String.index 0 sub s); [done|]. by intros [= <-]. Qed.

Lemma str_index_inr (sub s : string) (i : nat) :
  str_index sub s = inr i → String.index 0 sub s = Some i.
Proof. unfold str_index. destruct (String.index 0 sub s); [|done]. by intros [= <-]. Qed.

(** X9: the only error of [generate_all_bins] is the one of [str.index]: it
    is raised exactly when the start or the end text does not occur in the
    alphabet (a lower-case letter, a digit); a range whose end lies before its
    start is not an error and gives the empty list. *)
Theorem generate_all_bins_error (start_letter end_letter : string) :
  (∀ e, generate_all_bins start_letter end_letter = inl e → e = SubstringNotFound)
  ∧ ((∃ e, generate_all_bins start_letter end_letter = inl e)
     ↔ String.index 0 start_letter ascii_uppercase = None
       ∨ String.index 0 end_letter ascii_uppercase = None)
  ∧ (∀ i j, String.index 0 start_letter ascii_uppercase = Some i →
            String.index 0 end_letter ascii_uppercase = Some j →
            j < i → generate_all_bins start_letter end_letter = inr []).
Proof.
  unfold generate_all_bins.
  split; [|split].
  - intros e.
    destruct (str_index start_letter ascii_uppercase) as [e1|i] eqn:E1; exn_step.
    { intros [= <-]. by apply str_index_inl in E1 as [-> _]. }
    destruct (str_index end_letter ascii_uppercase) as [e2|j] eqn:E2; exn_step; [|done].
    intros [= <-]. by apply str_index_inl in E2 as [-> _].
  - destruct (str_index start_letter ascii_uppercase) as [e1|i] eqn:E1; exn_step.
    { apply str_index_inl in E1 as [_ E1]. split; [by left|by eexists]. }
    apply str_index_inr in E1.
    destruct (str_index end_letter ascii_uppercase) as [e2|j] eqn:E2; exn_step.
    { apply str_index_inl in E2 as [_ E2]. split; [by right|by eexists]. }
    apply str_index_inr in E2. split; [by intros [? ?]|]. intros [?|?]; congruence.
  - intros i j Hi Hj Hlt. unfold str_index. rewrite Hi, Hj. exn_step.
    f_equal. rewrite list_ascii_substring.
    replace (j + 1 - i) with 0 by lia. done.
Qed.

(** ** What the loader accepts *)

(** The JSON document of a mapping: an object whose values are arrays of
    strings. *)
Definition to_json (d : list (string * list string)) : json :=
  JObject ((λ kv, (kv.1, JArray (JString <$> kv.2))) <$> d).

Lemma dict_set_fresh {V : Type} (d : list (string * V)) (k : string) (v : V) :
  k ∉ d.*1 → dict_set k v d = d ++ [(k, v)].
Proof.
  induction d as [|[k0 v0] d IH]; simpl; [done|].
  intros [Hne Hk]%not_elem_of_cons. rewrite decide_False by done. by rewrite IH.
Qed.

Lemma hook_fold_obj (pairs obj : list (string * pyval)) (seen : gset string)
    (dupes : list string) :
  NoDup (obj.*1 ++ pairs.*1) →
  (foldl hook_step (obj, seen, dupes) pairs).1.1 = obj ++ pairs.
Proof.
  revert obj seen dupes. induction pairs as [|[k v] rest IH]; intros obj seen dupes Hnd.
  - simpl. by rewrite app_nil_r.
  - cbn [foldl hook_step fst snd]. rewrite fmap_cons in Hnd. cbn [fst] in Hnd.
    assert (k ∉ obj.*1) as Hk.
    { apply NoDup_app in Hnd as (_ & Hdisj & _). intros Hin. apply (Hdisj k Hin). by left. }
    rewrite dict_set_fresh by done. rewrite IH.
    + by rewrite <-app_assoc.
    + rewrite fmap_app. simpl. by rewrite <-app_assoc.
Qed.

(** The hook returns the pairs themselves, as a dict, when their keys are
    distinct, and raises otherwise. *)
Lemma hook_inr (file : string) (pairs : list (string * pyval)) (v : pyval) :
  no_dupes_object_pairs_hook file pairs = inr v ↔ NoDup pairs.*1 ∧ v = PDict pairs.
Proof.
  destruct (hook_spec file pairs) as [[Hnd [obj Hobj]]|(uniq & Hu & Hne & _ & Hmem)].
  - assert (obj = pairs) as ->.
    { unfold no_dupes_object_pairs_hook in Hobj.
      pose proof (hook_fold_obj pairs [] ∅ [] Hnd) as Hfold.
      destruct (foldl hook_step ([], ∅, []) pairs) as [[obj' seen] dupes].
      simpl in Hfold. subst obj'. destruct dupes; [|done]. by injection Hobj as ->. }
    rewrite Hobj. split; [by intros [= <-]|by intros [_ ->]].
  - rewrite Hu. split; [done|]. intros [Hnd _]. exfalso.
    destruct uniq as [|k uniq]; [done|].
    assert (2 ≤ occurrences k pairs.*1) by (apply Hmem; by left).
    pose proof (NoDup_occurrences _ k Hnd). lia.
Qed.

Lemma loads_inr_PStr (file : string) (x : json) (s : string) :
  loads file x = inr (PStr s) ↔ x = JString s.
Proof.
  split; [|by intros ->].
  destruct x as [| | | |elems|members]; try (simpl; by intros [= <-]); try done.
  - rewrite loads_JArray. by destruct (loads_elems file elems).
  - rewrite loads_JObject. destruct (loads_members file members) as [e|pairs]; [done|].
    exn_step. by intros [_ [=]]%hook_inr.
Qed.

Lemma loads_inr_PList (file : string) (x : json) (vs : list pyval) :
  loads file x = inr (PList vs) ↔ ∃ elems, x = JArray elems ∧ loads_elems file elems = inr vs.
Proof.
  split.
  - destruct x as [| | | |elems|members]; try done.
    + rewrite loads_JArray. destruct (loads_elems file elems) as [e|vs'] eqn:E; [done|].
      exn_step. intros [= <-]. by exists elems.
    + rewrite loads_JObject. destruct (loads_members file members) as [e|pairs]; [done|].
      exn_step. by intros [_ [=]]%hook_inr.
  - intros (elems & -> & He). by rewrite loads_JArray, He.
Qed.

Lemma loads_inr_PDict (file : string) (x : json) (entries : list (string * pyval)) :
  loads file x = inr (PDict entries)
  ↔ ∃ members, x = JObject members ∧ loads_members file members = inr entries
               ∧ NoDup entries.*1.
Proof.
  split.
  - destruct x as [| | | |elems|members]; try done.
    + rewrite loads_JArray. by destruct (loads_elems file elems).
    + rewrite loads_JObject.
      destruct (loads_members file members) as [e|pairs] eqn:E; [done|].
      exn_step. intros [Hnd [= <-]]%hook_inr. by exists members.
  - intros (members & -> & Hm & Hnd). rewrite loads_JObject, Hm. exn_step.
    by apply hook_inr.
Qed.

Lemma loads_elems_of_strings (file : string) (l : list string) :
  loads_elems file (JString <$> l) = inr (PStr <$> l).
Proof.
  induction l as [|s l IH]; [done|].
  rewrite !fmap_cons. cbn [loads_elems loads]. exn_step. rewrite IH. done.
Qed.

Lemma as_list_of_str_strings (l : list string) :
  as_list_of_str (PList (PStr <$> l)) = Some l.
Proof.
  unfold as_list_of_str. induction l as [|s l IH]; [done|].
  rewrite fmap_cons. cbn [mapM]. rewrite IH. done.
Qed.

Lemma as_list_of_str_Some (v : pyval) (l : list string) :
  as_list_of_str v = Some l → v = PList (PStr <$> l).
Proof.
  unfold as_list_of_str. destruct v as [| | | |vs|]; try done.
  intros H. f_equal. revert l H. induction vs as [|x vs IH]; intros l; simpl.
  - by intros [= <-].
  - destruct x as [| | |s| |]; simpl; try done.
    destruct (mapM _ vs) as [l'|]; simpl; [|done].
    intros [= <-]. simpl. f_equal. by apply IH.
Qed.

Lemma loads_elems_strings_inv (file : string) (elems : list json) (l : list string) :
  loads_elems file elems = inr (PStr <$> l) → elems = JString <$> l.
Proof.
  revert l. induction elems as [|x elems IH]; intros l; simpl.
  - destruct l; [done|]. by intros [=].
  - destruct (loads file x) as [e|v] eqn:Ex; exn_step; [done|].
    destruct (loads_elems file elems) as [e|vs] eqn:Ee; exn_step; [done|].
    destruct l as [|s l]; [by intros [=]|]. rewrite !fmap_cons.
    intros [= -> ->]. apply loads_inr_PStr in Ex as ->. f_equal. by apply IH.
Qed.

(** A value passes the shape test exactly when it is an array of strings. *)
Lemma loads_value_strings (file : string) (x : json) (v : pyval) (l : list string) :
  loads file x = inr v → (as_list_of_str v = Some l ↔ x = JArray (JString <$> l)).
Proof.
  intros Hx. split.
  - intros ->%as_list_of_str_Some. apply loads_inr_PList in Hx as (elems & -> & He).
    f_equal. by apply loads_elems_strings_inv in He.
  - intros ->. rewrite loads_JArray, loads_elems_of_strings in Hx.
    injection Hx as <-. apply as_list_of_str_strings.
Qed.

Lemma load_members_of_mapping (of_bins : bool) (file : string)
    (d : list (string * list string)) :
  ∃ entries,
    loads_members file ((λ kv, (kv.1, JArray (JString <$> kv.2))) <$> d) = inr entries
    ∧ entries.*1 = d.*1
    ∧ check_values of_bins file entries = inr d.
Proof.
  induction d as [|[k l] d (entries & He & Hk & Hc)]; [by exists []|].
  exists ((k, PList (PStr <$> l)) :: entries).
  rewrite fmap_cons. cbn [loads_members fst snd].
  rewrite loads_JArray, loads_elems_of_strings. exn_step. rewrite He. exn_step.
  split; [done|]. split; [rewrite !fmap_cons; cbn [fst]; by rewrite Hk|].
  cbn [check_values]. rewrite as_list_of_str_strings, Hc. done.
Qed.

Lemma load_members_values_inv (of_bins : bool) (file : string)
    (members : list (string * json)) (entries : list (string * pyval))
    (d : list (string * list string)) :
  loads_members file members = inr entries →
  check_values of_bins file entries = inr d →
  members = (λ kv, (kv.1, JArray (JString <$> kv.2))) <$> d ∧ d.*1 = entries.*1.
Proof.
  revert entries d. induction members as [|[k x] members IH]; intros entries d; simpl.
  - intros [= <-]. simpl. by intros [= <-].
  - destruct (loads file x) as [e|v] eqn:Ex; exn_step; [done|].
    destruct (loads_members file members) as [e|vs] eqn:Em; exn_step; [done|].
    intros [= <-]. cbn [check_values].
    destruct (as_list_of_str v) as [l|] eqn:El; [|done].
    apply (loads_value_strings _ _ _ l Ex) in El. subst x.
    destruct (check_values of_bins file vs) as [e|d'] eqn:Ec; exn_step; [done|].
    intros [= <-]. destruct (IH vs d' eq_refl Ec) as [-> Hk].
    rewrite !fmap_cons. cbn [fst snd]. by rewrite Hk.
Qed.

Lemma load_mapping_inr_iff (of_bins : bool) (file : string) (j : json)
    (d : list (string * list string)) :
  load_mapping of_bins file (Some (Json j)) = inr d ↔ j = to_json d ∧ NoDup d.*1.
Proof.
  unfold load_mapping, load_json_no_dupe_keys, to_json. split.
  - destruct (loads file j) as [e|data] eqn:Ej; exn_step; [done|].
    destruct data as [| | | | |entries]; try done.
    apply loads_inr_PDict in Ej as (members & -> & Hm & Hnd).
    intros Hc. destruct (load_members_values_inv _ _ _ _ _ Hm Hc) as [-> Hk].
    split; [done|]. by rewrite Hk.
  - intros [-> Hnd].
    destruct (load_members_of_mapping of_bins file d) as (entries & He & Hk & Hc).
    rewrite (proj2 (loads_inr_PDict file _ entries)).
    + exn_step. done.
    + eexists. split; [done|]. split; [done|]. by rewrite Hk.
Qed.

Lemma load_mapping_inr_doc (of_bins : bool) (file : string) (doc : option content)
    (d : list (string * list string)) :
  load_mapping of_bins file doc = inr d ↔ doc = Some (Json (to_json d)) ∧ NoDup d.*1.
Proof.
  destruct doc as [[msg|parsed msg|j]|].
  - split; [done|by intros [? _]].
  - split; [|by intros [? _]].
    unfold load_mapping, load_json_no_dupe_keys.
    by destruct (loads file (JArray parsed)).
  - rewrite load_mapping_inr_iff. split; [by intros [-> ?]|by intros [[= ->] ?]].
  - split; [done|by intros [? _]].
Qed.

(** X10: the loader returns a mapping exactly for a document that is an
    object with pairwise distinct keys whose values are arrays of strings, and
    then it returns the members of the document in document order; in
    particular a mapping it returns never has a repeated key, and a missing
    file gives no mapping. *)
Theorem load_mapping_accepts (of_bins : bool) (file : string) (doc : option content)
    (d : list (string * list string)) :
  load_mapping of_bins file doc = inr d ↔ doc = Some (Json (to_json d)) ∧ NoDup d.*1.
Proof. apply load_mapping_inr_doc. Qed.




(** A text the parser rejects gives the parser's error unless an object
    completed before the rejection repeats a key: the hook has then raised
    first. *)
Example load_rejected_text :
  load_layout LAYOUT_JSON
    (Some (Malformed [JString "Axe"] "Expecting value: line 1 column 18 (char 17)"))
  = inl (JSONDecodeError "Expecting value: line 1 column 18 (char 17)")
  ∧ load_layout LAYOUT_JSON
      (Some (Malformed [JObject [("x", JNumber "1"); ("x", JNumber "2")]]
               "Expecting value: line 1 column 27 (char 26)"))
    = inl (DuplicateKey LAYOUT_JSON ["x"]).
Proof. split; vm_compute; reflexivity. Qed.

(** ** The sorter of a layout *)

Lemma assign_bins_inr (c : string) (bins : list string) (m m' : gmap string string) :
  assign_bins c bins m = inr m' →
  (∀ b, b ∈ bins → m' !! b = Some c) ∧ (∀ k, k ∉ bins → m' !! k = m !! k).
Proof.
  revert m. induction bins as [|b rest IH]; intros m; simpl.
  - intros [= <-]. split; [by intros b ?%elem_of_nil|done].
  - destruct (m !! b) as [v|] eqn:Hb; [|done].
    intros [Hin Hout]%IH. split.
    + intros b' [->|Hb']%elem_of_cons; [|by apply Hin].
      destruct (decide (b ∈ rest)) as [Hr|Hr]; [by apply Hin|].
      by rewrite Hout, lookup_insert_eq.
    + intros k [Hne Hk]%not_elem_of_cons. rewrite Hout by done.
      by rewrite lookup_insert_ne.
Qed.

Lemma assign_layout_inr (layout : list (string * list string)) (m m' : gmap string string) :
  assign_layout layout m = inr m' →
  NoDup (layout_bins layout) →
  (∀ c bins b, (c, bins) ∈ layout → b ∈ bins → m' !! b = Some c)
  ∧ (∀ k, k ∉ layout_bins layout → m' !! k = m !! k).
Proof.
  revert m. induction layout as [|[c0 bins0] rest IH]; intros m; cbn [assign_layout].
  - intros [= <-] _. split; [by intros c bins b ?%elem_of_nil|done].
  - destruct (assign_bins c0 bins0 m) as [e|m1] eqn:E1; exn_step; [done|].
    rewrite layout_bins_cons. intros Hrest (Hnd0 & Hdisj & Hnd)%NoDup_app.
    apply assign_bins_inr in E1 as [Hin1 Hout1].
    destruct (IH _ Hrest Hnd) as [Hin Hout]. split.
    + intros c bins b [[= -> ->]|Hcb]%elem_of_cons Hb.
      * rewrite Hout by (by apply Hdisj). by apply Hin1.
      * by eapply Hin.
    + intros k [Hk0 Hk]%not_elem_of_app. by rewrite Hout, Hout1.
Qed.

Lemma store_items_inr (filled : gmap string (list string)) (bins : list string)
    (sorter sorter' : gmap string bin_record) :
  store_items filled bins sorter = inr sorter' →
  (∀ b, b ∈ bins → is_Some (sorter !! b))
  ∧ ∀ k, sorter' !! k
         = if decide (k ∈ bins)
           then (λ r, {| category := category r; items := default [] (filled !! k) |})
                  <$> sorter !! k
           else sorter !! k.
Proof.
  intros Hs.
  assert (∀ b, b ∈ bins → is_Some (sorter !! b)) as Hall.
  { revert sorter Hs. induction bins as [|b rest IH]; intros sorter Hs b' Hb'.
    - by apply elem_of_nil in Hb'.
    - cbn [store_items] in Hs. unfold subscript in Hs.
      destruct (sorter !! b) as [r|] eqn:Hr; [|done]. cbn [mbind exn_bind] in Hs.
      apply elem_of_cons in Hb' as [->|Hb']; [by rewrite Hr|].
      apply (IH _ Hs) in Hb'. by apply lookup_insert_is_Some' in Hb' as [->|?]. }
  split; [done|].
  destruct (store_items_ok filled bins sorter Hall) as (s' & Hs' & Hlook).
  rewrite Hs in Hs'. by injection Hs' as <-.
Qed.

Lemma fill_layout_other (categories layout : list (string * list string))
    (sorter sorter' : gmap string bin_record) (k : string) :
  fill_layout categories layout sorter = inr sorter' →
  k ∉ layout_bins layout → sorter' !! k = sorter !! k.
Proof.
  revert sorter. induction layout as [|[c bins] rest IH]; intros sorter; cbn [fill_layout].
  - by intros [= <-].
  - destruct (dict_get c categories) as [its|]; exn_step; [|done].
    destruct (fill_bins_for_category its bins) as [e|filled]; exn_step; [done|].
    destruct (store_items filled bins sorter) as [e|s1] eqn:E1; exn_step; [done|].
    rewrite layout_bins_cons. intros Hrest [Hk0 Hk]%not_elem_of_app.
    rewrite (IH _ Hrest Hk). apply store_items_inr in E1 as [_ ->].
    by rewrite decide_False.
Qed.

(** What the filling loop leaves in a bin of a category, when no bin is listed
    twice. *)
Lemma fill_layout_inr (categories layout : list (string * list string))
    (sorter sorter' : gmap string bin_record) (c b : string) (bins : list string) :
  fill_layout categories layout sorter = inr sorter' →
  NoDup (layout_bins layout) →
  (c, bins) ∈ layout → b ∈ bins →
  ∃ its out r0,
    dict_get c categories = Some its
    ∧ fill_bins_for_category its bins = inr out
    ∧ sorter !! b = Some r0
    ∧ sorter' !! b = Some {| category := category r0; items := default [] (out !! b) |}.
Proof.
  revert sorter. induction layout as [|[c0 bins0] rest IH]; intros sorter; cbn [fill_layout].
  - by intros _ _ ?%elem_of_nil.
  - destruct (dict_get c0 categories) as [its|] eqn:Hc; exn_step; [|done].
    destruct (fill_bins_for_category its bins0) as [e|filled] eqn:Hf; exn_step; [done|].
    destruct (store_items filled bins0 sorter) as [e|s1] eqn:E1; exn_step; [done|].
    rewrite layout_bins_cons.
    intros Hrest (Hnd0 & Hdisj & Hnd)%NoDup_app [[= -> ->]|Hcb]%elem_of_cons Hb.
    + apply store_items_inr in E1 as [Hdom Hlook].
      destruct (Hdom b Hb) as [r0 Hr0]. exists its, filled, r0.
      split; [done|]. split; [done|]. split; [done|].
      rewrite (fill_layout_other _ _ _ _ b Hrest) by (by apply Hdisj).
      by rewrite Hlook, decide_True, Hr0.
    + destruct (IH _ Hrest Hnd Hcb Hb) as (its' & out & r1 & Hits & Hout & Hr1 & Hfinal).
      exists its', out, r1. split; [done|]. split; [done|]. split; [|done].
      apply store_items_inr in E1 as [_ Hlook]. rewrite Hlook in Hr1.
      rewrite decide_False in Hr1; [done|].
      intros Hb0. apply (Hdisj b Hb0), elem_of_layout_bins. by exists c, bins.
Qed.

(** Every category that was packed has an item list that fits. *)
Lemma fill_layout_capacity (categories layout : list (string * list string))
    (sorter sorter' : gmap string bin_record) (c : string) (bins : list string) :
  fill_layout categories layout sorter = inr sorter' →
  (c, bins) ∈ layout →
  ∃ its, dict_get c categories = Some its ∧ length its ≤ length bins * BIN_CAPACITY.
Proof.
  revert sorter. induction layout as [|[c0 bins0] rest IH]; intros sorter; cbn [fill_layout].
  - by intros _ ?%elem_of_nil.
  - destruct (dict_get c0 categories) as [its|] eqn:Hc; exn_step; [|done].
    destruct (fill_bins_for_category its bins0) as [e|filled] eqn:Hf; exn_step; [done|].
    destruct (store_items filled bins0 sorter) as [e|s1] eqn:E1; exn_step; [done|].
    intros Hrest [[= -> ->]|Hcb]%elem_of_cons; [|by eapply IH].
    exists its. split; [done|].
    destruct (decide (length bins0 * BIN_CAPACITY < length its)) as [Hlt|]; [|lia].
    unfold fill_bins_for_category in Hf. rewrite sorted_length in Hf.
    by rewrite decide_True in Hf.
Qed.

(** The filling loop succeeds when every bin has a record and every category
    has an item list that fits. *)
Lemma fill_layout_ok (categories layout : list (string * list string))
    (sorter : gmap string bin_record) :
  (∀ b, b ∈ layout_bins layout → is_Some (sorter !! b)) →
  (∀ c bins, (c, bins) ∈ layout →
     ∃ its, dict_get c categories = Some its ∧ length its ≤ length bins * BIN_CAPACITY) →
  ∃ sorter', fill_layout categories layout sorter = inr sorter'.
Proof.
  revert sorter. induction layout as [|[c bins] rest IH]; intros sorter Hdom Hfit;
    cbn [fill_layout]; [by eexists|].
  rewrite layout_bins_cons in Hdom.
  destruct (Hfit c bins) as (its & -> & Hlen); [by left|]. exn_step.
  unfold fill_bins_for_category at 1. rewrite sorted_length, decide_False by lia. exn_step.
  destruct (store_items_ok (fill_loop (sorted casefold its) 0 bins (dict_comp (λ _, []) bins))
              bins sorter) as (s1 & -> & Hlook).
  { intros b Hb. apply Hdom, elem_of_app. by left. }
  exn_step. apply IH.
  - intros b Hb. rewrite Hlook. case_decide; [rewrite fmap_is_Some|];
      apply Hdom, elem_of_app; by right.
  - intros c' bins' Hin. apply Hfit. by right.
Qed.

Lemma fill_bins_for_category_length (its bins : list string)
    (out : gmap string (list string)) (b : string) :
  fill_bins_for_category its bins = inr out →
  length (default [] (out !! b)) ≤ BIN_CAPACITY.
Proof.
  unfold fill_bins_for_category. case_decide; [done|]. intros [= <-].
  destruct (fill_loop _ _ _ _ !! b) as [l|] eqn:E; simpl; [|lia].
  revert E. apply (fill_loop_inv (λ l, length l ≤ BIN_CAPACITY)).
  - intros i. rewrite length_take. lia.
  - intros b' l'. rewrite dict_comp_lookup. case_decide; [|done]. intros [= <-]. simpl. lia.
Qed.

(** Where the items of a record come from after the filling loop. *)
Lemma fill_layout_items (categories layout : list (string * list string))
    (sorter sorter' : gmap string bin_record) (k : string) (r : bin_record) :
  fill_layout categories layout sorter = inr sorter' →
  sorter' !! k = Some r →
  (∃ r0, sorter !! k = Some r0 ∧ items r = items r0)
  ∨ (∃ c bins its out,
       (c, bins) ∈ layout ∧ dict_get c categories = Some its
       ∧ fill_bins_for_category its bins = inr out
       ∧ items r = default [] (out !! k)).
Proof.
  revert sorter. induction layout as [|[c0 bins0] rest IH]; intros sorter; cbn [fill_layout].
  - intros [= <-] Hr. left. by exists r.
  - destruct (dict_get c0 categories) as [its|] eqn:Hc; exn_step; [|done].
    destruct (fill_bins_for_category its bins0) as [e|filled] eqn:Hf; exn_step; [done|].
    destruct (store_items filled bins0 sorter) as [e|s1] eqn:E1; exn_step; [done|].
    intros Hrest Hr.
    destruct (IH _ Hrest Hr) as [(r1 & Hr1 & Heq)|(c & bins & its' & out & Hin & ?)].
    + apply store_items_inr in E1 as [_ Hlook]. rewrite Hlook in Hr1.
      destruct (decide (k ∈ bins0)).
      * right. exists c0, bins0, its, filled. split; [by left|].
        split; [done|]. split; [done|].
        destruct (sorter !! k); simpl in Hr1; [|done]. injection Hr1 as <-. by rewrite Heq.
      * left. by exists r1.
    + right. exists c, bins, its', out. split; [by right|done].
Qed.

(** X12: the sorter [build_full_sorter] returns has a record for exactly the
    bins of the address space it was given, and no record holds more than nine
    items. *)
Theorem build_full_sorter_records (categories layout : list (string * list string))
    (all_bins : list string) (sorter : gmap string bin_record) :
  build_full_sorter categories layout all_bins = inr sorter →
  (∀ k, is_Some (sorter !! k) ↔ k ∈ all_bins)
  ∧ ∀ k r, sorter !! k = Some r → length (items r) ≤ BIN_CAPACITY.
Proof.
  intros Hs. pose proof (build_full_sorter_spec categories layout all_bins) as Hspec.
  rewrite Hs in Hspec. destruct Hspec as (Hin & Hdom & _ & _).
  split; [done|]. intros k r Hr.
  unfold build_full_sorter in Hs.
  destruct (build_bin_to_category_ok all_bins layout Hin) as (btc & Hbtc & Hbdom & _).
  rewrite Hbtc in Hs. cbn [mbind exn_bind] in Hs.
  destruct (prefill_ok btc all_bins ∅) as (sorter0 & H0 & Hlook0).
  { intros b Hb. by apply Hbdom. }
  rewrite H0 in Hs. cbn [mbind exn_bind] in Hs.
  destruct (fill_layout_items _ _ _ _ _ _ Hs Hr)
    as [(r0 & Hr0 & ->)|(c & bins & its & out & _ & _ & Hout & ->)].
  - rewrite Hlook0 in Hr0. case_decide; [|by rewrite lookup_empty in Hr0].
    destruct (btc !! k); simpl in Hr0; [|done]. injection Hr0 as <-. simpl. lia.
  - by eapply fill_bins_for_category_length.
Qed.

Lemma build_full_sorter_records_witness :
  is_Some ((match build_full_sorter [("Tools", ["Axe"; "axe2"])] [("Tools", ["A1"])]
                    ALL_BINS with
            | inr s => s
            | inl _ => ∅
            end) !! "A1")
  ↔ "A1" ∈ ALL_BINS.
Proof.
  destruct (build_full_sorter_records [("Tools", ["Axe"; "axe2"])] [("Tools", ["A1"])]
              ALL_BINS
              (match build_full_sorter [("Tools", ["Axe"; "axe2"])] [("Tools", ["A1"])]
                       ALL_BINS with
               | inr s => s
               | inl _ => ∅
               end)) as [Hdom _].
  - vm_compute. reflexivity.
  - apply Hdom.
Defined.

(** What the sorter holds for a bin that a category lists, when no bin is
    listed twice. *)
Lemma build_full_sorter_assigned (categories layout : list (string * list string))
    (all_bins : list string) (sorter : gmap string bin_record) (c b : string)
    (bins : list string) :
  build_full_sorter categories layout all_bins = inr sorter →
  NoDup (layout_bins layout) →
  (c, bins) ∈ layout → b ∈ bins →
  ∃ its out,
    dict_get c categories = Some its
    ∧ fill_bins_for_category its bins = inr out
    ∧ sorter !! b = Some {| category := c; items := default [] (out !! b) |}.
Proof.
  intros Hs Hnd Hcb Hb.
  pose proof (build_full_sorter_spec categories layout all_bins) as Hspec.
  rewrite Hs in Hspec. destruct Hspec as (Hin & _).
  unfold build_full_sorter in Hs.
  destruct (build_bin_to_category_ok all_bins layout Hin) as (btc & Hbtc & Hbdom & _).
  rewrite Hbtc in Hs. cbn [mbind exn_bind] in Hs.
  apply assign_layout_inr in Hbtc as [Hassigned _]; [|done].
  destruct (prefill_ok btc all_bins ∅) as (sorter0 & H0 & Hlook0).
  { intros b' Hb'. by apply Hbdom. }
  rewrite H0 in Hs. cbn [mbind exn_bind] in Hs.
  destruct (fill_layout_inr _ _ _ _ _ _ _ Hs Hnd Hcb Hb)
    as (its & out & r0 & Hits & Hout & Hr0 & Hfinal).
  exists its, out. split; [done|]. split; [done|].
  rewrite Hfinal. rewrite Hlook0, decide_True, (Hassigned c bins b Hcb Hb) in Hr0.
  - by injection Hr0 as <-.
  - apply Hin, elem_of_layout_bins. by exists c, bins.
Qed.

(** X13: in a run that passes both checks and the packer, the [j]-th bin of a
    category is labelled with that category on all of its nine rows, and the
    Description column of these rows is the [j]-th block of nine of the
    category's sorted items followed by empty strings. *)
Theorem assigned_bin_rows (categories layout : list (string * list string))
    (sorter : gmap string bin_record) (c b : string) (bins its : list string) (j : nat) :
  validate_same_categories categories layout = Passed →
  validate_layout_bins_unique layout = Passed →
  build_full_sorter categories layout ALL_BINS = inr sorter →
  (c, bins) ∈ layout → bins !! j = Some b →
  dict_get c categories = Some its →
  ∃ rows,
    run categories layout = Wrote rows
    ∧ sorter !! b
      = Some {| category := c;
                items := take BIN_CAPACITY (drop (j * BIN_CAPACITY) (sorted casefold its)) |}
    ∧ Forall (λ r, row_categories r = c) (rows_of_bin b rows)
    ∧ row_description <$> rows_of_bin b rows
      = pad_items (take BIN_CAPACITY (drop (j * BIN_CAPACITY) (sorted casefold its))).
Proof.
  intros Hv1 Hv2 Hs Hcb Hj Hits.
  destruct (run_valid _ _ _ Hv1 Hv2 Hs) as (rows & Hw & Hrun).
  exists rows. split; [done|].
  pose proof (proj1 (validate_layout_bins_unique_Passed layout) Hv2) as Hnd.
  assert (b ∈ bins) as Hb by (by eapply list_elem_of_lookup_2).
  destruct (build_full_sorter_assigned _ _ _ _ _ _ _ Hs Hnd Hcb Hb)
    as (its' & out & Hits' & Hout & Hrec).
  rewrite Hits in Hits'. injection Hits' as <-.
  assert (default [] (out !! b)
          = take BIN_CAPACITY (drop (j * BIN_CAPACITY) (sorted casefold its))) as Hchunk.
  { unfold fill_bins_for_category in Hout. case_decide; [done|]. injection Hout as <-.
    rewrite (fill_loop_lookup _ 0 bins _ j b); [done| | |done].
    - by eapply NoDup_layout_bins_member.
    - intros b' Hb'. rewrite dict_comp_lookup. by rewrite decide_True. }
  rewrite Hchunk in Hrec. split; [done|].
  assert (b ∈ ALL_BINS) as Hall.
  { pose proof (build_full_sorter_spec categories layout ALL_BINS) as Hspec.
    rewrite Hs in Hspec. destruct Hspec as (Hin & _).
    apply Hin, elem_of_layout_bins. by exists c, bins. }
  destruct (write_bins_rows_of_bin _ _ _ _ b Hw ALL_BINS_NoDup Hall)
    as (col & cl & r & c' & Hp & Hr & Hrows).
  rewrite Hrec in Hr. injection Hr as <-. rewrite Hrows. split.
  - unfold bin_rows. apply Forall_fmap, Forall_forall. by intros k _.
  - rewrite bin_rows_descriptions. cbn [items]. apply take_ge.
    unfold pad_items. rewrite length_app, length_replicate, length_take. lia.
Qed.

Lemma assigned_bin_rows_witness :
  ∃ rows,
    run [("Tools", ["pick"; "é"; "Axe"; "É"])] [("Tools", ["A1"; "B2"])] = Wrote rows
    ∧ row_description <$> rows_of_bin "A1" rows
      = ["Axe"; "pick"; "é"; "É"; EmptyString; EmptyString; EmptyString; EmptyString;
         EmptyString].
Proof.
  destruct (assigned_bin_rows [("Tools", ["pick"; "é"; "Axe"; "É"])]
              [("Tools", ["A1"; "B2"])]
              (match build_full_sorter [("Tools", ["pick"; "é"; "Axe"; "É"])]
                       [("Tools", ["A1"; "B2"])] ALL_BINS with
               | inr s => s
               | inl _ => ∅
               end) "Tools" "A1" ["A1"; "B2"] ["pick"; "é"; "Axe"; "É"] 0)
    as (rows & Hrun & _ & _ & Hdesc).
  - vm_compute. reflexivity.
  - vm_compute. reflexivity.
  - vm_compute. reflexivity.
  - left.
  - reflexivity.
  - reflexivity.
  - exists rows. split; [exact Hrun|]. rewrite Hdesc. vm_compute. reflexivity.
Defined.

(** ** Which inputs a run accepts *)

Lemma validate_same_categories_same_keys (categories layout : list (string * list string)) :
  (∀ c, c ∈ categories.*1 ↔ c ∈ layout.*1) →
  validate_same_categories categories layout = Passed.
Proof.
  intros Hkeys. unfold validate_same_categories.
  assert (set_difference categories.*1 layout.*1 = []) as ->.
  { apply elem_of_nil_inv. intros c [H1 H2]%elem_of_set_difference. by apply H2, Hkeys. }
  assert (set_difference layout.*1 categories.*1 = []) as ->.
  { apply elem_of_nil_inv. intros c [H1 H2]%elem_of_set_difference. by apply H2, Hkeys. }
  done.
Qed.

Lemma run_Wrote_iff (categories layout : list (string * list string)) :
  (∃ rows, run categories layout = Wrote rows)
  ↔ (∀ c, c ∈ categories.*1 ↔ c ∈ layout.*1)
    ∧ NoDup (layout_bins layout)
    ∧ (∀ b, b ∈ layout_bins layout → b ∈ ALL_BINS)
    ∧ (∀ c bins its, (c, bins) ∈ layout → dict_get c categories = Some its →
         length its ≤ length bins * BIN_CAPACITY).
Proof.
  split.
  - intros [rows (Hv1 & Hv2 & sorter & Hs & _)%run_Wrote].
    split; [intros c; symmetry; by apply validate_same_categories_Passed|].
    split; [by apply validate_layout_bins_unique_Passed|].
    pose proof (build_full_sorter_spec categories layout ALL_BINS) as Hspec.
    rewrite Hs in Hspec. destruct Hspec as (Hin & _). split; [done|].
    intros c bins its Hcb Hits. unfold build_full_sorter in Hs.
    destruct (build_bin_to_category ALL_BINS layout) as [e|btc]; [done|].
    cbn [mbind exn_bind] in Hs.
    destruct (prefill btc ALL_BINS ∅) as [e|sorter0]; [done|].
    cbn [mbind exn_bind] in Hs.
    destruct (fill_layout_capacity _ _ _ _ _ _ Hs Hcb) as (its' & Hits' & Hfit).
    congruence.
  - intros (Hkeys & Hnd & Hin & Hfit).
    pose proof (validate_same_categories_same_keys _ _ Hkeys) as Hv1.
    pose proof (proj2 (validate_layout_bins_unique_Passed layout) Hnd) as Hv2.
    assert (∃ sorter, build_full_sorter categories layout ALL_BINS = inr sorter)
      as [sorter Hs].
    { unfold build_full_sorter.
      destruct (build_bin_to_category_ok ALL_BINS layout Hin) as (btc & -> & Hbdom & _).
      exn_step.
      destruct (prefill_ok btc ALL_BINS ∅) as (sorter0 & -> & Hlook0).
      { intros b Hb. by apply Hbdom. }
      exn_step. apply fill_layout_ok.
      - intros b Hb%Hin. rewrite Hlook0, decide_True by done.
        by apply fmap_is_Some, Hbdom.
      - intros c bins Hcb.
        destruct (dict_get_is_Some categories c) as [its Hits].
        { apply Hkeys. by apply (list_elem_of_fmap_2 fst) in Hcb. }
        exists its. split; [done|]. by eapply Hfit. }
    destruct (run_valid _ _ _ Hv1 Hv2 Hs) as (rows & _ & Hrun). by exists rows.
Qed.

(** X14: a run writes the manifest exactly when the two mappings have the
    same category names, no bin is listed twice in the layout, every listed
    bin is one of A1 .. X2, and every category has at most nine items per
    listed bin. *)
Theorem run_accepts (categories layout : list (string * list string)) :
  (∃ rows, run categories layout = Wrote rows)
  ↔ (∀ c, c ∈ categories.*1 ↔ c ∈ layout.*1)
    ∧ NoDup (layout_bins layout)
    ∧ (∀ b, b ∈ layout_bins layout → b ∈ ALL_BINS)
    ∧ (∀ c bins its, (c, bins) ∈ layout → dict_get c categories = Some its →
         length its ≤ length bins * BIN_CAPACITY).
Proof. apply run_Wrote_iff. Qed.

(** X15: [main] writes the manifest exactly when both files hold an object
    with distinct keys and arrays of strings as values and the run on the two
    mappings is accepted; the manifest then has 432 rows. *)
Theorem main_writes (categories_doc layout_doc : option content) (rows : list row) :
  main categories_doc layout_doc = Wrote rows
  ↔ ∃ categories layout,
      categories_doc = Some (Json (to_json categories))
      ∧ layout_doc = Some (Json (to_json layout))
      ∧ NoDup categories.*1 ∧ NoDup layout.*1
      ∧ run categories layout = Wrote rows
      ∧ length rows = 432.
Proof.
  unfold main, load_categories, load_layout. split.
  - destruct (load_mapping false CATEGORIES_JSON categories_doc) as [e|categories] eqn:Ec;
      [done|].
    destruct (load_mapping true LAYOUT_JSON layout_doc) as [e|layout] eqn:El; [done|].
    intros Hrun. exists categories, layout.
    apply load_mapping_inr_doc in Ec as [-> Hc]. apply load_mapping_inr_doc in El as [-> Hl].
    do 5 (split; [done|]).
    apply run_Wrote in Hrun as (_ & _ & sorter & _ & Hw).
    by apply write_bins_length in Hw.
  - intros (categories & layout & -> & -> & Hc & Hl & Hrun & _).
    rewrite (proj2 (load_mapping_inr_iff false CATEGORIES_JSON _ categories)) by done.
    rewrite (proj2 (load_mapping_inr_iff true LAYOUT_JSON _ layout)) by done.
    done.
Qed.

(** ** Which error the packer raises *)

Lemma assign_bins_first (c : string) (before after : list string) (b : string)
    (m : gmap string string) :
  (∀ x, x ∈ before → is_Some (m !! x)) → m !! b = None →
  assign_bins c (before ++ b :: after) m = inl (OutOfRangeError b).
Proof.
  revert m. induction before as [|x before IH]; intros m Hok Hb; simpl.
  - by rewrite Hb.
  - destruct (Hok x) as [v Hv]; [by left|]. rewrite Hv. apply IH.
    + intros y Hy. apply lookup_insert_is_Some'. right. apply Hok. by right.
    + rewrite lookup_insert_ne; [done|]. intros ->. congruence.
Qed.

Lemma assign_layout_first (layout : list (string * list string))
    (before after : list string) (b : string) (m : gmap string string) :
  layout_bins layout = before ++ b :: after →
  (∀ x, x ∈ before → is_Some (m !! x)) → m !! b = None →
  assign_layout layout m = inl (OutOfRangeError b).
Proof.
  revert before m. induction layout as [|[c bins] rest IH]; intros before m Heq Hok Hb.
  - by destruct before.
  - rewrite layout_bins_cons in Heq. cbn [assign_layout].
    apply app_eq_inv in Heq as [(k & -> & Hk)|(k & -> & Hk)].
    + destruct k as [|b' k].
      * simpl in Hk. rewrite app_nil_r.
        destruct (assign_bins_ok c before m Hok) as (m1 & -> & Hdom & _). exn_step.
        apply (IH []); [done|by intros x ?%elem_of_nil|].
        apply eq_None_not_Some. rewrite Hdom. by apply eq_None_not_Some.
      * injection Hk as <- _. by rewrite (assign_bins_first c before k b m).
    + destruct (assign_bins_ok c bins m) as (m1 & -> & Hdom & _).
      { intros x Hx. apply Hok, elem_of_app. by left. }
      exn_step. apply (IH k); [done| |].
      * intros x Hx. apply Hdom, Hok, elem_of_app. by right.
      * apply eq_None_not_Some. rewrite Hdom. by apply eq_None_not_Some.
Qed.

(** X16: when the layout lists bins outside the address space, the error names
    the first of them in layout order, whatever the categories hold. *)
Theorem build_full_sorter_first_out_of_range (categories layout : list (string * list string))
    (all_bins before after : list string) (b : string) :
  layout_bins layout = before ++ b :: after →
  (∀ x, x ∈ before → x ∈ all_bins) →
  b ∉ all_bins →
  build_bin_to_category all_bins layout = inl (OutOfRangeError b)
  ∧ build_full_sorter categories layout all_bins = inl (OutOfRangeError b).
Proof.
  intros Heq Hok Hb.
  assert (build_bin_to_category all_bins layout = inl (OutOfRangeError b)) as Hbtc.
  { unfold build_bin_to_category. apply (assign_layout_first _ before after); [done| |].
    - intros x Hx%Hok. rewrite dict_comp_lookup. by rewrite decide_True.
    - rewrite dict_comp_lookup. by rewrite decide_False. }
  split; [done|]. unfold build_full_sorter. by rewrite Hbtc.
Qed.

Lemma build_full_sorter_first_out_of_range_witness :
  build_full_sorter [] [("Tools", ["A1"; "Z9"]); ("Misc", ["Y1"])] ALL_BINS
  = inl (OutOfRangeError "Z9").
Proof.
  apply (build_full_sorter_first_out_of_range [] [("Tools", ["A1"; "Z9"]); ("Misc", ["Y1"])]
           ALL_BINS ["A1"] ["Y1"] "Z9").
  - reflexivity.
  - intros x Hx. apply list_elem_of_singleton in Hx as ->. left.
  - apply (bool_decide_eq_false_1 ("Z9" ∈ ALL_BINS)). vm_compute. reflexivity.
Defined.

Lemma fill_layout_app (categories l1 l2 : list (string * list string))
    (sorter : gmap string bin_record) :
  fill_layout categories (l1 ++ l2) sorter
  = s1 ← fill_layout categories l1 sorter; fill_layout categories l2 s1.
Proof.
  revert sorter. induction l1 as [|[c bins] l1 IH]; intros sorter; [done|].
  rewrite <-app_comm_cons. cbn [fill_layout].
  destruct (dict_get c categories) as [its|]; exn_step; [|done].
  destruct (fill_bins_for_category its bins) as [e|filled]; exn_step; [done|].
  destruct (store_items filled bins sorter) as [e|s1]; exn_step; [done|]. apply IH.
Qed.

(** X17: when every listed bin is in the address space and every layout
    category has items, the packer raises the capacity error of the first
    category, in layout order, whose items do not fit; the error carries the
    item count, the capacity and the bins of that category, not its name. *)
Theorem build_full_sorter_first_capacity_error
    (categories before after : list (string * list string)) (all_bins : list string)
    (c : string) (bins its : list string) :
  (∀ b, b ∈ layout_bins (before ++ (c, bins) :: after) → b ∈ all_bins) →
  (∀ c' bins', (c', bins') ∈ before →
     ∃ its', dict_get c' categories = Some its'
             ∧ length its' ≤ length bins' * BIN_CAPACITY) →
  dict_get c categories = Some its →
  length bins * BIN_CAPACITY < length its →
  build_full_sorter categories (before ++ (c, bins) :: after) all_bins
  = inl (CapacityError (length its) (length bins * BIN_CAPACITY) bins).
Proof.
  intros Hin Hfit Hits Hover. unfold build_full_sorter.
  destruct (build_bin_to_category_ok all_bins _ Hin) as (btc & -> & Hbdom & _). exn_step.
  destruct (prefill_ok btc all_bins ∅) as (sorter0 & -> & Hlook0).
  { intros b Hb. by apply Hbdom. }
  exn_step. rewrite fill_layout_app.
  destruct (fill_layout_ok categories before sorter0) as [s1 ->]; [|done|].
  { intros b Hb. rewrite Hlook0, decide_True.
    - apply fmap_is_Some, Hbdom, Hin. unfold layout_bins in *. rewrite bind_app.
      apply elem_of_app. by left.
    - apply Hin. unfold layout_bins in *. rewrite bind_app. apply elem_of_app. by left. }
  exn_step. cbn [fill_layout]. rewrite Hits. exn_step.
  unfold fill_bins_for_category. rewrite sorted_length, decide_True by done. done.
Qed.

Lemma build_full_sorter_first_capacity_error_witness :
  build_full_sorter
    [("Misc", ["rope"]);
     ("Tools", ["a"; "b"; "c"; "d"; "e"; "f"; "g"; "h"; "i"; "j"])]
    ([("Misc", ["B1"])] ++ ("Tools", ["A1"]) :: []) ALL_BINS
  = inl (CapacityError 10 9 ["A1"]).
Proof.
  apply (build_full_sorter_first_capacity_error
           [("Misc", ["rope"]);
            ("Tools", ["a"; "b"; "c"; "d"; "e"; "f"; "g"; "h"; "i"; "j"])]
           [("Misc", ["B1"])] [] ALL_BINS "Tools" ["A1"]
           ["a"; "b"; "c"; "d"; "e"; "f"; "g"; "h"; "i"; "j"]).
  - intros b Hb. apply elem_of_cons in Hb as [->|Hb].
    + apply (bool_decide_eq_true_1 ("B1" ∈ ALL_BINS)). vm_compute. reflexivity.
    + apply list_elem_of_singleton in Hb as ->. left.
  - intros c' bins' Hin. apply list_elem_of_singleton in Hin. injection Hin as -> ->.
    exists ["rope"]. split; [reflexivity|]. vm_compute. lia.
  - reflexivity.
  - vm_compute. lia.
Defined.

(** ** The emitter on any sorter *)

Lemma write_bins_inr (sorter : gmap string bin_record) (bins : list string) (c : nat)
    (rows : list row) :
  write_bins sorter bins c = inr rows →
  (∀ b, b ∈ bins → is_Some (sorter !! b) ∧ ∃ p, parse_bin b = inr p)
  ∧ row_counter <$> rows = seq c (length bins * BIN_CAPACITY).
Proof.
  revert c rows. induction bins as [|b rest IH]; intros c rows.
  - intros [= <-]. split; [by intros b ?%elem_of_nil|done].
  - intros (col & cl & r & more & Hp & Hr & Hmore & ->)%write_bins_cons.
    destruct (IH _ _ Hmore) as [Hall Hcount]. split.
    + intros b' [->|Hb']%elem_of_cons; [|by apply Hall].
      split; [by rewrite Hr|by eexists].
    + rewrite fmap_app, Hcount. unfold bin_rows. rewrite <-list_fmap_compose.
      change (length (b :: rest) * BIN_CAPACITY)
        with (BIN_CAPACITY + length rest * BIN_CAPACITY).
      rewrite seq_app. f_equal.
      assert (seq c BIN_CAPACITY = Nat.add c <$> seq 0 BIN_CAPACITY) as ->
        by (rewrite fmap_add_seq; f_equal; lia).
      reflexivity.
Qed.

(** X18: for any sorter and any list of bins, the emitter completes exactly
    when every bin is one of A1 .. Z2 and has a record in the sorter; the
    table then has nine rows per bin and the counter column reads 1, 2, 3, ...
    without gap or repetition. *)
Theorem write_exhaustive_chest_csv_rows (sorter : gmap string bin_record)
    (all_bins : list string) :
  ((∃ rows, write_exhaustive_chest_csv sorter all_bins = inr rows)
   ↔ ∀ b, b ∈ all_bins → b ∈ A1_TO_Z2 ∧ is_Some (sorter !! b))
  ∧ ∀ rows, write_exhaustive_chest_csv sorter all_bins = inr rows →
      length rows = length all_bins * BIN_CAPACITY
      ∧ row_counter <$> rows = seq 1 (length rows).
Proof.
  unfold write_exhaustive_chest_csv. split.
  - split.
    + intros [rows [Hall _]%write_bins_inr] b Hb. destruct (Hall b Hb) as [Hr Hp].
      split; [by apply parse_bin_ok_iff|done].
    + intros Hall. apply write_bins_ok. intros b Hb. destruct (Hall b Hb) as [Hp Hr].
      split; [done|by apply parse_bin_ok_iff].
  - intros rows Hw. pose proof (write_bins_length _ _ _ _ Hw) as Hlen.
    split; [done|]. rewrite Hlen. by apply write_bins_inr in Hw as [_ ->].
Qed.

(** ** The report of the bin check *)

Lemma overlaps_get_owners (layout : list (string * list string)) (b : string) :
  2 ≤ occurrences b (layout_bins layout) →
  dict_get b (overlaps layout) = Some (owners b layout).
Proof.
  intros Hocc. unfold overlaps. rewrite dict_get_filter by apply bin_to_categories_NoDup.
  pose proof (bin_to_categories_get b layout) as Hget.
  pose proof (length_owners b layout) as Hlen.
  destruct (dict_get b (bin_to_categories layout)) as [cats|]; simpl in Hget.
  - subst cats. rewrite decide_True; [done|]. simpl. lia.
  - rewrite <-Hget in Hlen. simpl in Hlen. lia.
Qed.

Lemma category_dupes_other (layout acc : list (string * list string)) (c : string) :
  c ∉ layout.*1 →
  dict_get c (foldl (λ acc cb, match dupes_of cb.2 with
                               | [] => acc
                               | d :: ds => dict_set cb.1 (d :: ds) acc
                               end) acc layout)
  = dict_get c acc.
Proof.
  revert acc. induction layout as [|[c0 bins0] rest IH]; intros acc Hc; [done|].
  rewrite fmap_cons in Hc. apply not_elem_of_cons in Hc as [Hne Hc].
  cbn [foldl]. rewrite IH by done. cbn [fst snd].
  destruct (dupes_of bins0); [done|]. rewrite dict_get_set. by rewrite decide_False.
Qed.

Lemma category_dupes_get (layout : list (string * list string)) (c : string)
    (bins : list string) :
  NoDup layout.*1 → (c, bins) ∈ layout → dupes_of bins ≠ [] →
  dict_get c (category_dupes layout) = Some (dupes_of bins).
Proof.
  unfold category_dupes. generalize (@nil (string * list string)).
  induction layout as [|[c0 bins0] rest IH]; intros acc Hnd Hin Hd.
  - by apply elem_of_nil in Hin.
  - rewrite fmap_cons in Hnd. apply NoDup_cons in Hnd as [Hc0 Hnd]. cbn [foldl fst snd].
    apply elem_of_cons in Hin as [[= -> ->]|Hin].
    + rewrite category_dupes_other by done.
      destruct (dupes_of bins0) as [|d ds]; [done|]. rewrite dict_get_set.
      by rewrite decide_True.
    + by apply IH.
Qed.

Lemma dict_get_keys {V : Type} (d : list (string * V)) (k : string) (v : V) :
  dict_get k d = Some v → k ∈ d.*1.
Proof. intros H%dict_get_Some. by apply (list_elem_of_fmap_2 fst) in H. Qed.

Lemma bins_report_dupes_line (cd ov : list (string * list string)) (c : string) :
  c ∈ cd.*1 → report_line cd c ∈ bins_report cd ov.
Proof.
  intros Hc. unfold bins_report. apply elem_of_app. right. apply elem_of_app. left.
  destruct cd as [|x cd]; [by apply elem_of_nil in Hc|].
  apply elem_of_app. right. apply elem_of_app. left.
  apply list_elem_of_fmap_2. by apply elem_of_sorted.
Qed.

Lemma bins_report_overlap_line (cd ov : list (string * list string)) (b : string) :
  b ∈ ov.*1 → report_line ov b ∈ bins_report cd ov.
Proof.
  intros Hb. unfold bins_report. apply elem_of_app. right. apply elem_of_app. right.
  destruct ov as [|x ov]; [by apply elem_of_nil in Hb|].
  apply elem_of_app. right. apply elem_of_app. left.
  apply list_elem_of_fmap_2. by apply elem_of_sorted.
Qed.

(** X19: when the bin check exits, its report has, for every category whose
    bin list repeats a bin, a line with the category and its repeated bins,
    and, for every bin listed at least twice in the layout, a line with the bin
    and the categories that list it; both lists are sorted without regard to
    case and joined with commas. *)
Theorem validate_layout_bins_unique_report (layout : list (string * list string))
    (printed : list string) :
  NoDup layout.*1 →
  validate_layout_bins_unique layout = Exited 3 printed →
  (∀ c bins, (c, bins) ∈ layout → ¬ NoDup bins →
     bullet c +:+ ": " +:+ join ", " (sorted casefold (dupes_of bins)) ∈ printed)
  ∧ (∀ b, 2 ≤ occurrences b (layout_bins layout) →
       bullet b +:+ ": " +:+ join ", " (sorted casefold (owners b layout)) ∈ printed).
Proof.
  intros Hkeys Hv. unfold validate_layout_bins_unique in Hv.
  assert (printed = bins_report (category_dupes layout) (overlaps layout)) as ->.
  { destruct (category_dupes layout); destruct (overlaps layout); [done|by injection Hv..]. }
  clear Hv. split.
  - intros c bins Hin Hdup.
    assert (dupes_of bins ≠ []) as Hd by (intros ?%dupes_of_nil_NoDup; done).
    pose proof (category_dupes_get layout c bins Hkeys Hin Hd) as Hget.
    pose proof (bins_report_dupes_line (category_dupes layout) (overlaps layout) c
                  (dict_get_keys _ _ _ Hget)) as Hline.
    unfold report_line in Hline. by rewrite Hget in Hline.
  - intros b Hocc. pose proof (overlaps_get_owners layout b Hocc) as Hget.
    pose proof (bins_report_overlap_line (category_dupes layout) (overlaps layout) b
                  (dict_get_keys _ _ _ Hget)) as Hline.
    unfold report_line in Hline. by rewrite Hget in Hline.
Qed.

Lemma validate_layout_bins_unique_report_witness :
  "  - A1: Misc, é, É"
  ∈ [nl +:+ "[ERROR] Invalid bin assignments in category_layout.json." +:+ nl;
     "Bins assigned to multiple categories:"; "  - A1: Misc, é, É"; EmptyString].
Proof.
  destruct (validate_layout_bins_unique_report
              [("é", ["A1"]); ("Misc", ["B2"; "A1"]); ("É", ["A1"])]
              [nl +:+ "[ERROR] Invalid bin assignments in category_layout.json." +:+ nl;
               "Bins assigned to multiple categories:"; "  - A1: Misc, é, É"; EmptyString])
    as [_ Hov].
  - apply (bool_decide_eq_true_1 (NoDup ["é"; "Misc"; "É"])). vm_compute. reflexivity.
  - vm_compute. reflexivity.
  - apply (Hov "A1"). vm_compute. lia.
Defined.

(** ** The plain loader

    [load_json] is the loader without the hook: [json.loads] builds every
    object by assigning its members in document order, so a repeated key keeps
    its first position and its last value. *)











